(** * ARI-Dashboard: inventory transaction and consistency engine

    A shallow embedding of the TypeScript sources of the dashboard
    (utils/helpers, types/item, services/itemsRepository,
    services/checkoutService, services/returnService,
    services/profileService, components/CSVImportModal,
    components/LocationPicker, components/NewItemModal) together with
    the properties the specification states about them.

    Conventions of the embedding.
    - A JS string is a [string]: a sequence of code units below 256.
    - A JS number is a [number]: NaN, an infinity, or a finite value
      carried as an exact rational.  The rounding of the mantissa of an
      IEEE double is not modelled for these; the range is (see
      [Num.to_double]), so that every comparison with 0 made by the code
      is the one JS makes.  Sums and differences are therefore the ones
      of the program on integers up to [Num.maxSafeInteger], where
      doubles and the increment of the store are exact, and every
      statement about the amount a quantity changes by is made there.
    - Integer-valued numbers that the code prints into strings (location
      coordinates, the item counter) are [Z].  Up to
      [Num.maxSafeInteger] the decimal text of the integer is what
      [String(n)] and a template literal print; statements about such
      texts are made there.  The counter is incremented as a double is
      ([Num.roundInt]).
    - A value that is a number or a string only at run time (a field typed
      [any] by the CSV importer) is a [jsval].
    - A Firestore database is a [store].  The module that creates the
      database handle, services/firebase, is not among the sources; as the
      specification has a numeric field that is not provided "left
      absent", a field that is [undefined] in an object written to the
      store is taken to be a field the document does not have.  An array
      directly inside an array is a value the store never accepts: a
      write of such a document fails.  A
      transaction is a computation in the [tx] monad, which reads a
      snapshot and buffers its writes; a transaction that commits does so
      atomically, so a history is a sequence of operations.
    - Console output, alerts and the progress state of the import dialog
      are left out: nothing the code returns or stores depends on them. *)

From Stdlib Require Import ZArith QArith Qabs Lia Lqa Bool Ascii String List.
From Stdlib Require Import DecimalString DecimalPos DecimalZ.
From stdpp Require Import base option list gmap strings.

Local Open Scope string_scope.
Local Open Scope Z_scope.

(** ** Characters and strings *)

Module Str.

Definition code (c : ascii) : Z := Z.of_nat (nat_of_ascii c).

(** [\d] *)
Definition isDigit (c : ascii) : bool := (48 <=? code c) && (code c <=? 57).

(** [a-z0-9] *)
Definition isLowerAlnum (c : ascii) : bool :=
  isDigit c || ((97 <=? code c) && (code c <=? 122)).

(** WhiteSpace and LineTerminator code units below 256: TAB, LF, VT, FF, CR,
    SP and NBSP.  This is the class of [\s] and of [String.prototype.trim]. *)
Definition isSpace (c : ascii) : bool :=
  let n := code c in
  ((9 <=? n) && (n <=? 13)) || (n =? 32) || (n =? 160).

(** [toLowerCase] on one code unit: A-Z and the Latin-1 capitals
    (U+00C0..U+00DE without the multiplication sign). *)
Definition lowerChar (c : ascii) : ascii :=
  let n := code c in
  if ((65 <=? n) && (n <=? 90)) ||
     ((192 <=? n) && (n <=? 222) && negb (n =? 215))
  then ascii_of_nat (Z.to_nat (n + 32)) else c.

Fixpoint toLowerCase (s : string) : string :=
  match s with
  | EmptyString => EmptyString
  | String c r => String (lowerChar c) (toLowerCase r)
  end.

(** [s.replace(/[^a-z0-9]/g, '')] *)
Fixpoint stripNonAlnum (s : string) : string :=
  match s with
  | EmptyString => EmptyString
  | String c r => if isLowerAlnum c then String c (stripNonAlnum r)
                  else stripNonAlnum r
  end.

Fixpoint trimStart (s : string) : string :=
  match s with
  | EmptyString => EmptyString
  | String c r => if isSpace c then trimStart r else s
  end.

Fixpoint trimEnd (s : string) : string :=
  match s with
  | EmptyString => EmptyString
  | String c r =>
      match trimEnd r with
      | EmptyString => if isSpace c then EmptyString else String c EmptyString
      | r' => String c r'
      end
  end.

Definition trim (s : string) : string := trimEnd (trimStart s).

Definition isEmpty (s : string) : bool :=
  match s with EmptyString => true | _ => false end.

(** Truthiness of a string: every string but the empty one. *)
Definition truthy (s : string) : bool := negb (isEmpty s).

(** Longest prefix whose characters satisfy [p], and the rest. *)
Fixpoint span (p : ascii -> bool) (s : string) : string * string :=
  match s with
  | EmptyString => (EmptyString, EmptyString)
  | String c r =>
      if p c then let '(a, b) := span p r in (String c a, b)
      else (EmptyString, s)
  end.

Fixpoint all (p : ascii -> bool) (s : string) : bool :=
  match s with
  | EmptyString => true
  | String c r => p c && all p r
  end.

(** [stripPrefixCI lit s]: [s] without its prefix [lit], compared ignoring
    case ([lit] is given in lower case); [None] if [s] does not start so. *)
Fixpoint stripPrefixCI (lit s : string) : option string :=
  match lit, s with
  | EmptyString, _ => Some s
  | String a l, String c r =>
      if Ascii.eqb a (lowerChar c) then stripPrefixCI l r else None
  | String _ _, EmptyString => None
  end.

(** Case-sensitive version. *)
Fixpoint stripPrefix (lit s : string) : option string :=
  match lit, s with
  | EmptyString, _ => Some s
  | String a l, String c r =>
      if Ascii.eqb a c then stripPrefix l r else None
  | String _ _, EmptyString => None
  end.

(** [s.split(sep)] for a one-character separator. *)
Fixpoint split (sep : ascii) (s : string) : list string :=
  match s with
  | EmptyString => [EmptyString]
  | String c r =>
      if Ascii.eqb c sep then EmptyString :: split sep r
      else match split sep r with
           | [] => [String c EmptyString]
           | x :: xs => String c x :: xs
           end
  end.

(** [parts.join(sep)] *)
Fixpoint join (sep : string) (parts : list string) : string :=
  match parts with
  | [] => EmptyString
  | [x] => x
  | x :: xs => x ++ sep ++ join sep xs
  end.

(** Value of a run of decimal digits, most significant first. *)
Definition digitVal (c : ascii) : Z := code c - 48.

Fixpoint digitsValAcc (acc : Z) (s : string) : Z :=
  match s with
  | EmptyString => acc
  | String c r => digitsValAcc (10 * acc + digitVal c) r
  end.

Definition digitsVal (s : string) : Z := digitsValAcc 0 s.

(** Decimal rendering of an integer, as [String(n)] and template literals
    print an integer-valued number. *)
Definition ofZ (n : Z) : string := NilZero.string_of_int (Z.to_int n).

End Str.

(** ** JS numbers *)

Inductive number : Type :=
  | NaN
  | Inf (neg : bool)
  | Fin (q : Q).

Module Num.

Definition zero : number := Fin 0.
Definition ofZ (n : Z) : number := Fin (inject_Z n).

Definition Qlt_bool (a b : Q) : bool := negb (Qle_bool b a).

(** [a < b] *)
Definition lt (a b : number) : bool :=
  match a, b with
  | NaN, _ | _, NaN => false
  | Inf true, Inf true => false
  | Inf true, _ => true
  | _, Inf true => false
  | Inf false, _ => false
  | Fin _, Inf false => true
  | Fin x, Fin y => Qlt_bool x y
  end.

(** [a === b] *)
Definition eq (a b : number) : bool :=
  match a, b with
  | Fin x, Fin y => Qeq_bool x y
  | Inf s, Inf t => Bool.eqb s t
  | _, _ => false
  end.

(** [a <= b] *)
Definition le (a b : number) : bool := lt a b || eq a b.

(** [a > b] *)
Definition gt (a b : number) : bool := lt b a.

Definition isNaN (a : number) : bool :=
  match a with NaN => true | _ => false end.

(** [-a] *)
Definition neg (a : number) : number :=
  match a with
  | NaN => NaN
  | Inf s => Inf (negb s)
  | Fin x => Fin (- x)
  end.

(** [a + b] *)
Definition add (a b : number) : number :=
  match a, b with
  | NaN, _ | _, NaN => NaN
  | Inf s, Inf t => if Bool.eqb s t then Inf s else NaN
  | Inf s, Fin _ | Fin _, Inf s => Inf s
  | Fin x, Fin y => Fin (x + y)
  end.

(** [Math.max(a, b)] *)
Definition max (a b : number) : number :=
  match a, b with
  | NaN, _ | _, NaN => NaN
  | _, _ => if lt a b then b else a
  end.

(** Truthiness of a number: every number but 0 and NaN. *)
Definition truthy (a : number) : bool :=
  match a with
  | NaN => false
  | Inf _ => true
  | Fin x => negb (Qeq_bool x 0)
  end.

(** The value a decimal literal denotes, brought into the range of a double:
    a magnitude of at most 2^-1075 rounds to zero and one of at least
    2^1024 - 2^970 to an infinity; any other value is kept as it is. *)
Definition to_double (q : Q) : number :=
  let a := Qabs q in
  if Qle_bool a (1 # (2 ^ 1075)) then Fin 0
  else if Qle_bool (inject_Z (2 ^ 1024 - 2 ^ 970)) a then Inf (Qlt_bool q 0)
  else Fin (Qred q).

(** [ExponentPart] at the head of [s], if there is one: the exponent and
    the text left over. *)
Definition parseExponent (s : string) : Z * string :=
  match s with
  | String c r =>
      if Ascii.eqb (Str.lowerChar c) "e" then
        let '(sgn, r1) :=
          match r with
          | String "+" r' => (1, r')
          | String "-" r' => (-1, r')
          | _ => (1, r)
          end in
        let '(ds, r2) := Str.span Str.isDigit r1 in
        if Str.isEmpty ds then (0, s) else (sgn * Str.digitsVal ds, r2)
      else (0, s)
  | EmptyString => (0, s)
  end.

(** [StrUnsignedDecimalLiteral], longest prefix: [Infinity], or digits
    with an optional fraction and an optional exponent.  Returns the value
    and the text left over. *)
Definition parseUnsignedDecimal (s : string) : option (number * string) :=
  match Str.stripPrefix "Infinity" s with
  | Some r => Some (Inf false, r)
  | None =>
      let '(ip, r1) := Str.span Str.isDigit s in
      let '(fp, r2) :=
        match r1 with
        | String "." r' => Str.span Str.isDigit r'
        | _ => (EmptyString, r1)
        end in
      if Str.isEmpty ip && Str.isEmpty fp then None
      else
        let '(e, r3) := parseExponent r2 in
        let m := Str.digitsVal (ip ++ fp) in
        let e' := e - Z.of_nat (String.length fp) in
        Some (to_double (inject_Z m * Qpower (10 # 1) e'), r3)
  end.

(** [StrDecimalLiteral], longest prefix: an optional sign and an unsigned
    literal. *)
Definition parseDecimal (s : string) : option (number * string) :=
  match s with
  | String "-" r =>
      match parseUnsignedDecimal r with
      | Some (v, rest) => Some (neg v, rest)
      | None => None
      end
  | String "+" r => parseUnsignedDecimal r
  | _ => parseUnsignedDecimal s
  end.

(** [parseFloat(s)] *)
Definition parseFloat (s : string) : number :=
  match parseDecimal (Str.trimStart s) with
  | Some (v, _) => v
  | None => NaN
  end.

(** Digits of [0x], [0o] and [0b] literals. *)
Definition hexVal (c : ascii) : option Z :=
  let n := Str.code (Str.lowerChar c) in
  if Str.isDigit c then Some (n - 48)
  else if (97 <=? n) && (n <=? 102) then Some (n - 87)
  else None.

Fixpoint radixValAcc (radix acc : Z) (s : string) : option Z :=
  match s with
  | EmptyString => Some acc
  | String c r =>
      match hexVal c with
      | Some d => if d <? radix then radixValAcc radix (radix * acc + d) r else None
      | None => None
      end
  end.

Definition parseNonDecimal (s : string) : option number :=
  match s with
  | String "0" (String x (String c r)) =>
      let radix :=
        if Ascii.eqb (Str.lowerChar x) "x" then Some 16
        else if Ascii.eqb (Str.lowerChar x) "o" then Some 8
        else if Ascii.eqb (Str.lowerChar x) "b" then Some 2
        else None in
      match radix with
      | Some k =>
          match radixValAcc k 0 (String c r) with
          | Some v => Some (to_double (inject_Z v))
          | None => None
          end
      | None => None
      end
  | _ => None
  end.

(** [Number(s)] for a string [s] (the abstract operation StringToNumber):
    blank text is 0, a whole decimal or non-decimal literal is its value,
    anything else is NaN. *)
Definition ofString (s : string) : number :=
  let t := Str.trim s in
  if Str.isEmpty t then Fin 0
  else
    match parseDecimal t with
    | Some (v, EmptyString) => v
    | _ =>
        match parseNonDecimal t with
        | Some v => v
        | None => NaN
        end
    end.

(** [Number.MAX_SAFE_INTEGER], 2^53 - 1.  Every integer up to this
    magnitude is a double, and a sum or difference of such integers that
    stays within it is computed without rounding. *)
Definition maxSafeInteger : Z := 9007199254740991.

(** The double nearest to the integer [n], ties going to the even
    mantissa: what an addition of doubles returns when the exact sum is
    [n].  An integer of at most 53 bits is kept as it is; a longer one
    loses its low bits.  (No sum of a double and 1 is large enough to
    round to an infinity.) *)
Definition roundInt (n : Z) : Z :=
  let a := Z.abs n in
  let e := Z.log2 a - 52 in
  if e <=? 0 then n
  else
    let u := 2 ^ e in
    let m := a / u in
    let r := a mod u in
    let m' := if 2 * r <? u then m
              else if u <? 2 * r then m + 1
              else if Z.even m then m else m + 1 in
    Z.sgn n * (m' * u).

End Num.

(** A number is not negative: [a < 0] is false.  NaN is not negative. *)
Definition notNegative (a : number) : Prop := Num.lt a Num.zero = false.

(** A value whose type is fixed only at run time. *)
Inductive jsval : Type :=
  | JUndefined
  | JNumber (n : number)
  | JString (s : string).

(** [ToNumber] *)
Definition toNumber (v : jsval) : number :=
  match v with
  | JUndefined => NaN
  | JNumber n => n
  | JString s => Num.ofString s
  end.

(** ** Location codec (utils/helpers, components/LocationPicker) *)

(** Leftmost match of an unanchored pattern: [m] is tried at every
    position from the left. *)
Fixpoint search {A : Type} (m : string -> option A) (s : string) : option A :=
  match m s with
  | Some a => Some a
  | None =>
      match s with
      | EmptyString => None
      | String _ r => search m r
      end
  end.

(** [(\d+)] at the head of [s]: the digits and the text after them. *)
Definition digits1 (s : string) : option (string * string) :=
  let '(ds, r) := Str.span Str.isDigit s in
  if Str.isEmpty ds then None else Some (ds, r).

(** [tag(\d+)] with the [i] flag at the head of [s]. *)
Definition tagged (tag s : string) : option (string * string) :=
  r ← Str.stripPrefixCI tag s; digits1 r.

(** One character of the class [p] at the head of [s]. *)
Definition oneOf (p : ascii -> bool) (s : string) : option string :=
  match s with
  | String c r => if p c then Some r else None
  | EmptyString => None
  end.

(** [cab(\d+)SEProw(\d+)SEPcol(\d+)] with the [i] flag at the head of [s],
    for a one-character separator class. *)
Definition cabRowCol (sep : ascii -> bool) (s : string)
  : option (string * string * string) :=
  '(c, r1) ← tagged "cab" s;
  r2 ← oneOf sep r1;
  '(r, r3) ← tagged "row" r2;
  r4 ← oneOf sep r3;
  '(k, _) ← tagged "col" r4;
  Some (c, r, k).

Definition isDash (c : ascii) : bool := Ascii.eqb c "-".

(** The longest suffix made of digits only: what [/(\d+)$/] captures. *)
Fixpoint trailingDigits (s : string) : string :=
  match s with
  | EmptyString => EmptyString
  | String c r => if Str.isDigit c && Str.all Str.isDigit r then s
                  else trailingDigits r
  end.

Definition extractLocationNumber (str : string) : string :=
  let m := trailingDigits str in
  if Str.isEmpty m then str else m.

Record ParsedLocation : Type := {
  cabinet : string;
  row : string;
  col : string;
}.

(** The argument of [parseLocation]: [string | string[]]. *)
Inductive locationData : Type :=
  | LocString (s : string)
  | LocArray (a : list string).

Definition orDash (m : option (string * string)) : string :=
  match m with Some (d, _) => d | None => "-" end.

Definition parseLocation (locationData : locationData) : option ParsedLocation :=
  match locationData with
  | LocArray [a; b; c] =>
      Some {| cabinet := extractLocationNumber a;
              row := extractLocationNumber b;
              col := extractLocationNumber c |}
  | _ =>
      let str :=
        match locationData with
        | LocArray a => head a
        | LocString s => Some s
        end in
      match str with
      | None | Some EmptyString => None
      | Some str =>
          match search (cabRowCol isDash) str with
          | Some (c, r, k) => Some {| cabinet := c; row := r; col := k |}
          | None =>
              let cabMatch := search (tagged "cab") str in
              let rowMatch := search (tagged "row") str in
              let colMatch := search (tagged "col") str in
              if bool_decide (is_Some cabMatch) || bool_decide (is_Some rowMatch)
                 || bool_decide (is_Some colMatch)
              then Some {| cabinet := orDash cabMatch;
                           row := orDash rowMatch;
                           col := orDash colMatch |}
              else None
          end
      end
  end.

(** The coordinates are integers (the picker passes what [parseInt] made
    of an option's value); a template literal prints an integer up to
    [Num.maxSafeInteger] as its decimal text. *)
Definition buildLocationArray (cabinet row col : Z) : list string :=
  ["cab" ++ Str.ofZ cabinet; "row" ++ Str.ofZ row; "col" ++ Str.ofZ col].

Definition getLocationDisplay (locationData : locationData) : option ParsedLocation :=
  parseLocation locationData.

(** [LocationPicker.handleAdd]: the array handed to [onLocationAdd], or
    [None] when the callback is not invoked. *)
Definition handleAdd (existingLocations : list (list string)) (cabinet row col : Z)
  : option (list string) :=
  let locationArr := buildLocationArray cabinet row col in
  let key := Str.join "-" locationArr in
  let isDuplicate :=
    existsb (fun loc => String.eqb (Str.join "-" loc) key) existingLocations in
  if isDuplicate then None else Some locationArr.

(** The options of the three [select] elements of the picker. *)
Definition cabinetOptions : list Z := [1; 2; 3; 4; 5].
Definition rowOptions : list Z := [1; 2; 3; 4; 5; 6].
Definition colOptions : list Z := [1; 2; 3; 4].

(** The bounds of the storage grid. *)
Definition inBounds (cabinet row col : Z) : Prop :=
  1 <= cabinet <= 5 /\ 1 <= row <= 6 /\ 1 <= col <= 4.

(** An integer that is a safe integer and not negative. *)
Definition safeCount (n : Z) : Prop := 0 <= n <= Num.maxSafeInteger.

(** A safe integer, of either sign. *)
Definition safeInteger (n : Z) : Prop := - Num.maxSafeInteger <= n <= Num.maxSafeInteger.

(** ** Documents and the database (types/item, Firestore) *)

(** An element of the [location] array of an item.  The type says
    [string]; the item forms and the importer put a three-element array
    there, through [any]. *)
Inductive locationEntry : Type :=
  | LocText (s : string)
  | LocTuple (a : list string).

Definition isTuple (e : locationEntry) : bool :=
  match e with LocTuple _ => true | LocText _ => false end.

(** The array holds an array: a value Firestore does not store. *)
Definition hasNestedArray (location : list locationEntry) : bool :=
  existsb isTuple location.

Record ItemLocation : Type := {
  il_cabinet : number;
  il_row : number;
  il_col : number;
}.

(** The fields of a document of the [items] collection.  A field that the
    code reads with [??], [||] or [!== undefined] is optional. *)
Record ItemData : Type := {
  i_name : string;
  i_quantity : option number;
  i_on_hand : option number;
  i_count_date : string;
  i_count_person : string;
  i_delivery_date : string;
  i_location : list locationEntry;
  i_locations : option (list ItemLocation);
  i_supplier : string;
  i_supplier_url : option string;
  i_retail_price : option number;
  i_description : string;
}.

Record Item : Type := {
  id : string;
  data : ItemData;
}.

(** [ItemDraft] as [createItem] treats it: every string may be missing, and
    the numeric fields hold whatever the caller put there. *)
Record ItemDraft : Type := {
  d_name : option string;
  d_quantity : jsval;
  d_on_hand : jsval;
  d_count_date : option string;
  d_count_person : option string;
  d_delivery_date : option string;
  d_location : option (list locationEntry);
  d_locations : option (list ItemLocation);
  d_supplier : option string;
  d_supplier_url : option string;
  d_retail_price : jsval;
  d_description : option string;
}.

(** [ItemPatch = Partial<Omit<Item, 'id'>>] *)
Record ItemPatch : Type := {
  p_name : option string;
  p_quantity : option number;
  p_on_hand : option number;
  p_count_date : option string;
  p_count_person : option string;
  p_delivery_date : option string;
  p_location : option (list locationEntry);
  p_locations : option (list ItemLocation);
  p_supplier : option string;
  p_supplier_url : option string;
  p_retail_price : option number;
  p_description : option string;
}.

(** A document of [users/<uid>/checkedOutItems]. *)
Record CheckedOutItem : Type := {
  c_itemId : string;
  c_qty : option number;
  c_updatedAt : Z;
}.

(** The document [metadata/count]. *)
Record CountDoc : Type := {
  count : option Z;
}.

Record store : Type := {
  items : gmap string ItemData;
  checkedOutItems : gmap (string * string) CheckedOutItem;
  metadataCount : option CountDoc;
}.

Definition emptyStore : store :=
  {| items := ∅; checkedOutItems := ∅; metadataCount := None |}.

Definition withItems (f : gmap string ItemData -> gmap string ItemData) (db : store) : store :=
  {| items := f (items db);
     checkedOutItems := checkedOutItems db;
     metadataCount := metadataCount db |}.

Definition withCheckedOut
  (f : gmap (string * string) CheckedOutItem -> gmap (string * string) CheckedOutItem)
  (db : store) : store :=
  {| items := items db;
     checkedOutItems := f (checkedOutItems db);
     metadataCount := metadataCount db |}.

Definition withCount (c : option CountDoc) (db : store) : store :=
  {| items := items db;
     checkedOutItems := checkedOutItems db;
     metadataCount := c |}.

Definition setOnHand (v : option number) (d : ItemData) : ItemData :=
  {| i_name := i_name d; i_quantity := i_quantity d; i_on_hand := v;
     i_count_date := i_count_date d; i_count_person := i_count_person d;
     i_delivery_date := i_delivery_date d; i_location := i_location d;
     i_locations := i_locations d; i_supplier := i_supplier d;
     i_supplier_url := i_supplier_url d; i_retail_price := i_retail_price d;
     i_description := i_description d |}.

Definition setQty (v : option number) (t : Z) (d : CheckedOutItem) : CheckedOutItem :=
  {| c_itemId := c_itemId d; c_qty := v; c_updatedAt := t |}.

(** ** Errors *)

Inductive docRef : Type :=
  | ItemRef (itemId : string)
  | CheckedOutRef (uid itemId : string)
  | CountRef.

Inductive error : Type :=
  | QuantityNotPositive                      (* Quantity must be greater than 0 *)
  | ItemNotFound                             (* Item not found *)
  | InsufficientStock (currentOnHand : number)
                                             (* Only <currentOnHand> available in stock *)
  | ReturnQuantityNotPositive                (* Return quantity must be greater than 0 *)
  | NoCheckedOutRecord                       (* No checked-out record found for this item *)
  | ExcessReturn (qty currentQty : number)   (* Cannot return <qty> items. Only <currentQty> checked out. *)
  | NameRequired                             (* Item name is required *)
  | NameEmpty                                (* Item name cannot be empty *)
  | NoDocumentToUpdate (ref : docRef)        (* Firestore: update of a missing document *)
  | NestedArrays                             (* Firestore: Nested arrays are not supported *)
  | FailedToCreate (cause : error)           (* Failed to create item: <cause> *)
  | FailedToUpdate (cause : error).          (* Failed to update item: <cause> *)

Inductive result (A : Type) : Type :=
  | Ok (a : A)
  | Err (e : error).
Arguments Ok {A} a.
Arguments Err {A} e.

Definition isErr {A : Type} (r : result A) : bool :=
  match r with Err _ => true | Ok _ => false end.

(** ** Firestore transactions

    The body of [runTransaction] reads the database as it was when the
    transaction began and buffers its writes; they are applied together
    when the body returns, and not at all when it throws or when one of
    them cannot be applied. *)

(** [increment(delta)] on a numeric field: the sum, or [delta] itself when
    the field is missing. *)
Definition increment (delta : number) (field : option number) : option number :=
  match field with
  | Some v => Some (Num.add v delta)
  | None => Some delta
  end.

Inductive write : Type :=
  | SetCheckedOut (uid itemId : string) (d : CheckedOutItem)
      (* transaction.set(checkedOutRef, d) *)
  | UpdateCheckedOut (uid itemId : string) (delta : number) (updatedAt : Z)
      (* transaction.update(checkedOutRef, {qty: increment(delta), updatedAt}) *)
  | DeleteCheckedOut (uid itemId : string)
      (* transaction.delete(checkedOutRef) *)
  | UpdateItemOnHand (itemId : string) (delta : number)
      (* transaction.update(itemRef, {on_hand: increment(delta)}) *)
  | SetCount (next : Z).
      (* transaction.set(countRef, {count: next}, {merge: true}) *)

Definition applyWrite (w : write) (db : store) : result store :=
  match w with
  | SetCheckedOut uid itemId d =>
      Ok (withCheckedOut (insert (uid, itemId) d) db)
  | UpdateCheckedOut uid itemId delta t =>
      match checkedOutItems db !! (uid, itemId) with
      | Some d =>
          Ok (withCheckedOut (insert (uid, itemId) (setQty (increment delta (c_qty d)) t d)) db)
      | None => Err (NoDocumentToUpdate (CheckedOutRef uid itemId))
      end
  | DeleteCheckedOut uid itemId =>
      Ok (withCheckedOut (delete (uid, itemId)) db)
  | UpdateItemOnHand itemId delta =>
      match items db !! itemId with
      | Some d =>
          Ok (withItems (insert itemId (setOnHand (increment delta (i_on_hand d)) d)) db)
      | None => Err (NoDocumentToUpdate (ItemRef itemId))
      end
  | SetCount next =>
      Ok (withCount (Some {| count := Some next |}) db)
  end.

Fixpoint commit (ws : list write) (db : store) : result store :=
  match ws with
  | [] => Ok db
  | w :: ws' =>
      match applyWrite w db with
      | Ok db' => commit ws' db'
      | Err e => Err e
      end
  end.

(** A transaction body: from the snapshot and the writes buffered so far to
    an outcome and the writes buffered then. *)
Definition tx (A : Type) : Type := store -> list write -> result A * list write.

Definition txRet {A : Type} (a : A) : tx A := fun _ ws => (Ok a, ws).

Definition txBind {A B : Type} (m : tx A) (f : A -> tx B) : tx B :=
  fun snap ws =>
    match m snap ws with
    | (Ok a, ws') => f a snap ws'
    | (Err e, ws') => (Err e, ws')
    end.

Definition throw {A : Type} (e : error) : tx A := fun _ ws => (Err e, ws).

Definition txRead {A : Type} (f : store -> A) : tx A := fun snap ws => (Ok (f snap), ws).

Definition txWrite (w : write) : tx unit := fun _ ws => (Ok tt, (ws ++ [w])%list).

#[global] Instance tx_ret : MRet tx := @txRet.
#[global] Instance tx_bind : MBind tx := fun A B f m => txBind m f.

(** [runTransaction(db, body)]: the outcome and the database afterwards. *)
Definition runTransaction {A : Type} (body : tx A) (db : store) : result A * store :=
  match body db [] with
  | (Ok a, ws) =>
      match commit ws db with
      | Ok db' => (Ok a, db')
      | Err e => (Err e, db)
      end
  | (Err e, _) => (Err e, db)
  end.

(** The writes a transaction body had issued when it returned or threw. *)
Definition issuedWrites {A : Type} (body : tx A) (db : store) : list write :=
  snd (body db []).

(** ** Checkout and return (services/checkoutService, services/returnService) *)

(** The function [checkoutItem] hands to [runTransaction]. *)
Definition checkoutBody (uid itemId : string) (qty : number) (now : Z) : tx unit :=
  itemDoc ← txRead (fun snap => items snap !! itemId);
  match itemDoc with
  | None => throw ItemNotFound
  | Some itemData =>
      let currentOnHand := default Num.zero (i_on_hand itemData) in
      if Num.lt currentOnHand qty then throw (InsufficientStock currentOnHand)
      else
        checkedOutDoc ← txRead (fun snap => checkedOutItems snap !! (uid, itemId));
        match checkedOutDoc with
        | Some _ => txWrite (UpdateCheckedOut uid itemId qty now)
        | None =>
            txWrite (SetCheckedOut uid itemId
                       {| c_itemId := itemId; c_qty := Some qty; c_updatedAt := now |})
        end;;
        txWrite (UpdateItemOnHand itemId (Num.neg qty))
  end.

(** [checkoutItem(uid, itemId, qty)]; [now] is the time the store stamps
    the ledger entry with. *)
Definition checkoutItem (uid itemId : string) (qty : number) (now : Z) (db : store)
  : result unit * store :=
  if Num.le qty Num.zero then (Err QuantityNotPositive, db)
  else runTransaction (checkoutBody uid itemId qty now) db.

(** [x || 0] on an optional number. *)
Definition orZero (x : option number) : number :=
  match x with
  | Some v => if Num.truthy v then v else Num.zero
  | None => Num.zero
  end.

(** The function [returnItem] hands to [runTransaction]. *)
Definition returnBody (uid itemId : string) (qty : number) (now : Z) : tx unit :=
  checkedOutDoc ← txRead (fun snap => checkedOutItems snap !! (uid, itemId));
  match checkedOutDoc with
  | None => throw NoCheckedOutRecord
  | Some checkedOutData =>
      let currentQty := orZero (c_qty checkedOutData) in
      if Num.gt qty currentQty then throw (ExcessReturn qty currentQty)
      else
        (if Num.eq qty currentQty
         then txWrite (DeleteCheckedOut uid itemId)
         else txWrite (UpdateCheckedOut uid itemId (Num.neg qty) now));;
        txWrite (UpdateItemOnHand itemId qty)
  end.

(** [returnItem(uid, itemId, qty)]; [now] is [new Date()]. *)
Definition returnItem (uid itemId : string) (qty : number) (now : Z) (db : store)
  : result unit * store :=
  if Num.le qty Num.zero then (Err ReturnQuantityNotPositive, db)
  else runTransaction (returnBody uid itemId qty now) db.

(** ** Item repository (services/itemsRepository) *)

(** The function [getNextItemCount] hands to [runTransaction].  The counter
    is an integer-valued double, and [current + 1] an addition of doubles. *)
Definition countBody : tx Z :=
  countSnap ← txRead metadataCount;
  let current :=
    match countSnap with
    | Some d => default 0 (count d)
    | None => 0
    end in
  let next := Num.roundInt (current + 1) in
  txWrite (SetCount next);;
  mret next.

Definition getNextItemCount (db : store) : result Z * store :=
  runTransaction countBody db.

(** [cleaned + count]: the count is printed as [String(count)] prints it,
    which for a count up to [Num.maxSafeInteger] is its decimal text. *)
Definition buildItemDocId (name : string) (count : Z) : string :=
  Str.stripNonAlnum (Str.toLowerCase name) ++ Str.ofZ count.

(** [s || ''] on an optional string. *)
Definition orEmpty (s : option string) : string := default "" s.

(** [v !== undefined ? Math.max(0, v) : undefined] *)
Definition clamp (v : jsval) : option number :=
  match v with
  | JUndefined => None
  | _ => Some (Num.max Num.zero (toNumber v))
  end.

(** [!name?.trim()] *)
Definition isBlank (name : option string) : bool :=
  match name with
  | Some s => Str.isEmpty (Str.trim s)
  | None => true
  end.

(** [validatedDraft] of [createItem]; the name is there when this is
    computed. *)
Definition validateDraft (itemDraft : ItemDraft) : ItemData :=
  {| i_name := Str.trim (orEmpty (d_name itemDraft));
     i_on_hand := clamp (d_on_hand itemDraft);
     i_quantity := clamp (d_quantity itemDraft);
     i_retail_price := clamp (d_retail_price itemDraft);
     i_location := default [] (d_location itemDraft);
     i_count_date := orEmpty (d_count_date itemDraft);
     i_count_person := orEmpty (d_count_person itemDraft);
     i_delivery_date := orEmpty (d_delivery_date itemDraft);
     i_supplier := orEmpty (d_supplier itemDraft);
     i_description := orEmpty (d_description itemDraft);
     i_supplier_url := d_supplier_url itemDraft;
     i_locations := d_locations itemDraft |}.

(** [setDoc(doc(db, 'items', docId), data)]: the document is written
    whole, unless its data is of a kind the store refuses. *)
Definition setDoc (docId : string) (d : ItemData) (db : store) : result store :=
  if hasNestedArray (i_location d) then Err NestedArrays
  else Ok (withItems (insert docId d) db).

(** [createItem(itemDraft)].  The counter transaction has committed when
    [setDoc] is called: a write that fails leaves the counter advanced. *)
Definition createItem (itemDraft : ItemDraft) (db : store) : result Item * store :=
  if isBlank (d_name itemDraft) then (Err (FailedToCreate NameRequired), db)
  else
    let validatedDraft := validateDraft itemDraft in
    match getNextItemCount db with
    | (Err e, db1) => (Err (FailedToCreate e), db1)
    | (Ok nextCount, db1) =>
        let docId := buildItemDocId (i_name validatedDraft) nextCount in
        match setDoc docId validatedDraft db1 with
        | Ok db2 => (Ok {| id := docId; data := validatedDraft |}, db2)
        | Err e => (Err (FailedToCreate e), db1)
        end
    end.

Definition clampNum (v : option number) : option number :=
  match v with
  | Some n => Some (Num.max Num.zero n)
  | None => None
  end.

(** [updateDoc(docRef, validatedPatch)] on an existing document: every field
    the patch carries replaces the stored one. *)
Definition applyPatch (validatedPatch : ItemPatch) (d : ItemData) : ItemData :=
  {| i_name := default (i_name d) (p_name validatedPatch);
     i_quantity := from_option Some (i_quantity d) (p_quantity validatedPatch);
     i_on_hand := from_option Some (i_on_hand d) (p_on_hand validatedPatch);
     i_count_date := default (i_count_date d) (p_count_date validatedPatch);
     i_count_person := default (i_count_person d) (p_count_person validatedPatch);
     i_delivery_date := default (i_delivery_date d) (p_delivery_date validatedPatch);
     i_location := default (i_location d) (p_location validatedPatch);
     i_locations := from_option Some (i_locations d) (p_locations validatedPatch);
     i_supplier := default (i_supplier d) (p_supplier validatedPatch);
     i_supplier_url := from_option Some (i_supplier_url d) (p_supplier_url validatedPatch);
     i_retail_price := from_option Some (i_retail_price d) (p_retail_price validatedPatch);
     i_description := default (i_description d) (p_description validatedPatch) |}.

Definition validatePatch (patch : ItemPatch) : ItemPatch :=
  {| p_name := p_name patch;
     p_quantity := clampNum (p_quantity patch);
     p_on_hand := clampNum (p_on_hand patch);
     p_count_date := p_count_date patch;
     p_count_person := p_count_person patch;
     p_delivery_date := p_delivery_date patch;
     p_location := p_location patch;
     p_locations := p_locations patch;
     p_supplier := p_supplier patch;
     p_supplier_url := p_supplier_url patch;
     p_retail_price := clampNum (p_retail_price patch);
     p_description := p_description patch |}.

(** [updateDoc(doc(db, 'items', id), validatedPatch)]: the data is checked
    before anything is sent, and the document has to exist. *)
Definition updateDoc (id : string) (validatedPatch : ItemPatch) (db : store)
  : result store :=
  if hasNestedArray (default [] (p_location validatedPatch)) then Err NestedArrays
  else
    match items db !! id with
    | Some d => Ok (withItems (insert id (applyPatch validatedPatch d)) db)
    | None => Err (NoDocumentToUpdate (ItemRef id))
    end.

Definition updateItem (id : string) (patch : ItemPatch) (db : store) : result unit * store :=
  let nameEmpty :=
    match p_name patch with
    | Some n => Str.isEmpty (Str.trim n)
    | None => false
    end in
  if nameEmpty then (Err (FailedToUpdate NameEmpty), db)
  else
    let validatedPatch := validatePatch patch in
    match updateDoc id validatedPatch db with
    | Ok db' => (Ok tt, db')
    | Err e => (Err (FailedToUpdate e), db)
    end.

Definition deleteItem (id : string) (db : store) : result unit * store :=
  (Ok tt, withItems (delete id) db).

(** ** Bulk import (components/CSVImportModal) *)

(** A row object: header name to cell text. *)
Abbreviation CsvRow := (gmap string string).

Record ParsedRow : Type := {
  draft : ItemDraft;
  locationArr : list (list string);
}.

Record CSVError : Type := {
  row_number : Z;
  row_errors : list string;
  row_data : CsvRow;
}.

Record Validation : Type := {
  valid : bool;
  errors : list string;
  parsed : option ParsedRow;
}.

Definition isDashOrComma (c : ascii) : bool := Ascii.eqb c "-" || Ascii.eqb c ",".
Definition isCommaOrSpace (c : ascii) : bool := Ascii.eqb c "," || Str.isSpace c.

(** [[,\s]+] at the head of [s]: the text after the separators. *)
Definition seps1 (s : string) : option string :=
  let '(sp, r) := Str.span isCommaOrSpace s in
  if Str.isEmpty sp then None else Some r.

(** [^(\d+)[,\s]+(\d+)[,\s]+(\d+)$] *)
Definition threeNumbers (s : string) : option (string * string * string) :=
  '(a, r1) ← digits1 s;
  r2 ← seps1 r1;
  '(b, r3) ← digits1 r2;
  r4 ← seps1 r3;
  '(c, r5) ← digits1 r4;
  if Str.isEmpty r5 then Some (a, b, c) else None.

Definition tagTriple (t : string * string * string) : list string :=
  let '(a, b, c) := t in ["cab" ++ a; "row" ++ b; "col" ++ c].

Definition parseLocationFromCSV (locStr : string) : option (list string) :=
  match search (cabRowCol isDashOrComma) locStr with
  | Some dashMatch => Some (tagTriple dashMatch)
  | None =>
      match threeNumbers (Str.trim locStr) with
      | Some numsMatch => Some (tagTriple numsMatch)
      | None => None
      end
  end.

(** [parseNumber] of [validateRow] *)
Definition parseNumber (value : option string) : option number :=
  match value with
  | None | Some EmptyString => None
  | Some v =>
      let num := Num.parseFloat (Str.trim v) in
      if Num.isNaN num then None else Some num
  end.

(** [cell && cell.toString().trim() !== ''] *)
Definition filled (cell : option string) : bool :=
  match cell with
  | Some v => Str.truthy v && negb (Str.isEmpty (Str.trim v))
  | None => false
  end.

(** [parsed === undefined || parsed < 0] *)
Definition rejected (parsed : option number) : bool :=
  match parsed with
  | None => true
  | Some n => Num.lt n Num.zero
  end.

Definition numField (n : option number) : jsval :=
  match n with Some v => JNumber v | None => JUndefined end.

(** [cell?.trim() || ''] *)
Definition trimmedOrEmpty (cell : option string) : string :=
  match cell with Some v => Str.trim v | None => "" end.

Definition parseLocations (cell : option string) : list (list string) :=
  match cell with
  | None | Some EmptyString => []
  | Some v =>
      let parts := filter (fun s => Str.truthy s = true) (map Str.trim (Str.split ";" v)) in
      omap parseLocationFromCSV parts
  end.

Definition pushIf (c : bool) (msg : string) (errors : list string) : list string :=
  if c then (errors ++ [msg])%list else errors.

(** [validateRow(row, rowIndex)]; the row index only labels the warning
    printed for a location that does not parse. *)
Definition validateRow (row : CsvRow) (rowIndex : Z) : Validation :=
  let errors := pushIf (negb (filled (row !! "name"))) "Name is required" [] in
  let locationArrays := parseLocations (row !! "location") in
  let on_hand := parseNumber (row !! "on_hand") in
  let quantity := parseNumber (row !! "quantity") in
  let retail_price := parseNumber (row !! "retail_price") in
  let draft :=
    {| d_name := Some (trimmedOrEmpty (row !! "name"));
       d_description := Some (trimmedOrEmpty (row !! "description"));
       d_supplier := Some (trimmedOrEmpty (row !! "supplier"));
       d_location := Some (map LocTuple locationArrays);
       d_count_date := Some (trimmedOrEmpty (row !! "count_date"));
       d_count_person := Some (trimmedOrEmpty (row !! "count_person"));
       d_delivery_date := Some (trimmedOrEmpty (row !! "delivery_date"));
       d_on_hand := numField on_hand;
       d_quantity := numField quantity;
       d_retail_price := numField retail_price;
       d_supplier_url := None;
       d_locations := None |} in
  let errors :=
    pushIf (filled (row !! "on_hand") && rejected on_hand)
      "on_hand must be a positive number" errors in
  let errors :=
    pushIf (filled (row !! "quantity") && rejected quantity)
      "quantity must be a positive number" errors in
  let errors :=
    pushIf (filled (row !! "retail_price") && rejected retail_price)
      "retail_price must be a positive number" errors in
  {| valid := bool_decide (errors = []);
     errors := errors;
     parsed := if bool_decide (errors = [])
               then Some {| draft := draft; locationArr := locationArrays |}
               else None |}.

(** [\d{n}] at the head of [s]. *)
Fixpoint digitsN (n : nat) (s : string) : option (string * string) :=
  match n with
  | O => Some (EmptyString, s)
  | S n' =>
      match s with
      | String c r =>
          if Str.isDigit c then
            '(ds, rest) ← digitsN n' r; Some (String c ds, rest)
          else None
      | EmptyString => None
      end
  end.

(** [toStorageDateFormat]: YYYY-MM-DD becomes MM-DD-YYYY, any other text is
    returned as it is. *)
Definition toStorageDateFormat (dateStr : string) : string :=
  let m :=
    '(year, r1) ← digitsN 4 dateStr;
    r2 ← oneOf isDash r1;
    '(month, r3) ← digitsN 2 r2;
    r4 ← oneOf isDash r3;
    '(day, r5) ← digitsN 2 r4;
    if Str.isEmpty r5 then Some (year, month, day) else None in
  match m with
  | Some (year, month, day) => month ++ "-" ++ day ++ "-" ++ year
  | None => dateStr
  end.

Definition dquote : ascii := ascii_of_nat 34.
Definition newline : ascii := ascii_of_nat 10.

(** The cells of one line: commas separate, except between double quotes,
    and the quotes themselves are dropped. *)
Fixpoint splitCells (line current : string) (inQuotes : bool) : list string :=
  match line with
  | EmptyString => [Str.trim current]
  | String ch r =>
      if Ascii.eqb ch dquote then splitCells r current (negb inQuotes)
      else if Ascii.eqb ch "," && negb inQuotes
           then Str.trim current :: splitCells r EmptyString inQuotes
           else splitCells r (current ++ String ch EmptyString) inQuotes
  end.

(** [headers.forEach((header, index) => row[header] = values[index] || '')] *)
Fixpoint buildRow (headers values : list string) (row : CsvRow) : CsvRow :=
  match headers with
  | [] => row
  | header :: hs =>
      buildRow hs (tail values) (<[header := default "" (head values)]> row)
  end.

(** The loop of [parseCSV] over the row objects, the first of which is row
    [i + 1] of the file: the valid bucket and the error bucket. *)
Fixpoint classifyRows (i : Z) (rows : list CsvRow) : list ParsedRow * list CSVError :=
  match rows with
  | [] => ([], [])
  | row :: rest =>
      let validation := validateRow row (i + 1) in
      let '(validRows, errorRows) := classifyRows (i + 1) rest in
      match valid validation, parsed validation with
      | true, Some p => (p :: validRows, errorRows)
      | _, _ =>
          (validRows,
           {| row_number := i + 1; row_errors := errors validation; row_data := row |}
             :: errorRows)
      end
  end.

(** [parseCSV(csvText)]: the two buckets it stores, or [None] when the text
    has no data line and the buckets are left as they were. *)
Definition parseCSV (csvText : string) : option (list ParsedRow * list CSVError) :=
  let lines :=
    filter (fun line => Str.truthy (Str.trim line) = true) (Str.split newline csvText) in
  match lines with
  | header :: dataLine :: moreLines =>
      let headers := map (fun h => Str.toLowerCase (Str.trim h)) (Str.split "," header) in
      let rows := map (fun line => buildRow headers (splitCells line EmptyString false) ∅)
                      (dataLine :: moreLines) in
      Some (classifyRows 1 rows)
  | _ => None
  end.

(** [text || fallback] on a cell. *)
Definition cellOr (fallback : string) (cell : option string) : string :=
  match cell with
  | Some EmptyString | None => fallback
  | Some v => v
  end.

Definition rawCell (cell : option string) : jsval :=
  match cell with Some v => JString v | None => JUndefined end.

(** The draft [handleImportAll] makes of a row of the error bucket. *)
Definition errorAsParsed (err : CSVError) : ParsedRow :=
  let data := row_data err in
  {| draft :=
       {| d_name := Some (cellOr "Untitled Item" (data !! "name"));
          d_description := Some (cellOr "" (data !! "description"));
          d_supplier := Some (cellOr "" (data !! "supplier"));
          d_location := Some [];
          d_count_date := Some (cellOr "" (data !! "count_date"));
          d_count_person := Some (cellOr "" (data !! "count_person"));
          d_delivery_date := Some (cellOr "" (data !! "delivery_date"));
          d_on_hand := rawCell (data !! "on_hand");
          d_quantity := rawCell (data !! "quantity");
          d_retail_price := rawCell (data !! "retail_price");
          d_supplier_url := None;
          d_locations := None |};
     locationArr := [] |}.

Definition itemToCreate (row : ParsedRow) : ItemDraft :=
  let d := draft row in
  {| d_name := d_name d;
     d_quantity := d_quantity d;
     d_on_hand := d_on_hand d;
     d_count_date := Some (toStorageDateFormat (orEmpty (d_count_date d)));
     d_count_person := d_count_person d;
     d_delivery_date := Some (toStorageDateFormat (orEmpty (d_delivery_date d)));
     d_location := d_location d;
     d_locations := d_locations d;
     d_supplier := d_supplier d;
     d_supplier_url := d_supplier_url d;
     d_retail_price := d_retail_price d;
     d_description := d_description d |}.

(** [importRows(rows)]: the items created, in order, and the database
    afterwards; a row whose creation fails is skipped. *)
Fixpoint importRows (rows : list ParsedRow) (db : store) : list Item * store :=
  match rows with
  | [] => ([], db)
  | row :: rest =>
      match createItem (itemToCreate row) db with
      | (Ok item, db') => let '(done, db'') := importRows rest db' in (item :: done, db'')
      | (Err _, db') => importRows rest db'
      end
  end.


Definition handleImportAll (validRows : list ParsedRow) (errorRows : list CSVError)
  (db : store) : list Item * store :=
  importRows (validRows ++ map errorAsParsed errorRows) db.


(** ** The words of the specification *)

(** A name or a cell is blank: missing, empty, or white space only. *)
Definition blank (cell : option string) : Prop :=
  forall v, cell = Some v -> Str.all Str.isSpace v = true.




Definition numericFields : list string := ["on_hand"; "quantity"; "retail_price"].




(** A numeric field is clamped: absent when none is provided; when a
    number other than NaN is provided, that number if it is at least 0,
    and 0 if it is negative.  Nothing is said of NaN, nor of a text put
    where the type wants a number. *)
Definition clamped (given : jsval) (stored : option number) : Prop :=
  match given with
  | JUndefined => stored = None
  | JNumber n =>
      Num.isNaN n = false ->
      exists m,
        stored = Some m /\
        Num.le Num.zero m = true /\
        (Num.le Num.zero n = true -> Num.eq m n = true) /\
        (Num.lt n Num.zero = true -> m = Num.zero)
  | JString _ => True
  end.

(** Two item documents agree in every field but [on_hand]. *)
Definition sameButOnHand (d d' : ItemData) : Prop :=
  i_name d' = i_name d /\ i_quantity d' = i_quantity d /\
  i_count_date d' = i_count_date d /\ i_count_person d' = i_count_person d /\
  i_delivery_date d' = i_delivery_date d /\ i_location d' = i_location d /\
  i_locations d' = i_locations d /\ i_supplier d' = i_supplier d /\
  i_supplier_url d' = i_supplier_url d /\ i_retail_price d' = i_retail_price d /\
  i_description d' = i_description d.

(** The numeric field of a draft that a column of the file fills. *)
Definition numericField (field : string) (d : ItemDraft) : jsval :=
  if String.eqb field "on_hand" then d_on_hand d
  else if String.eqb field "quantity" then d_quantity d
  else d_retail_price d.


(** ** Histories of operations *)

Inductive operation : Type :=
  | Checkout (uid itemId : string) (qty : number) (now : Z)
  | Return (uid itemId : string) (qty : number) (now : Z)
  | Create (itemDraft : ItemDraft)
  | Update (id : string) (patch : ItemPatch)
  | Delete (id : string).

(** The database after an operation, whether it succeeded or failed. *)
Definition perform (o : operation) (db : store) : store :=
  match o with
  | Checkout uid itemId qty now => snd (checkoutItem uid itemId qty now db)
  | Return uid itemId qty now => snd (returnItem uid itemId qty now db)
  | Create itemDraft => snd (createItem itemDraft db)
  | Update id patch => snd (updateItem id patch db)
  | Delete id => snd (deleteItem id db)
  end.

(** Every committed state of a history: the initial database and the one
    after each operation. *)
Fixpoint committedStates (ops : list operation) (db : store) : list store :=
  db :: match ops with
        | [] => []
        | o :: rest => committedStates rest (perform o db)
        end.

(** The stock invariant: an on-hand quantity that is present is not
    negative. *)
Definition stockNotNegative (db : store) : Prop :=
  forall (id : string) (d : ItemData) (n : number),
    items db !! id = Some d -> i_on_hand d = Some n -> notNegative n.

(** The counter a call of the allocator reads: 0 when the document or the
    field is missing. *)
Definition currentCount (db : store) : Z :=
  match metadataCount db with
  | Some d => default 0 (count d)
  | None => 0
  end.

(** The counter, when present, is not negative. *)
Definition counterNotNegative (db : store) : Prop := 0 <= currentCount db.

(** The ledger after a successful checkout. *)
Definition ledgerAfterCheckout (uid itemId : string) (qty : number) (now : Z) (db : store)
  : gmap (string * string) CheckedOutItem :=
  match checkedOutItems db !! (uid, itemId) with
  | Some e => <[(uid, itemId) := setQty (increment qty (c_qty e)) now e]> (checkedOutItems db)
  | None =>
      <[(uid, itemId) := {| c_itemId := itemId; c_qty := Some qty; c_updatedAt := now |}]>
        (checkedOutItems db)
  end.

(** The ledger after a successful return of [qty] against entry [e]. *)
Definition ledgerAfterReturn (uid itemId : string) (qty : number) (now : Z) (db : store)
  (e : CheckedOutItem) : gmap (string * string) CheckedOutItem :=
  if Num.eq qty (orZero (c_qty e))
  then delete (uid, itemId) (checkedOutItems db)
  else <[(uid, itemId) := setQty (increment (Num.neg qty) (c_qty e)) now e]> (checkedOutItems db).

(** ** Sample data *)

Definition blankItem : ItemData :=
  {| i_name := "Bolt"; i_quantity := None; i_on_hand := None;
     i_count_date := ""; i_count_person := ""; i_delivery_date := "";
     i_location := []; i_locations := None; i_supplier := "";
     i_supplier_url := None; i_retail_price := None; i_description := "" |}.

(** A database with one item, ["bolt1"], holding [onHand] units. *)
Definition oneItemStore (onHand : option number) : store :=
  withItems (insert "bolt1" (setOnHand onHand blankItem)) emptyStore.

(** The database after user ["u1"] has checked 5 of 10 units out. *)
Definition sampleItem : ItemData := setOnHand (Some (Num.ofZ 5)) blankItem.

Definition sampleEntry : CheckedOutItem :=
  {| c_itemId := "bolt1"; c_qty := Some (Num.ofZ 5); c_updatedAt := 1 |}.

Definition checkedOutStore : store :=
  withCheckedOut (insert ("u1", "bolt1") sampleEntry) (oneItemStore (Some (Num.ofZ 5))).

(** A draft with a name, a NaN on-hand quantity, a quantity and a price,
    and no supplier URL. *)
Definition sampleDraft : ItemDraft :=
  {| d_name := Some "Red Valve"; d_quantity := JNumber (Num.ofZ 4);
     d_on_hand := JNumber NaN;
     d_count_date := Some ""; d_count_person := Some ""; d_delivery_date := Some "";
     d_location := Some []; d_locations := None; d_supplier := Some "";
     d_supplier_url := None; d_retail_price := JNumber (Fin (5 # 2));
     d_description := Some "" |}.

(** A draft with a name in white space, a negative on-hand quantity, a
    quantity, a price, a location in the flat form of the item type, and
    no supplier URL. *)
Definition plainDraft : ItemDraft :=
  {| d_name := Some "  Red Valve "; d_quantity := JNumber (Num.ofZ 4);
     d_on_hand := JNumber (Num.ofZ (-3));
     d_count_date := None; d_count_person := None; d_delivery_date := None;
     d_location := Some [LocText "cab1"; LocText "row2"; LocText "col3"];
     d_locations := None; d_supplier := None;
     d_supplier_url := None; d_retail_price := JNumber (Fin (5 # 2));
     d_description := None |}.

(** The draft the new-item form submits for the name Bolt and one picked
    location: the location list holds the picker's array. *)
Definition pickedDraft : ItemDraft :=
  {| d_name := Some "Bolt"; d_quantity := JUndefined; d_on_hand := JUndefined;
     d_count_date := Some ""; d_count_person := Some ""; d_delivery_date := Some "";
     d_location := Some [LocTuple ["cab1"; "row2"; "col3"]];
     d_locations := None; d_supplier := Some "";
     d_supplier_url := None; d_retail_price := JUndefined;
     d_description := Some "" |}.

(** A patch that changes nothing, and one that sets the on-hand quantity
    to NaN. *)
Definition emptyPatch : ItemPatch :=
  {| p_name := None; p_quantity := None; p_on_hand := None;
     p_count_date := None; p_count_person := None; p_delivery_date := None;
     p_location := None; p_locations := None; p_supplier := None;
     p_supplier_url := None; p_retail_price := None; p_description := None |}.

Definition nanPatch : ItemPatch :=
  {| p_name := None; p_quantity := None; p_on_hand := Some NaN;
     p_count_date := None; p_count_person := None; p_delivery_date := None;
     p_location := None; p_locations := None; p_supplier := None;
     p_supplier_url := None; p_retail_price := None; p_description := None |}.

(** A database whose counter stands at 2^53. *)
Definition saturatedStore : store :=
  withCount (Some {| count := Some (2 ^ 53) |}) emptyStore.

(** A database whose counter stands at 41. *)
Definition countedStore : store :=
  withCount (Some {| count := Some 41 |}) emptyStore.




(** A file with a row that has a negative on-hand quantity and a quantity
    that is no number, and a row without a name. *)
Definition rejectedCsv : string :=
  Str.join (String newline EmptyString)
    ["name,on_hand,quantity,retail_price"; "Bolt,-1,abc,2.5"; ",5,7,1"].

(** A file with one data line, whose on-hand cell is no number. *)
Definition unreadableStockCsv : string :=
  Str.join (String newline EmptyString) ["name,on_hand"; "Bolt,abc"].

(** ** More of utils/helpers: labels and dates *)

(** The separator of a label: a middle dot (U+00B7) between two spaces. *)
Definition labelSep : string :=
  String " " (String (ascii_of_nat 183) (String " " EmptyString)).

Definition formatLocationLabel (location : list string) : string :=
  match location with
  | [] => ""
  | _ =>
      match parseLocation (LocArray location) with
      | None => Str.join ", " location
      | Some parsed =>
          "Cab " ++ cabinet parsed ++ labelSep ++ "Row " ++ row parsed
          ++ labelSep ++ "Col " ++ col parsed
      end
  end.

(** [^(\d{a})-(\d{b})-(\d{c})$] *)
Definition dateParts (a b c : nat) (s : string) : option (string * string * string) :=
  '(x, r1) ← digitsN a s;
  r2 ← oneOf isDash r1;
  '(y, r3) ← digitsN b r2;
  r4 ← oneOf isDash r3;
  '(z, r5) ← digitsN c r4;
  if Str.isEmpty r5 then Some (x, y, z) else None.

(** [toInputDateFormat]: YYYY-MM-DD is returned as it is and MM-DD-YYYY
    becomes YYYY-MM-DD.  For any other text the code asks [new Date] and
    formats what it answers; [dateFallback] stands for that last branch
    (the formatted date, or the empty string). *)
Definition toInputDateFormat (dateFallback : string -> string) (dateStr : string) : string :=
  if Str.isEmpty dateStr then ""
  else if bool_decide (is_Some (dateParts 4 2 2 dateStr)) then dateStr
  else
    match dateParts 2 2 4 dateStr with
    | Some (month, day, year) => year ++ "-" ++ month ++ "-" ++ day
    | None => dateFallback dateStr
    end.

(** ** The location list of the item forms (components/NewItemModal,
    components/ItemDetailPanel) *)

(** The list after the picker's Add button: its callback appends the array
    it is handed. *)
Definition addLocation (locations : list (list string)) (cabinet row col : Z)
  : list (list string) :=
  match handleAdd locations cabinet row col with
  | Some locArr => (locations ++ [locArr])%list
  | None => locations
  end.

(** [removeLocation(index)] *)
Definition removeLocation (locations : list (list string)) (index : nat)
  : list (list string) :=
  omap (fun '(i, loc) => if Nat.eqb i index then None else Some loc)
       (imap (fun i loc => (i, loc)) locations).

(** ** Reading items (services/itemsRepository, services/profileService) *)

Definition getItem (itemId : string) (db : store) : option Item :=
  match items db !! itemId with
  | Some d => Some {| id := itemId; data := d |}
  | None => None
  end.

Definition getItemDetails (itemId : string) (db : store) : option Item :=
  match items db !! itemId with
  | Some d => Some {| id := itemId; data := d |}
  | None => None
  end.

(** The loop of [getItemsBatch], from index [i] on.  Each round fetches
    the slice [[i, i + concurrencyLimit)] and stores what it fetched;
    [fuel] bounds the number of rounds, and [None] is a loop that has not
    ended within it. *)
Fixpoint getItemsBatchLoop (fuel : nat) (itemIds : list string) (concurrencyLimit i : nat)
  (db : store) (results : gmap string (option Item)) : option (gmap string (option Item)) :=
  if (i <? length itemIds)%nat then
    match fuel with
    | O => None
    | S fuel' =>
        let batch := take concurrencyLimit (drop i itemIds) in
        let batchResults := map (fun id => getItemDetails id db) batch in
        let results' :=
          foldl (fun m '(id, r) => <[id := r]> m) results (zip batch batchResults) in
        getItemsBatchLoop fuel' itemIds concurrencyLimit (i + concurrencyLimit) db results'
    end
  else Some results.

Definition getItemsBatch (fuel : nat) (itemIds : list string) (concurrencyLimit : nat)
  (db : store) : option (gmap string (option Item)) :=
  getItemsBatchLoop fuel itemIds concurrencyLimit 0 db ∅.

(** ** Quantities on hand and in hand *)

(** The on-hand quantity of an item, when the item and the field exist. *)
Definition onHandOf (itemId : string) (db : store) : option number :=
  match items db !! itemId with
  | Some d => i_on_hand d
  | None => None
  end.

(** What a user holds of an item: the quantity of the ledger entry as
    [returnItem] reads it, 0 without an entry. *)
Definition heldBy (uid itemId : string) (db : store) : number :=
  match checkedOutItems db !! (uid, itemId) with
  | Some e => orZero (c_qty e)
  | None => Num.zero
  end.

(** No ledger entry holds a quantity that is 0 or less. *)
Definition ledgerPositive (db : store) : Prop :=
  forall (key : string * string) (e : CheckedOutItem) (q : number),
    checkedOutItems db !! key = Some e -> c_qty e = Some q ->
    Num.le q Num.zero = false.

(** [db'] differs from [db] at most in the on-hand quantity of item
    [itemId] and in the ledger entry of user [uid] for that item. *)
Definition touchesOnly (uid itemId : string) (db db' : store) : Prop :=
  metadataCount db' = metadataCount db /\
  (forall id, id <> itemId -> items db' !! id = items db !! id) /\
  (forall key, key <> (uid, itemId) ->
               checkedOutItems db' !! key = checkedOutItems db !! key) /\
  (items db' !! itemId = items db !! itemId \/
   exists d n, items db !! itemId = Some d /\
               items db' !! itemId = Some (setOnHand n d)).

(** A run of digits that is not empty. *)
Definition digitString (s : string) : Prop :=
  s <> EmptyString /\ Str.all Str.isDigit s = true.

(** A component of a decoded location: digits, or the placeholder. *)
Definition digitsOrDash (s : string) : Prop :=
  s = "-" \/ (s <> EmptyString /\ Str.all Str.isDigit s = true).

(** The lines of a file that are not blank. *)
Definition nonBlankLines (csvText : string) : list string :=
  filter (fun line => Str.truthy (Str.trim line) = true) (Str.split newline csvText).






(** The text [b] does not go on with a character of the class [p]. *)
Definition stops (p : ascii -> bool) (b : string) : Prop :=
  match b with
  | EmptyString => True
  | String c _ => p c = false
  end.

(** A character that is no white space and neither [c] nor [C]. *)
Definition plain (ch : ascii) : bool :=
  negb (Str.isSpace ch) && negb (Ascii.eqb "c" (Str.lowerChar ch)).


(** * Properties *)

(** ** Numbers *)

Section NumberFacts.

Lemma Qlt_bool_true (a b : Q) : Num.Qlt_bool a b = true <-> (a < b)%Q.
Proof.
  unfold Num.Qlt_bool. rewrite negb_true_iff, <- not_true_iff_false, Qle_bool_iff.
  split; intros H; [apply Qnot_le_lt | apply Qlt_not_le]; exact H.
Qed.

Lemma Qlt_bool_false (a b : Q) : Num.Qlt_bool a b = false <-> (b <= a)%Q.
Proof.
  unfold Num.Qlt_bool. rewrite negb_false_iff. apply Qle_bool_iff.
Qed.

Lemma Qeq_bool_false (a b : Q) : Qeq_bool a b = false <-> ~ (a == b)%Q.
Proof.
  rewrite <- not_true_iff_false, Qeq_bool_iff. reflexivity.
Qed.

End NumberFacts.

(** Case analysis on numbers: split every number and sign in sight, turn
    the boolean comparisons of rationals into propositions, and leave the
    rest to linear arithmetic. *)
Ltac num_bools :=
  repeat match goal with
    | H : Num.Qlt_bool _ _ = true |- _ => apply Qlt_bool_true in H
    | H : Num.Qlt_bool _ _ = false |- _ => apply Qlt_bool_false in H
    | H : Qeq_bool _ _ = true |- _ => apply Qeq_bool_iff in H
    | H : Qeq_bool _ _ = false |- _ => apply Qeq_bool_false in H
    | H : negb _ = true |- _ => apply negb_true_iff in H
    | H : negb _ = false |- _ => apply negb_false_iff in H
    | H : _ || _ = true |- _ => apply orb_true_iff in H; destruct H
    | H : _ || _ = false |- _ => apply orb_false_iff in H; destruct H
    | |- Num.Qlt_bool _ _ = true => apply Qlt_bool_true
    | |- Num.Qlt_bool _ _ = false => apply Qlt_bool_false
    | |- Qeq_bool _ _ = true => apply Qeq_bool_iff
    | |- Qeq_bool _ _ = false => apply Qeq_bool_false
    | |- negb _ = true => apply negb_true_iff
    | |- negb _ = false => apply negb_false_iff
    | |- _ || _ = false => apply orb_false_iff; split
    end.

Ltac num_cases :=
  unfold Num.le, Num.gt, Num.zero in *;
  repeat match goal with
    | n : number |- _ => destruct n as [| [] | ?]
    end;
  cbn in *; try congruence; num_bools; cbn in *; try congruence; try lra.

Section NumberOrder.

Implicit Types a b q : number.

Lemma max_zero_notNegative a : notNegative (Num.max Num.zero a).
Proof.
  unfold notNegative, Num.max.
  destruct a as [| [] | x]; cbn; try reflexivity.
  destruct (Num.Qlt_bool 0 x) eqn:E; cbn; num_bools; lra.
Qed.

Lemma max_zero_ge a : Num.isNaN a = false -> Num.le Num.zero (Num.max Num.zero a) = true.
Proof.
  unfold Num.max, Num.le.
  destruct a as [| [] | x]; cbn; try congruence; intros _; try reflexivity.
  destruct (Num.Qlt_bool 0 x) eqn:E; cbn; [rewrite E; reflexivity |].
  apply orb_true_iff. right. apply Qeq_bool_iff. reflexivity.
Qed.


Lemma sub_notNegative a q : Num.lt a q = false -> notNegative (Num.add a (Num.neg q)).
Proof. unfold notNegative. intros H. num_cases. Qed.

Lemma neg_notNegative q : Num.lt Num.zero q = false -> notNegative (Num.neg q).
Proof. unfold notNegative. intros H. num_cases. Qed.

Lemma add_notNegative a q :
  notNegative a -> Num.le q Num.zero = false -> notNegative (Num.add a q).
Proof. unfold notNegative. intros Ha Hq. num_cases. Qed.

Lemma positive_notNegative q : Num.le q Num.zero = false -> notNegative q.
Proof. unfold notNegative. intros Hq. num_cases. Qed.

Lemma lt_zero_not_le q : Num.lt Num.zero q = true -> Num.le q Num.zero = false.
Proof. intros H. num_cases. Qed.

Lemma lt_trans_zero a q :
  notNegative a -> Num.lt a q = true -> Num.lt Num.zero q = true.
Proof. unfold notNegative. intros Ha H. num_cases. Qed.

Lemma le_not_gt q b : Num.le q b = true -> Num.gt q b = false.
Proof. intros H. num_cases. Qed.

Lemma positive_le_truthy q b :
  Num.lt Num.zero q = true -> Num.le q b = true -> Num.truthy b = true.
Proof. intros Hq H. num_cases. Qed.

End NumberOrder.

(** ** Location codec *)

Section LocationFacts.

Lemma uint_digits (d : Decimal.uint) :
  Str.all Str.isDigit (NilEmpty.string_of_uint d) = true.
Proof. induction d; cbn; auto. Qed.

Lemma ofZ_digits (n : Z) : 0 <= n -> Str.all Str.isDigit (Str.ofZ n) = true.
Proof.
  intros Hn. unfold Str.ofZ. destruct n as [| p | p]; [reflexivity | | lia].
  cbn. unfold NilZero.string_of_uint.
  destruct (Pos.to_uint p); try apply uint_digits. reflexivity.
Qed.

Lemma ofZ_nonempty (n : Z) : Str.ofZ n <> EmptyString.
Proof.
  unfold Str.ofZ. destruct n as [| p | p]; cbn; try discriminate.
  unfold NilZero.string_of_uint.
  pose proof (DecimalPos.Unsigned.to_uint_nonnil p) as Hp.
  destruct (Pos.to_uint p); cbn; congruence.
Qed.

Lemma trailingDigits_all (s : string) :
  Str.all Str.isDigit s = true -> trailingDigits s = s.
Proof.
  destruct s as [| c r]; [reflexivity |]. cbn. intros H. rewrite H. reflexivity.
Qed.

Lemma trailingDigits_skip (c : ascii) (s : string) :
  Str.isDigit c = false -> trailingDigits (String c s) = trailingDigits s.
Proof. intros H. cbn. rewrite H. reflexivity. Qed.

Lemma extract_tagged (a b c : ascii) (ds : string) :
  Str.isDigit a = false -> Str.isDigit b = false -> Str.isDigit c = false ->
  Str.all Str.isDigit ds = true -> ds <> EmptyString ->
  extractLocationNumber (String a (String b (String c ds))) = ds.
Proof.
  intros Ha Hb Hc Hds Hne. unfold extractLocationNumber.
  rewrite !trailingDigits_skip, trailingDigits_all by assumption.
  destruct ds; [congruence | reflexivity].
Qed.

(** Decoding an encoded location returns the decimal text of each
    coordinate, for all coordinates that are not negative. *)
Lemma parse_build (c r k : Z) :
  0 <= c -> 0 <= r -> 0 <= k ->
  parseLocation (LocArray (buildLocationArray c r k))
  = Some {| cabinet := Str.ofZ c; row := Str.ofZ r; col := Str.ofZ k |}.
Proof.
  intros Hc Hr Hk. unfold buildLocationArray, parseLocation.
  change ("cab" ++ Str.ofZ c) with (String "c" (String "a" (String "b" (Str.ofZ c)))).
  change ("row" ++ Str.ofZ r) with (String "r" (String "o" (String "w" (Str.ofZ r)))).
  change ("col" ++ Str.ofZ k) with (String "c" (String "o" (String "l" (Str.ofZ k)))).
  rewrite !extract_tagged; auto using ofZ_digits, ofZ_nonempty.
Qed.

Lemma inBounds_cases (c r k : Z) :
  inBounds c r k ->
  In c [1; 2; 3; 4; 5] /\ In r [1; 2; 3; 4; 5; 6] /\ In k [1; 2; 3; 4].
Proof. unfold inBounds. cbn. lia. Qed.

End LocationFacts.

(** C4. For every cabinet in [1,5], row in [1,6] and column in [1,4],
    decoding the encoding round-trips: [parseLocation (buildLocationArray
    cabinet row col)] is never null, its three components are the decimal
    texts of cabinet, row and col, and read as numbers they are exactly
    cabinet, row and col. *)
Theorem location_round_trip (c r k : Z) :
  inBounds c r k ->
  exists p,
    parseLocation (LocArray (buildLocationArray c r k)) = Some p /\
    p = {| cabinet := Str.ofZ c; row := Str.ofZ r; col := Str.ofZ k |} /\
    toNumber (JString (cabinet p)) = Num.ofZ c /\
    toNumber (JString (row p)) = Num.ofZ r /\
    toNumber (JString (col p)) = Num.ofZ k.
Proof.
  intros Hb. eexists. split; [| split; [reflexivity |]].
  - destruct Hb as (Hc & Hr & Hk). apply parse_build; lia.
  - apply inBounds_cases in Hb. cbn [cabinet row col In] in *.
    destruct Hb as (Hc & Hr & Hk).
    repeat split.
    + intuition (subst; vm_compute; reflexivity).
    + intuition (subst; vm_compute; reflexivity).
    + intuition (subst; vm_compute; reflexivity).
Qed.

Lemma location_round_trip_witness :
  inBounds 2 3 4 /\
  exists p,
    parseLocation (LocArray (buildLocationArray 2 3 4)) = Some p /\
    p = {| cabinet := Str.ofZ 2; row := Str.ofZ 3; col := Str.ofZ 4 |} /\
    toNumber (JString (cabinet p)) = Num.ofZ 2 /\
    toNumber (JString (row p)) = Num.ofZ 3 /\
    toNumber (JString (col p)) = Num.ofZ 4.
Proof.
  assert (H : inBounds 2 3 4) by (unfold inBounds; lia).
  split; [exact H | exact (location_round_trip 2 3 4 H)].
Defined.

Section Picker.

Lemma handleAdd_None (locations : list (list string)) (c r k : Z) :
  handleAdd locations c r k = None
  <-> In (Str.join "-" (buildLocationArray c r k)) (map (Str.join "-") locations).
Proof.
  unfold handleAdd.
  destruct (existsb _ locations) eqn:E.
  - split; [intros _ | reflexivity].
    apply existsb_exists in E as (loc & Hin & Heq). apply String.eqb_eq in Heq.
    rewrite <- Heq. apply in_map. exact Hin.
  - split; [discriminate |]. intros Hin. exfalso.
    apply in_map_iff in Hin as (loc & Heq & Hin).
    assert (Ht : existsb (fun loc => String.eqb (Str.join "-" loc)
                            (Str.join "-" (buildLocationArray c r k))) locations = true).
    { apply existsb_exists. exists loc. split; [exact Hin |]. apply String.eqb_eq. exact Heq. }
    congruence.
Qed.

Lemma handleAdd_Some (locations : list (list string)) (c r k : Z) (locArr : list string) :
  handleAdd locations c r k = Some locArr -> locArr = buildLocationArray c r k.
Proof.
  unfold handleAdd. destruct (existsb _ locations); [discriminate |]. intros [= <-].
  reflexivity.
Qed.

End Picker.

(** C9, as the code has it.  The encoder checks no range: for all integer
    coordinates (safe integers, which the model prints as the code does),
    inside the grid or not, it returns the three-element tuple of tagged
    decimal texts.  The picker hands that tuple to its callback, whatever
    the coordinates, except when a listed location joined with dashes
    reads the same as the tuple joined with dashes; it never fails.  The
    tuple of coordinates that are not negative decodes to their texts.
    What lies inside the grid is exactly what the picker's three select
    elements offer. *)
Theorem encode_checks_no_range (locations : list (list string)) (c r k : Z) :
  safeInteger c -> safeInteger r -> safeInteger k ->
  buildLocationArray c r k
    = ["cab" ++ Str.ofZ c; "row" ++ Str.ofZ r; "col" ++ Str.ofZ k] /\
  (handleAdd locations c r k = None
   <-> exists loc, In loc locations /\
                   Str.join "-" loc = Str.join "-" (buildLocationArray c r k)) /\
  (handleAdd locations c r k <> None ->
   handleAdd locations c r k = Some (buildLocationArray c r k)) /\
  (0 <= c -> 0 <= r -> 0 <= k ->
   parseLocation (LocArray (buildLocationArray c r k))
   = Some {| cabinet := Str.ofZ c; row := Str.ofZ r; col := Str.ofZ k |}) /\
  (inBounds c r k
   <-> In c cabinetOptions /\ In r rowOptions /\ In k colOptions).
Proof.
  intros _ _ _. split; [reflexivity |]. split; [| split; [| split]].
  - rewrite handleAdd_None, in_map_iff. split; intros (loc & H1 & H2); eauto.
  - destruct (handleAdd locations c r k) as [locArr |] eqn:E; [| congruence].
    intros _. apply handleAdd_Some in E. congruence.
  - apply parse_build.
  - unfold inBounds, cabinetOptions, rowOptions, colOptions. cbn [In]. lia.
Qed.

Lemma encode_checks_no_range_witness :
  handleAdd [["cab6"; "row7"; "col5"]] 6 7 6 = Some (buildLocationArray 6 7 6).
Proof.
  apply (encode_checks_no_range [["cab6"; "row7"; "col5"]] 6 7 6).
  - unfold safeInteger, Num.maxSafeInteger. lia.
  - unfold safeInteger, Num.maxSafeInteger. lia.
  - unfold safeInteger, Num.maxSafeInteger. lia.
  - discriminate.
Defined.

(** C9 fails on the code: cabinet 6, row 7 and column 5 are all outside
    the grid, and the encoder returns a tuple for them, which the picker
    passes on. *)
Lemma encode_out_of_range_counterexample :
  ~ inBounds 6 7 5 /\
  buildLocationArray 6 7 5 = ["cab6"; "row7"; "col5"] /\
  handleAdd [] 6 7 5 = Some ["cab6"; "row7"; "col5"].
Proof.
  split; [unfold inBounds; lia | split; reflexivity].
Qed.

(** ** Checkout and return *)

Section StoreProjections.

Variable db : store.

Lemma items_withItems f : items (withItems f db) = f (items db).
Proof. reflexivity. Qed.
Lemma items_withCheckedOut f : items (withCheckedOut f db) = items db.
Proof. reflexivity. Qed.
Lemma items_withCount c : items (withCount c db) = items db.
Proof. reflexivity. Qed.
Lemma checkedOut_withItems f : checkedOutItems (withItems f db) = checkedOutItems db.
Proof. reflexivity. Qed.
Lemma checkedOut_withCheckedOut f :
  checkedOutItems (withCheckedOut f db) = f (checkedOutItems db).
Proof. reflexivity. Qed.
Lemma count_withItems f : metadataCount (withItems f db) = metadataCount db.
Proof. reflexivity. Qed.
Lemma count_withCheckedOut f : metadataCount (withCheckedOut f db) = metadataCount db.
Proof. reflexivity. Qed.
Lemma count_withCount c : metadataCount (withCount c db) = c.
Proof. reflexivity. Qed.

End StoreProjections.

Create Rewrite HintDb store.
#[global] Hint Rewrite items_withItems items_withCheckedOut items_withCount
  checkedOut_withItems checkedOut_withCheckedOut
  count_withItems count_withCheckedOut count_withCount : store.

Ltac store_simpl := autorewrite with store.

(** Run a transaction one step further, with what is known of the ledger
    entry and of the item. *)
Ltac tx_step He Hi :=
  repeat first [progress store_simpl | rewrite He | rewrite Hi | progress cbn].

Ltac tx_unfold :=
  unfold runTransaction, issuedWrites, checkoutBody, returnBody, countBody,
    mbind, mret, tx_bind, tx_ret, txBind, txRet, txRead, txWrite, throw;
  cbn.

Section Transactions.

Variables (uid itemId : string) (qty : number) (now : Z) (db : store).

Lemma checkout_not_positive :
  Num.le qty Num.zero = true ->
  checkoutItem uid itemId qty now db = (Err QuantityNotPositive, db).
Proof. intros H. unfold checkoutItem. rewrite H. reflexivity. Qed.

Lemma checkout_not_found :
  Num.le qty Num.zero = false -> items db !! itemId = None ->
  checkoutItem uid itemId qty now db = (Err ItemNotFound, db).
Proof.
  intros Hq Hi. unfold checkoutItem. rewrite Hq. tx_unfold. rewrite Hi. reflexivity.
Qed.

Lemma checkout_insufficient (d : ItemData) :
  Num.le qty Num.zero = false -> items db !! itemId = Some d ->
  Num.lt (default Num.zero (i_on_hand d)) qty = true ->
  checkoutItem uid itemId qty now db
    = (Err (InsufficientStock (default Num.zero (i_on_hand d))), db) /\
  issuedWrites (checkoutBody uid itemId qty now) db = [].
Proof.
  intros Hq Hi Hlt. unfold checkoutItem. rewrite Hq. tx_unfold.
  rewrite Hi. cbn. rewrite Hlt. split; reflexivity.
Qed.

Lemma checkout_success (d : ItemData) :
  Num.le qty Num.zero = false -> items db !! itemId = Some d ->
  Num.lt (default Num.zero (i_on_hand d)) qty = false ->
  checkoutItem uid itemId qty now db
    = (Ok tt,
       {| items := <[itemId := setOnHand (increment (Num.neg qty) (i_on_hand d)) d]> (items db);
          checkedOutItems := ledgerAfterCheckout uid itemId qty now db;
          metadataCount := metadataCount db |}).
Proof.
  intros Hq Hi Hlt. unfold checkoutItem, ledgerAfterCheckout. rewrite Hq. tx_unfold.
  rewrite Hi. cbn. rewrite Hlt.
  destruct (checkedOutItems db !! (uid, itemId)) as [e |] eqn:He; cbn;
    tx_step He Hi; reflexivity.
Qed.

Lemma return_not_positive :
  Num.le qty Num.zero = true ->
  returnItem uid itemId qty now db = (Err ReturnQuantityNotPositive, db).
Proof. intros H. unfold returnItem. rewrite H. reflexivity. Qed.

Lemma return_no_record :
  Num.le qty Num.zero = false -> checkedOutItems db !! (uid, itemId) = None ->
  returnItem uid itemId qty now db = (Err NoCheckedOutRecord, db) /\
  issuedWrites (returnBody uid itemId qty now) db = [].
Proof.
  intros Hq He. unfold returnItem. rewrite Hq. tx_unfold. rewrite He. split; reflexivity.
Qed.

Lemma return_excess (e : CheckedOutItem) :
  Num.le qty Num.zero = false -> checkedOutItems db !! (uid, itemId) = Some e ->
  Num.gt qty (orZero (c_qty e)) = true ->
  returnItem uid itemId qty now db = (Err (ExcessReturn qty (orZero (c_qty e))), db) /\
  issuedWrites (returnBody uid itemId qty now) db = [].
Proof.
  intros Hq He Hgt. unfold returnItem. rewrite Hq. tx_unfold. rewrite He. cbn.
  rewrite Hgt. split; reflexivity.
Qed.

Lemma return_success (e : CheckedOutItem) (d : ItemData) :
  Num.le qty Num.zero = false -> checkedOutItems db !! (uid, itemId) = Some e ->
  Num.gt qty (orZero (c_qty e)) = false ->
  items db !! itemId = Some d ->
  returnItem uid itemId qty now db
    = (Ok tt,
       {| items := <[itemId := setOnHand (increment qty (i_on_hand d)) d]> (items db);
          checkedOutItems := ledgerAfterReturn uid itemId qty now db e;
          metadataCount := metadataCount db |}).
Proof.
  intros Hq He Hgt Hi. unfold returnItem, ledgerAfterReturn. rewrite Hq. tx_unfold.
  rewrite He. cbn. rewrite Hgt.
  destruct (Num.eq qty (orZero (c_qty e))); cbn;
    tx_step He Hi; reflexivity.
Qed.

Lemma return_item_missing (e : CheckedOutItem) :
  Num.le qty Num.zero = false -> checkedOutItems db !! (uid, itemId) = Some e ->
  Num.gt qty (orZero (c_qty e)) = false ->
  items db !! itemId = None ->
  returnItem uid itemId qty now db = (Err (NoDocumentToUpdate (ItemRef itemId)), db).
Proof.
  intros Hq He Hgt Hi. unfold returnItem. rewrite Hq. tx_unfold.
  rewrite He. cbn. rewrite Hgt.
  destruct (Num.eq qty (orZero (c_qty e))); cbn;
    tx_step He Hi; reflexivity.
Qed.

End Transactions.

(** C2. If the item exists and its on-hand quantity at transaction time
    (not negative, as the stock invariant has it) is strictly less than
    [qty], then [checkoutItem] fails with the insufficient-stock error and
    the failed transaction writes nothing: it had issued no write when it
    threw, and the database afterwards, on-hand quantity and ledger
    included, is the database before. *)
Theorem checkout_rejects_insufficient_stock
  (uid itemId : string) (qty : number) (now : Z) (db : store) (d : ItemData) :
  items db !! itemId = Some d ->
  notNegative (default Num.zero (i_on_hand d)) ->
  Num.lt (default Num.zero (i_on_hand d)) qty = true ->
  checkoutItem uid itemId qty now db
    = (Err (InsufficientStock (default Num.zero (i_on_hand d))), db) /\
  issuedWrites (checkoutBody uid itemId qty now) db = [].
Proof.
  intros Hi Hpos Hlt. apply checkout_insufficient; try assumption.
  apply lt_zero_not_le. eapply lt_trans_zero; eassumption.
Qed.

Lemma checkout_rejects_insufficient_stock_witness :
  checkoutItem "u1" "bolt1" (Num.ofZ 15) 0 (oneItemStore (Some (Num.ofZ 10)))
    = (Err (InsufficientStock (Num.ofZ 10)), oneItemStore (Some (Num.ofZ 10))) /\
  issuedWrites (checkoutBody "u1" "bolt1" (Num.ofZ 15) 0)
    (oneItemStore (Some (Num.ofZ 10))) = [].
Proof.
  apply (checkout_rejects_insufficient_stock "u1" "bolt1" (Num.ofZ 15) 0
           (oneItemStore (Some (Num.ofZ 10)))
           (setOnHand (Some (Num.ofZ 10)) blankItem)).
  - reflexivity.
  - reflexivity.
  - reflexivity.
Defined.

(** C10. For an item document without an [on_hand] field and every
    quantity [qty > 0], [checkoutItem] reads the missing quantity as 0 and
    fails with the insufficient-stock error, having issued no write and
    leaving the database as it was. *)
Theorem checkout_unknown_stock
  (uid itemId : string) (qty : number) (now : Z) (db : store) (d : ItemData) :
  items db !! itemId = Some d ->
  i_on_hand d = None ->
  Num.lt Num.zero qty = true ->
  checkoutItem uid itemId qty now db = (Err (InsufficientStock Num.zero), db) /\
  issuedWrites (checkoutBody uid itemId qty now) db = [].
Proof.
  intros Hi Hnone Hq.
  pose proof (checkout_insufficient uid itemId qty now db d) as H.
  rewrite Hnone in H. apply H; auto using lt_zero_not_le.
Qed.

Lemma checkout_unknown_stock_witness :
  checkoutItem "u1" "bolt1" (Num.ofZ 1) 0 (oneItemStore None)
    = (Err (InsufficientStock Num.zero), oneItemStore None) /\
  issuedWrites (checkoutBody "u1" "bolt1" (Num.ofZ 1) 0) (oneItemStore None) = [].
Proof.
  apply (checkout_unknown_stock "u1" "bolt1" (Num.ofZ 1) 0 (oneItemStore None)
           (setOnHand None blankItem)); reflexivity.
Defined.

Lemma orZero_truthy (x : option number) :
  Num.truthy (orZero x) = true -> x = Some (orZero x).
Proof.
  unfold orZero. destruct x as [v |]; [| discriminate].
  destruct (Num.truthy v); [reflexivity | discriminate].
Qed.

Section ReturnEffect.

Lemma ofZ_add (h q : Z) :
  exists x, Num.add (Num.ofZ h) (Num.ofZ q) = Fin x /\ (x == inject_Z (h + q))%Q.
Proof.
  exists (inject_Z h + inject_Z q)%Q. split; [reflexivity |].
  rewrite inject_Z_plus. reflexivity.
Qed.

Lemma ofZ_sub (l q : Z) :
  exists y, Num.add (Num.ofZ l) (Num.neg (Num.ofZ q)) = Fin y /\
            (y == inject_Z (l - q))%Q.
Proof.
  exists (inject_Z l + - inject_Z q)%Q. split; [reflexivity |].
  unfold Z.sub. rewrite inject_Z_plus, inject_Z_opp. reflexivity.
Qed.

Lemma inject_Z_pos (q : Z) : 0 < q -> (0 < inject_Z q)%Q.
Proof. intros H. change 0%Q with (inject_Z 0). rewrite <- Zlt_Qlt. exact H. Qed.

Lemma inject_Z_le (a b : Z) : a <= b -> (inject_Z a <= inject_Z b)%Q.
Proof. intros H. rewrite <- Zle_Qle. exact H. Qed.

Lemma ofZ_lt (a b : Z) : Num.lt (Num.ofZ a) (Num.ofZ b) = true <-> a < b.
Proof.
  unfold Num.ofZ. cbn [Num.lt]. rewrite Qlt_bool_true, <- Zlt_Qlt. reflexivity.
Qed.

Lemma ofZ_eq (a b : Z) : Num.eq (Num.ofZ a) (Num.ofZ b) = true <-> a = b.
Proof.
  unfold Num.ofZ. cbn [Num.eq]. rewrite Qeq_bool_iff. split.
  - intros H. apply -> inject_Z_injective in H. exact H.
  - intros ->. reflexivity.
Qed.

Lemma ofZ_le (a b : Z) : Num.le (Num.ofZ a) (Num.ofZ b) = true <-> a <= b.
Proof.
  unfold Num.le. rewrite orb_true_iff, ofZ_lt, ofZ_eq. lia.
Qed.

(** [x || 0] on an integer is that integer. *)
Lemma orZero_ofZ (l : Z) :
  exists y, orZero (Some (Num.ofZ l)) = Fin y /\ (y == inject_Z l)%Q.
Proof.
  unfold orZero, Num.ofZ. cbn [Num.truthy].
  destruct (Qeq_bool (inject_Z l) 0) eqn:E; cbn [negb].
  - exists 0%Q. split; [reflexivity |]. apply Qeq_bool_iff in E. symmetry. exact E.
  - exists (inject_Z l). split; reflexivity.
Qed.

End ReturnEffect.

(** C3, as the code has it.  [returnItem] with [qty <= 0] fails.  With
    [qty > 0]: without a ledger entry for (user, item) it fails with the
    no-active-checkout error and changes nothing; with an entry of quantity
    [L] (as the code reads it) and [qty > L] it fails with the
    excess-return error and changes nothing; with [qty <= L] and no item
    document it fails and changes nothing; with [qty <= L] and the item
    document there it succeeds, the item keeps every field but on_hand, a
    missing on_hand becomes [qty], and the ledger entry is deleted exactly
    when [qty = L] and otherwise kept, stamped with the time of the
    return.  For integer quantities in the safe range on_hand rises by
    [qty] and the quantity of an entry that is kept falls by [qty]. *)
Theorem returnItem_cases
  (uid itemId : string) (qty : number) (now : Z) (db : store) :
  (Num.le qty Num.zero = true ->
   returnItem uid itemId qty now db = (Err ReturnQuantityNotPositive, db)) /\
  (Num.lt Num.zero qty = true ->
   checkedOutItems db !! (uid, itemId) = None ->
   returnItem uid itemId qty now db = (Err NoCheckedOutRecord, db) /\
   issuedWrites (returnBody uid itemId qty now) db = []) /\
  (forall (e : CheckedOutItem),
   Num.lt Num.zero qty = true ->
   checkedOutItems db !! (uid, itemId) = Some e ->
   Num.gt qty (orZero (c_qty e)) = true ->
   returnItem uid itemId qty now db = (Err (ExcessReturn qty (orZero (c_qty e))), db) /\
   issuedWrites (returnBody uid itemId qty now) db = []) /\
  (forall (e : CheckedOutItem),
   Num.lt Num.zero qty = true ->
   checkedOutItems db !! (uid, itemId) = Some e ->
   Num.le qty (orZero (c_qty e)) = true ->
   items db !! itemId = None ->
   returnItem uid itemId qty now db = (Err (NoDocumentToUpdate (ItemRef itemId)), db)) /\
  (forall (e : CheckedOutItem) (d : ItemData),
   Num.lt Num.zero qty = true ->
   checkedOutItems db !! (uid, itemId) = Some e ->
   Num.le qty (orZero (c_qty e)) = true ->
   items db !! itemId = Some d ->
   exists d',
     fst (returnItem uid itemId qty now db) = Ok tt /\
     items (snd (returnItem uid itemId qty now db)) !! itemId = Some d' /\
     sameButOnHand d d' /\
     (i_on_hand d = None -> i_on_hand d' = Some qty) /\
     (Num.eq qty (orZero (c_qty e)) = true ->
      checkedOutItems (snd (returnItem uid itemId qty now db)) !! (uid, itemId) = None) /\
     (Num.eq qty (orZero (c_qty e)) = false ->
      exists e',
        checkedOutItems (snd (returnItem uid itemId qty now db)) !! (uid, itemId)
        = Some e' /\
        c_itemId e' = c_itemId e /\ c_updatedAt e' = now) /\
     (forall h q l : Z,
        safeInteger h -> safeInteger l -> safeInteger (h + q) ->
        i_on_hand d = Some (Num.ofZ h) -> c_qty e = Some (Num.ofZ l) ->
        qty = Num.ofZ q ->
        0 < q <= l /\
        (exists x, i_on_hand d' = Some (Fin x) /\ (x == inject_Z (h + q))%Q) /\
        (q = l ->
         checkedOutItems (snd (returnItem uid itemId qty now db)) !! (uid, itemId)
         = None) /\
        (q <> l ->
         exists e' y,
           checkedOutItems (snd (returnItem uid itemId qty now db)) !! (uid, itemId)
           = Some e' /\
           c_qty e' = Some (Fin y) /\ (y == inject_Z (l - q))%Q))).
Proof.
  split; [| split; [| split; [| split]]].
  - apply return_not_positive.
  - intros Hq He. apply return_no_record; auto using lt_zero_not_le.
  - intros e Hq He Hgt. apply return_excess; auto using lt_zero_not_le.
  - intros e Hq He Hle Hi. apply (return_item_missing _ _ _ _ _ e);
      auto using lt_zero_not_le, le_not_gt.
  - intros e d Hq He Hle Hi.
    rewrite (return_success uid itemId qty now db e d);
      auto using lt_zero_not_le, le_not_gt.
    cbn [fst snd items checkedOutItems]. unfold ledgerAfterReturn.
    exists (setOnHand (increment qty (i_on_hand d)) d).
    split; [reflexivity |]. split; [apply lookup_insert_eq |].
    split; [repeat split |].
    split; [intros Hn; cbn [setOnHand i_on_hand]; rewrite Hn; reflexivity |].
    split; [intros Heq; rewrite Heq; apply lookup_delete_eq |].
    split.
    { intros Heq. rewrite Heq. eexists. split; [apply lookup_insert_eq |].
      split; reflexivity. }
    intros h q l _ _ _ Hh Hl ->.
    assert (Hq' : 0 < q) by (apply (ofZ_lt 0 q); exact Hq).
    destruct (orZero_ofZ l) as (y & Hy & Hyl). rewrite Hl, Hy in Hle |- *.
    assert (Hql : q <= l).
    { unfold Num.le, Num.ofZ in Hle. cbn [Num.lt Num.eq] in Hle.
      apply orb_true_iff in Hle. destruct Hle as [Hle | Hle].
      - apply Qlt_bool_true in Hle. rewrite Hyl, <- Zlt_Qlt in Hle. lia.
      - apply Qeq_bool_iff in Hle. rewrite Hyl in Hle.
        apply -> inject_Z_injective in Hle. lia. }
    assert (Heq : Num.eq (Num.ofZ q) (Fin y) = true <-> q = l).
    { unfold Num.ofZ. cbn [Num.eq]. rewrite Qeq_bool_iff, Hyl. split.
      - intros H. apply -> inject_Z_injective in H. exact H.
      - intros ->. reflexivity. }
    split; [lia |]. split; [| split].
    + cbn [setOnHand i_on_hand]. rewrite Hh. cbn [increment].
      destruct (ofZ_add h q) as (x & Hx & Hxq). exists x. rewrite Hx. auto.
    + intros Hqe. rewrite (proj2 Heq Hqe). apply lookup_delete_eq.
    + intros Hne. destruct (Num.eq (Num.ofZ q) (Fin y)) eqn:E;
        [exfalso; apply Hne, Heq; reflexivity |].
      destruct (ofZ_sub l q) as (z & Hz & Hzl).
      eexists _, z. split; [apply lookup_insert_eq |]. cbn [setQty c_qty increment].
      rewrite Hz. split; [reflexivity | exact Hzl].
Qed.

Lemma returnItem_cases_witness :
  exists d',
    fst (returnItem "u1" "bolt1" (Num.ofZ 2) 2 checkedOutStore) = Ok tt /\
    items (snd (returnItem "u1" "bolt1" (Num.ofZ 2) 2 checkedOutStore)) !! "bolt1" = Some d' /\
    sameButOnHand sampleItem d' /\
    (i_on_hand sampleItem = None -> i_on_hand d' = Some (Num.ofZ 2)) /\
    (Num.eq (Num.ofZ 2) (orZero (c_qty sampleEntry)) = true ->
     checkedOutItems (snd (returnItem "u1" "bolt1" (Num.ofZ 2) 2 checkedOutStore)) !! ("u1", "bolt1") = None) /\
    (Num.eq (Num.ofZ 2) (orZero (c_qty sampleEntry)) = false ->
     exists e',
       checkedOutItems (snd (returnItem "u1" "bolt1" (Num.ofZ 2) 2 checkedOutStore)) !! ("u1", "bolt1") = Some e' /\
       c_itemId e' = c_itemId sampleEntry /\ c_updatedAt e' = 2) /\
    (forall h q l : Z,
       safeInteger h -> safeInteger l -> safeInteger (h + q) ->
       i_on_hand sampleItem = Some (Num.ofZ h) -> c_qty sampleEntry = Some (Num.ofZ l) ->
       Num.ofZ 2 = Num.ofZ q ->
       0 < q <= l /\
       (exists x, i_on_hand d' = Some (Fin x) /\ (x == inject_Z (h + q))%Q) /\
       (q = l -> checkedOutItems (snd (returnItem "u1" "bolt1" (Num.ofZ 2) 2 checkedOutStore)) !! ("u1", "bolt1") = None) /\
       (q <> l ->
        exists e' y,
          checkedOutItems (snd (returnItem "u1" "bolt1" (Num.ofZ 2) 2 checkedOutStore)) !! ("u1", "bolt1") = Some e' /\
          c_qty e' = Some (Fin y) /\ (y == inject_Z (l - q))%Q)).
Proof.
  apply (proj2 (proj2 (proj2 (proj2
           (returnItem_cases "u1" "bolt1" (Num.ofZ 2) 2 checkedOutStore))))
           sampleEntry sampleItem); reflexivity.
Defined.

(** C3 fails on the code: user u1 holds 5 units of an item whose document
    has been deleted; a return of 2, with 0 < 2 <= 5, does not raise any
    on-hand quantity and does not lower the entry: it fails on the update
    of the missing item document, and the entry stays at 5. *)
Lemma returnItem_counterexample :
  checkedOutItems (snd (deleteItem "bolt1" checkedOutStore)) !! ("u1", "bolt1")
  = Some sampleEntry /\
  c_qty sampleEntry = Some (Num.ofZ 5) /\
  Num.lt Num.zero (Num.ofZ 2) = true /\
  Num.le (Num.ofZ 2) (Num.ofZ 5) = true /\
  returnItem "u1" "bolt1" (Num.ofZ 2) 9 (snd (deleteItem "bolt1" checkedOutStore))
  = (Err (NoDocumentToUpdate (ItemRef "bolt1")), snd (deleteItem "bolt1" checkedOutStore)) /\
  isErr (fst (returnItem "u1" "bolt1" (Num.ofZ 2) 9
                (snd (deleteItem "bolt1" checkedOutStore)))) = true.
Proof. repeat split. Qed.

(** The scenarios of the specification: 10 units on hand, a checkout of 5
    and then a return of 2 leave 3 in the ledger and 7 on hand; a return
    of all 5 leaves no ledger entry and 10 on hand. *)
Example partial_return_scenario :
  let db0 := oneItemStore (Some (Num.ofZ 10)) in
  let db1 := snd (checkoutItem "u1" "bolt1" (Num.ofZ 5) 1 db0) in
  let db2 := snd (returnItem "u1" "bolt1" (Num.ofZ 2) 2 db1) in
  (c_qty <$> checkedOutItems db1 !! ("u1", "bolt1")) = Some (Some (Fin 5)) /\
  (i_on_hand <$> items db1 !! "bolt1") = Some (Some (Fin 5)) /\
  (c_qty <$> checkedOutItems db2 !! ("u1", "bolt1")) = Some (Some (Fin 3)) /\
  (i_on_hand <$> items db2 !! "bolt1") = Some (Some (Fin 7)).
Proof. vm_compute. repeat split. Qed.

Example full_return_scenario :
  let db0 := oneItemStore (Some (Num.ofZ 10)) in
  let db1 := snd (checkoutItem "u1" "bolt1" (Num.ofZ 5) 1 db0) in
  let db2 := snd (returnItem "u1" "bolt1" (Num.ofZ 5) 2 db1) in
  checkedOutItems db2 !! ("u1", "bolt1") = None /\
  (i_on_hand <$> items db2 !! "bolt1") = Some (Some (Fin 10)).
Proof. vm_compute. repeat split. Qed.

(** ** The ID allocator *)

Section Rounding.

(** Up to 2^53 nothing is rounded. *)
Lemma roundInt_small (n : Z) : - 2 ^ 53 <= n <= 2 ^ 53 -> Num.roundInt n = n.
Proof.
  intros Hn. unfold Num.roundInt.
  destruct (Z.log2 (Z.abs n) - 52 <=? 0) eqn:E; [reflexivity |].
  apply Z.leb_gt in E.
  destruct (Z.eq_dec (Z.abs n) (2 ^ 53)) as [Ha | Ha].
  - destruct (Z.abs_eq_or_opp n) as [Hs | Hs]; rewrite Hs in Ha.
    + subst n. vm_compute. reflexivity.
    + assert (n = - 2 ^ 53) as -> by lia. vm_compute. reflexivity.
  - exfalso. assert (Hlt : Z.abs n < 2 ^ 53) by lia.
    destruct (Z.eq_dec (Z.abs n) 0) as [H0 | H0].
    + rewrite H0 in E. cbn in E. lia.
    + apply Z.log2_lt_pow2 in Hlt; lia.
Qed.

Lemma roundInt_nonneg (n : Z) : 0 <= n -> 0 <= Num.roundInt n.
Proof.
  intros Hn. unfold Num.roundInt.
  destruct (Z.log2 (Z.abs n) - 52 <=? 0) eqn:E; [exact Hn |].
  assert (Hu : 0 < 2 ^ (Z.log2 (Z.abs n) - 52)).
  { apply Z.pow_pos_nonneg; [lia |]. apply Z.leb_gt in E. lia. }
  assert (Hm : 0 <= Z.abs n / 2 ^ (Z.log2 (Z.abs n) - 52)).
  { apply Z.div_pos; lia. }
  apply Z.mul_nonneg_nonneg; [lia |].
  apply Z.mul_nonneg_nonneg; [| lia].
  repeat match goal with |- context [if ?b then _ else _] => destruct b end; lia.
Qed.

End Rounding.

Lemma getNextItemCount_eq (db : store) :
  getNextItemCount db
  = (Ok (Num.roundInt (currentCount db + 1)),
     withCount (Some {| count := Some (Num.roundInt (currentCount db + 1)) |}) db).
Proof. reflexivity. Qed.

Lemma getNextItemCount_safe (db : store) :
  safeCount (currentCount db) ->
  getNextItemCount db
  = (Ok (currentCount db + 1),
     withCount (Some {| count := Some (currentCount db + 1) |}) db).
Proof.
  unfold safeCount, Num.maxSafeInteger. intros Hc.
  rewrite getNextItemCount_eq, roundInt_small; [reflexivity |].
  change (2 ^ 53) with 9007199254740992. lia.
Qed.

(** C5, as the code has it.  A call of the allocator made while the
    counter is an integer from 0 to 2^53 - 1 reads the counter (0 when the
    counter document or its field is absent), issues exactly one write,
    which persists current + 1, and returns current + 1: a suffix strictly
    greater than the counter that preceded the call, and at least 1. *)
Theorem nextSuffix_increments (db : store) :
  safeCount (currentCount db) ->
  exists next,
    getNextItemCount db
    = (Ok next, withCount (Some {| count := Some next |}) db) /\
    next = currentCount db + 1 /\
    issuedWrites countBody db = [SetCount next] /\
    currentCount (snd (getNextItemCount db)) = next /\
    (metadataCount db = None -> next = 1) /\
    (metadataCount db = Some {| count := None |} -> next = 1) /\
    currentCount db < next /\
    1 <= next.
Proof.
  intros Hc. exists (currentCount db + 1).
  pose proof (getNextItemCount_safe db Hc) as Heq.
  split; [exact Heq |]. split; [reflexivity |]. split.
  { assert (H : issuedWrites countBody db
                = [SetCount (Num.roundInt (currentCount db + 1))]) by reflexivity.
    rewrite H, roundInt_small; [reflexivity |].
    unfold safeCount, Num.maxSafeInteger in Hc.
    change (2 ^ 53) with 9007199254740992. lia. }
  split; [rewrite Heq; reflexivity |].
  unfold safeCount in Hc.
  split; [intros H; unfold currentCount; rewrite H; reflexivity |].
  split; [intros H; unfold currentCount; rewrite H; reflexivity |].
  lia.
Qed.

Lemma nextSuffix_increments_witness :
  exists next,
    getNextItemCount countedStore
    = (Ok next, withCount (Some {| count := Some next |}) countedStore) /\
    next = currentCount countedStore + 1 /\
    issuedWrites countBody countedStore = [SetCount next] /\
    currentCount (snd (getNextItemCount countedStore)) = next /\
    (metadataCount countedStore = None -> next = 1) /\
    (metadataCount countedStore = Some {| count := None |} -> next = 1) /\
    currentCount countedStore < next /\
    1 <= next.
Proof.
  apply (nextSuffix_increments countedStore).
  unfold safeCount, Num.maxSafeInteger. cbn. lia.
Defined.

(** C5 fails on the code: with the counter at 2^53 the sum current + 1 is
    a tie between two doubles and is rounded back to 2^53, so the call
    persists and returns the counter it read, not current + 1, and the
    suffix is not greater than the counter that preceded the call. *)
Lemma nextSuffix_counterexample :
  exists next db',
    getNextItemCount saturatedStore = (Ok next, db') /\
    currentCount saturatedStore = 2 ^ 53 /\
    next = currentCount saturatedStore /\
    currentCount db' = currentCount saturatedStore /\
    next <> currentCount saturatedStore + 1 /\
    ~ currentCount saturatedStore < next.
Proof.
  exists (2 ^ 53), saturatedStore.
  split; [vm_compute; reflexivity |].
  vm_compute. repeat split; intros H; discriminate H.
Qed.

(** ** The outcomes of a creation and of an update *)

Section RepositoryCases.

(** The three ways a creation ends: refused for its name, refused by the
    store after the counter has moved, or stored. *)
Lemma createItem_cases (itemDraft : ItemDraft) (db : store) :
  let next := Num.roundInt (currentCount db + 1) in
  let counted := withCount (Some {| count := Some next |}) db in
  let docId := buildItemDocId (i_name (validateDraft itemDraft)) next in
  (isBlank (d_name itemDraft) = true /\
   createItem itemDraft db = (Err (FailedToCreate NameRequired), db)) \/
  (isBlank (d_name itemDraft) = false /\
   hasNestedArray (default [] (d_location itemDraft)) = true /\
   createItem itemDraft db = (Err (FailedToCreate NestedArrays), counted)) \/
  (isBlank (d_name itemDraft) = false /\
   hasNestedArray (default [] (d_location itemDraft)) = false /\
   createItem itemDraft db
   = (Ok {| id := docId; data := validateDraft itemDraft |},
      withItems (insert docId (validateDraft itemDraft)) counted)).
Proof.
  intros next counted docId. unfold createItem.
  destruct (isBlank (d_name itemDraft)); [left; split; reflexivity | right].
  rewrite getNextItemCount_eq. unfold setDoc. cbn [validateDraft i_location].
  destruct (hasNestedArray (default [] (d_location itemDraft)));
    [left | right]; repeat split.
Qed.

(** An update fails and changes nothing, or replaces the fields of the one
    document. *)
Lemma updateItem_cases (id : string) (patch : ItemPatch) (db : store) :
  (exists e, updateItem id patch db = (Err e, db)) \/
  (exists d, items db !! id = Some d /\
             hasNestedArray (default [] (p_location patch)) = false /\
             updateItem id patch db
             = (Ok tt, withItems (insert id (applyPatch (validatePatch patch) d)) db)).
Proof.
  unfold updateItem, updateDoc.
  match goal with |- context [if ?b then _ else _] => destruct b end; [eauto |].
  cbn [validatePatch p_location].
  destruct (hasNestedArray (default [] (p_location patch))); [eauto |].
  destruct (items db !! id) as [d |]; eauto.
Qed.

End RepositoryCases.

(** ** The stock invariant *)

Section Invariant.

Lemma stock_insert (db : store) (id : string) (d' : ItemData)
  (co : gmap (string * string) CheckedOutItem) (cnt : option CountDoc) :
  stockNotNegative db ->
  (forall n, i_on_hand d' = Some n -> notNegative n) ->
  stockNotNegative
    {| items := <[id := d']> (items db); checkedOutItems := co; metadataCount := cnt |}.
Proof.
  intros Hdb Hd' id0 d0 n0. cbn.
  destruct (decide (id = id0)) as [-> | Hne].
  - rewrite lookup_insert_eq. intros [= <-]. apply Hd'.
  - rewrite lookup_insert_ne by assumption. apply Hdb.
Qed.

Lemma clamp_notNegative (v : jsval) (n : number) : clamp v = Some n -> notNegative n.
Proof.
  destruct v; cbn; intros [= <-]; apply max_zero_notNegative.
Qed.

Lemma clampNum_notNegative (v : option number) (n : number) :
  clampNum v = Some n -> notNegative n.
Proof.
  destruct v; cbn; intros [= <-]; apply max_zero_notNegative.
Qed.

Lemma checkout_preserves uid itemId qty now db :
  stockNotNegative db -> stockNotNegative (snd (checkoutItem uid itemId qty now db)).
Proof.
  intros Hdb.
  destruct (Num.le qty Num.zero) eqn:Hq.
  { rewrite checkout_not_positive by assumption. exact Hdb. }
  destruct (items db !! itemId) as [d |] eqn:Hi.
  2: { rewrite checkout_not_found by assumption. exact Hdb. }
  destruct (Num.lt (default Num.zero (i_on_hand d)) qty) eqn:Hlt.
  { rewrite (proj1 (checkout_insufficient uid itemId qty now db d Hq Hi Hlt)). exact Hdb. }
  rewrite (checkout_success uid itemId qty now db d Hq Hi Hlt). cbn [snd].
  apply stock_insert; [exact Hdb |].
  intros n. cbn. destruct (i_on_hand d) as [v |]; cbn in *; intros [= <-].
  - apply sub_notNegative. exact Hlt.
  - apply neg_notNegative. exact Hlt.
Qed.

Lemma return_preserves uid itemId qty now db :
  stockNotNegative db -> stockNotNegative (snd (returnItem uid itemId qty now db)).
Proof.
  intros Hdb.
  destruct (Num.le qty Num.zero) eqn:Hq.
  { rewrite return_not_positive by assumption. exact Hdb. }
  destruct (checkedOutItems db !! (uid, itemId)) as [e |] eqn:He.
  2: { rewrite (proj1 (return_no_record uid itemId qty now db Hq He)). exact Hdb. }
  destruct (Num.gt qty (orZero (c_qty e))) eqn:Hgt.
  { rewrite (proj1 (return_excess uid itemId qty now db e Hq He Hgt)). exact Hdb. }
  destruct (items db !! itemId) as [d |] eqn:Hi.
  2: { rewrite (return_item_missing uid itemId qty now db e Hq He Hgt Hi). exact Hdb. }
  rewrite (return_success uid itemId qty now db e d Hq He Hgt Hi). cbn [snd].
  apply stock_insert; [exact Hdb |].
  intros n. cbn. destruct (i_on_hand d) as [v |] eqn:Hv; cbn; intros [= <-].
  - apply add_notNegative; [| exact Hq]. eapply Hdb; eassumption.
  - apply positive_notNegative. exact Hq.
Qed.

Lemma create_preserves itemDraft db :
  stockNotNegative db -> stockNotNegative (snd (createItem itemDraft db)).
Proof.
  intros Hdb.
  destruct (createItem_cases itemDraft db) as [(_ & ->) | [(_ & _ & ->) | (_ & _ & ->)]];
    cbn [snd]; try exact Hdb.
  apply stock_insert; [exact Hdb |].
  intros n. cbn. apply clamp_notNegative.
Qed.

Lemma update_preserves id patch db :
  stockNotNegative db -> stockNotNegative (snd (updateItem id patch db)).
Proof.
  intros Hdb.
  destruct (updateItem_cases id patch db) as [(e & ->) | (d & Hi & _ & ->)];
    cbn [snd]; [exact Hdb |].
  apply stock_insert; [exact Hdb |].
  intros n. cbn. destruct (p_on_hand patch) as [v |]; cbn.
  - intros [= <-]. apply max_zero_notNegative.
  - intros Hn. eapply Hdb; eassumption.
Qed.

Lemma delete_preserves id db :
  stockNotNegative db -> stockNotNegative (snd (deleteItem id db)).
Proof.
  intros Hdb id0 d0 n0. cbn. intros Hl. apply lookup_delete_Some in Hl as [_ Hl].
  eapply Hdb; eassumption.
Qed.

Lemma perform_preserves (o : operation) (db : store) :
  stockNotNegative db -> stockNotNegative (perform o db).
Proof.
  destruct o; cbn [perform];
    auto using checkout_preserves, return_preserves, create_preserves,
      update_preserves, delete_preserves.
Qed.

End Invariant.

(** X28.  Whatever checkouts, returns, creations, updates and deletions
    are applied, in whatever order and to whatever items, no on-hand
    quantity that is present compares below 0 in any committed state,
    provided none did in the first.  An on-hand quantity that is NaN
    compares below nothing: the statement does not exclude it. *)
Theorem stock_never_negative (ops : list operation) (db : store) :
  stockNotNegative db ->
  Forall stockNotNegative (committedStates ops db).
Proof.
  revert db. induction ops as [| o rest IH]; intros db Hdb; cbn.
  - constructor; [exact Hdb | constructor].
  - constructor; [exact Hdb |]. apply IH. apply perform_preserves. exact Hdb.
Qed.

Lemma stock_never_negative_witness :
  Forall stockNotNegative
    (committedStates
       [Checkout "u1" "bolt1" (Num.ofZ 4) 1;
        Checkout "u2" "bolt1" (Num.ofZ 9) 2;
        Return "u1" "bolt1" (Num.ofZ 3) 3;
        Update "bolt1" {| p_name := None; p_quantity := None;
                          p_on_hand := Some (Num.ofZ (-2));
                          p_count_date := None; p_count_person := None;
                          p_delivery_date := None; p_location := None;
                          p_locations := None; p_supplier := None;
                          p_supplier_url := None; p_retail_price := None;
                          p_description := None |}]
       (oneItemStore (Some (Num.ofZ 10)))).
Proof.
  apply (stock_never_negative _ (oneItemStore (Some (Num.ofZ 10)))).
  intros id d n Hl Hn. unfold oneItemStore in Hl. cbn in Hl.
  apply lookup_insert_Some in Hl as [[_ <-] | [_ Hl]].
  - cbn in Hn. injection Hn as <-. reflexivity.
  - rewrite lookup_empty in Hl. discriminate.
Defined.

(** C1 against the code.  A draft whose on-hand quantity is NaN is created
    with the on-hand quantity NaN, which is not at least 0: [Math.max(0,
    NaN)] is NaN, in [createItem] and in [updateItem] alike.  For such an
    item [checkoutItem] verifies nothing: NaN is not below any quantity,
    so a checkout of 1000000 units succeeds, records 1000000 units in the
    user's ledger and leaves the on-hand quantity NaN.  "Import all" on a
    file whose on-hand cell reads abc creates such an item. *)
Theorem nan_stock_passes_checks :
  (exists item db1 db2,
     d_on_hand sampleDraft = JNumber NaN /\
     createItem sampleDraft emptyStore = (Ok item, db1) /\
     id item = "redvalve1" /\
     onHandOf "redvalve1" db1 = Some NaN /\
     Num.le Num.zero NaN = false /\
     checkoutItem "u1" "redvalve1" (Num.ofZ 1000000) 1 db1 = (Ok tt, db2) /\
     Num.le (Num.ofZ 1000000) NaN = false /\
     onHandOf "redvalve1" db2 = Some NaN /\
     heldBy "u1" "redvalve1" db2 = Num.ofZ 1000000 /\
     p_on_hand nanPatch = Some NaN /\
     fst (updateItem "bolt1" nanPatch (oneItemStore (Some (Num.ofZ 10)))) = Ok tt /\
     onHandOf "bolt1" (snd (updateItem "bolt1" nanPatch (oneItemStore (Some (Num.ofZ 10)))))
     = Some NaN) /\
  (exists err created db3 db4,
     parseCSV unreadableStockCsv = Some ([], [err]) /\
     row_data err !! "on_hand" = Some "abc" /\
     handleImportAll [] [err] emptyStore = (created, db3) /\
     map id created = ["bolt1"] /\
     onHandOf "bolt1" db3 = Some NaN /\
     checkoutItem "u1" "bolt1" (Num.ofZ 1000000) 1 db3 = (Ok tt, db4) /\
     onHandOf "bolt1" db4 = Some NaN /\
     heldBy "u1" "bolt1" db4 = Num.ofZ 1000000).
Proof.
  split.
  - do 3 eexists. split; [reflexivity |].
    split; [vm_compute; reflexivity |].
    split; [reflexivity |]. split; [reflexivity |]. split; [reflexivity |].
    split; [vm_compute; reflexivity |].
    repeat split.
  - do 4 eexists. split; [vm_compute; reflexivity |].
    split; [reflexivity |].
    split; [vm_compute; reflexivity |].
    split; [reflexivity |]. split; [reflexivity |].
    split; [vm_compute; reflexivity |].
    split; reflexivity.
Qed.

(** ** Item creation *)

Section Names.

Lemma space_not_alnum (c : ascii) :
  Str.isSpace c = true -> Str.isLowerAlnum (Str.lowerChar c) = false.
Proof.
  destruct c as [[] [] [] [] [] [] [] []]; vm_compute; congruence.
Qed.

Lemma trimEnd_empty (s : string) :
  Str.isEmpty (Str.trimEnd s) = true <-> Str.all Str.isSpace s = true.
Proof.
  induction s as [| c r IH]; cbn; [tauto |].
  destruct (Str.trimEnd r) eqn:E; cbn in *.
  - destruct (Str.isSpace c); cbn; [tauto | split; discriminate].
  - rewrite andb_true_iff. split; [discriminate |].
    intros [_ H]. apply IH in H. discriminate.
Qed.

Lemma all_trimStart (s : string) :
  Str.all Str.isSpace (Str.trimStart s) = Str.all Str.isSpace s.
Proof.
  induction s as [| c r IH]; cbn; [reflexivity |].
  destruct (Str.isSpace c) eqn:E; cbn; [exact IH | rewrite E; reflexivity].
Qed.

Lemma trim_empty (s : string) :
  Str.isEmpty (Str.trim s) = true <-> Str.all Str.isSpace s = true.
Proof. unfold Str.trim. rewrite trimEnd_empty, all_trimStart. reflexivity. Qed.

Lemma isBlank_iff (name : option string) : isBlank name = true <-> blank name.
Proof.
  unfold isBlank, blank. destruct name as [s |].
  - rewrite trim_empty. split; [intros H v [= <-]; exact H | auto].
  - split; [discriminate | reflexivity].
Qed.

Lemma docKey_trimStart (s : string) :
  Str.stripNonAlnum (Str.toLowerCase (Str.trimStart s))
  = Str.stripNonAlnum (Str.toLowerCase s).
Proof.
  induction s as [| c r IH]; cbn; [reflexivity |].
  destruct (Str.isSpace c) eqn:E; [| reflexivity].
  rewrite (space_not_alnum c E). exact IH.
Qed.

Lemma docKey_trimEnd (s : string) :
  Str.stripNonAlnum (Str.toLowerCase (Str.trimEnd s))
  = Str.stripNonAlnum (Str.toLowerCase s).
Proof.
  induction s as [| c r IH]; cbn; [reflexivity |].
  destruct (Str.trimEnd r) eqn:E; cbn in *.
  - destruct (Str.isSpace c) eqn:Ec; cbn.
    + rewrite (space_not_alnum c Ec). exact IH.
    + rewrite <- IH. reflexivity.
  - rewrite <- IH. reflexivity.
Qed.

Lemma docKey_trim (s : string) :
  Str.stripNonAlnum (Str.toLowerCase (Str.trim s))
  = Str.stripNonAlnum (Str.toLowerCase s).
Proof. unfold Str.trim. rewrite docKey_trimEnd. apply docKey_trimStart. Qed.

End Names.

Lemma clamp_clamped (v : jsval) : clamped v (clamp v).
Proof.
  destruct v as [| n | t]; cbn [clamped clamp]; [reflexivity | | exact I].
  intros Hn. exists (Num.max Num.zero n). split; [reflexivity |].
  split; [apply max_zero_ge; exact Hn |].
  unfold Num.max, Num.le, Num.zero.
  destruct n as [| [] | x]; cbn; try congruence; try (split; congruence).
  destruct (Num.Qlt_bool 0 x) eqn:E; cbn; split; intros H.
  - apply Qeq_bool_iff. reflexivity.
  - exfalso. num_bools. lra.
  - exact H.
  - reflexivity.
Qed.

(** C6, as the code has it.  For a draft whose location holds no array and
    a counter in the safe range, [createItem] fails exactly when the
    draft's name is missing, empty or white space only.  Otherwise the
    item it returns is the one it persists; the name is trimmed; each of
    on_hand, quantity and retail_price is absent when not provided, and
    when a number other than NaN is provided it is that number if at
    least 0 and 0 if negative; a missing description, supplier,
    count_date, count_person or delivery_date becomes the empty string and
    a missing location the empty list, while supplier_url is kept as
    provided, missing when it was missing; and the id is the name in lower
    case without the characters outside [a-z0-9], followed by the suffix
    the allocator returned, the counter plus 1. *)
Theorem createItem_persists (itemDraft : ItemDraft) (db : store) :
  hasNestedArray (default [] (d_location itemDraft)) = false ->
  safeCount (currentCount db) ->
  (isErr (fst (createItem itemDraft db)) = true <-> blank (d_name itemDraft)) /\
  (blank (d_name itemDraft) ->
   createItem itemDraft db = (Err (FailedToCreate NameRequired), db)) /\
  (forall name, d_name itemDraft = Some name -> ~ blank (Some name) ->
   exists item db',
     createItem itemDraft db = (Ok item, db') /\
     items db' !! id item = Some (data item) /\
     currentCount db' = currentCount db + 1 /\
     id item = Str.stripNonAlnum (Str.toLowerCase name) ++ Str.ofZ (currentCount db + 1) /\
     i_name (data item) = Str.trim name /\
     clamped (d_on_hand itemDraft) (i_on_hand (data item)) /\
     clamped (d_quantity itemDraft) (i_quantity (data item)) /\
     clamped (d_retail_price itemDraft) (i_retail_price (data item)) /\
     i_description (data item) = default "" (d_description itemDraft) /\
     i_supplier (data item) = default "" (d_supplier itemDraft) /\
     i_count_date (data item) = default "" (d_count_date itemDraft) /\
     i_count_person (data item) = default "" (d_count_person itemDraft) /\
     i_delivery_date (data item) = default "" (d_delivery_date itemDraft) /\
     i_location (data item) = default [] (d_location itemDraft) /\
     i_supplier_url (data item) = d_supplier_url itemDraft).
Proof.
  intros Hflat Hc.
  assert (Hnext : Num.roundInt (currentCount db + 1) = currentCount db + 1).
  { apply roundInt_small. unfold safeCount, Num.maxSafeInteger in Hc.
    change (2 ^ 53) with 9007199254740992. lia. }
  pose proof (createItem_cases itemDraft db) as Hcases. cbv zeta in Hcases.
  rewrite Hnext in Hcases.
  destruct Hcases as [(Hb & Heq) | [(_ & Hn & _) | (Hb & _ & Heq)]];
    [| congruence |]; rewrite Heq; cbn [fst snd isErr].
  - apply isBlank_iff in Hb. split; [tauto |]. split; [reflexivity |].
    intros name Hname Hnb. rewrite Hname in Hb. contradiction.
  - assert (Hnb : ~ blank (d_name itemDraft)).
    { rewrite <- isBlank_iff. congruence. }
    split; [split; [discriminate | contradiction] |].
    split; [contradiction |].
    intros name Hname _. do 2 eexists. split; [reflexivity |]. cbn [id data].
    split; [apply lookup_insert_eq |].
    split; [reflexivity |].
    split.
    { unfold buildItemDocId, validateDraft. cbn [i_name]. rewrite Hname.
      cbn [orEmpty default]. rewrite docKey_trim. reflexivity. }
    unfold validateDraft. cbn. rewrite Hname.
    repeat split; try reflexivity; apply clamp_clamped.
Qed.

Lemma createItem_persists_witness :
  exists item db',
    createItem plainDraft countedStore = (Ok item, db') /\
    items db' !! id item = Some (data item) /\
    currentCount db' = currentCount countedStore + 1 /\
    id item = Str.stripNonAlnum (Str.toLowerCase "  Red Valve ")
              ++ Str.ofZ (currentCount countedStore + 1) /\
    i_name (data item) = Str.trim "  Red Valve " /\
    clamped (d_on_hand plainDraft) (i_on_hand (data item)) /\
    clamped (d_quantity plainDraft) (i_quantity (data item)) /\
    clamped (d_retail_price plainDraft) (i_retail_price (data item)) /\
    i_description (data item) = default "" (d_description plainDraft) /\
    i_supplier (data item) = default "" (d_supplier plainDraft) /\
    i_count_date (data item) = default "" (d_count_date plainDraft) /\
    i_count_person (data item) = default "" (d_count_person plainDraft) /\
    i_delivery_date (data item) = default "" (d_delivery_date plainDraft) /\
    i_location (data item) = default [] (d_location plainDraft) /\
    i_supplier_url (data item) = d_supplier_url plainDraft.
Proof.
  apply (createItem_persists plainDraft countedStore).
  - reflexivity.
  - unfold safeCount, Num.maxSafeInteger. cbn. lia.
  - reflexivity.
  - intros Hb. specialize (Hb _ eq_refl). discriminate Hb.
Defined.

(** C6 fails on the code.  The draft has a name, numbers and no supplier
    URL: the item is created, persisted and returned with the supplier URL
    still missing, not the empty string. *)
Lemma createItem_counterexample :
  exists item db',
    createItem plainDraft emptyStore = (Ok item, db') /\
    items db' !! id item = Some (data item) /\
    id item = "redvalve1" /\
    d_supplier_url plainDraft = None /\
    i_supplier_url (data item) = None /\
    i_supplier_url (data item) <> Some "".
Proof.
  do 2 eexists. split; [reflexivity |]. cbn [id data].
  split; [apply lookup_insert_eq |]. repeat split. discriminate.
Qed.

(** ** Bulk import *)

Section RowValidation.













End RowValidation.

Section Buckets.






End Buckets.

Section Tolerance.





End Tolerance.



(** What [handleImportAll] makes of a row of the error bucket: a missing
    name becomes the placeholder, and a numeric field is the text of its
    cell whenever the row has that cell. *)
Lemma errorAsParsed_draft (err : CSVError) :
  (blank (row_data err !! "name") ->
   (forall v, row_data err !! "name" = Some v -> v = Str.trim v) ->
   d_name (draft (errorAsParsed err)) = Some "Untitled Item") /\
  (forall field v, In field numericFields -> row_data err !! field = Some v ->
   numericField field (draft (errorAsParsed err)) = JString v).
Proof.
  split.
  - intros Hb Ht. cbn. destruct (row_data err !! "name") as [v |] eqn:E; [| reflexivity].
    specialize (Hb v eq_refl). specialize (Ht v eq_refl). apply trim_empty in Hb.
    rewrite <- Ht in Hb. destruct v; [reflexivity | discriminate].
  - intros field v Hf Hv. cbn [In numericFields] in Hf.
    destruct Hf as [<- | [<- | [<- | []]]]; cbn; rewrite Hv; reflexivity.
Qed.

(** C8 against the code.  The first row of the file has on_hand = -1 and
    quantity = abc, neither of which parses to a number that is not
    negative, and the second has no name, so both are in the error bucket.
    "Import all" gives the second the placeholder name, but it does not
    drop the two fields of the first: the draft carries the text of the
    cells, and the item created from it has on_hand 0 and quantity NaN
    (and the price 2.5 of its third numeric cell). *)
Theorem importAll_stores_rejected_cells :
  exists err err' created db',
    parseCSV rejectedCsv = Some ([], [err; err']) /\
    row_errors err
      = ["on_hand must be a positive number"; "quantity must be a positive number"] /\
    row_errors err' = ["Name is required"] /\
    d_name (draft (errorAsParsed err')) = Some "Untitled Item" /\
    d_on_hand (draft (errorAsParsed err)) = JString "-1" /\
    d_quantity (draft (errorAsParsed err)) = JString "abc" /\
    d_retail_price (draft (errorAsParsed err)) = JString "2.5" /\
    handleImportAll [] [err; err'] emptyStore = (created, db') /\
    map id created = ["bolt1"; "untitleditem2"] /\
    (i_on_hand <$> items db' !! "bolt1") = Some (Some (Fin 0)) /\
    (i_quantity <$> items db' !! "bolt1") = Some (Some NaN) /\
    (i_retail_price <$> items db' !! "bolt1") = Some (Some (Fin (5 # 2))).
Proof.
  do 4 eexists. split; [vm_compute; reflexivity |].
  do 6 (split; [reflexivity |]). split; [vm_compute; reflexivity |].
  repeat split.
Qed.

(** ** The counter is never negative *)

Section Counter.

Lemma checkout_count uid itemId qty now db :
  metadataCount (snd (checkoutItem uid itemId qty now db)) = metadataCount db.
Proof.
  destruct (Num.le qty Num.zero) eqn:Hq.
  { rewrite checkout_not_positive by assumption. reflexivity. }
  destruct (items db !! itemId) as [d |] eqn:Hi.
  2: { rewrite checkout_not_found by assumption. reflexivity. }
  destruct (Num.lt (default Num.zero (i_on_hand d)) qty) eqn:Hlt.
  { rewrite (proj1 (checkout_insufficient uid itemId qty now db d Hq Hi Hlt)). reflexivity. }
  rewrite (checkout_success uid itemId qty now db d Hq Hi Hlt). reflexivity.
Qed.

Lemma return_count uid itemId qty now db :
  metadataCount (snd (returnItem uid itemId qty now db)) = metadataCount db.
Proof.
  destruct (Num.le qty Num.zero) eqn:Hq.
  { rewrite return_not_positive by assumption. reflexivity. }
  destruct (checkedOutItems db !! (uid, itemId)) as [e |] eqn:He.
  2: { rewrite (proj1 (return_no_record uid itemId qty now db Hq He)). reflexivity. }
  destruct (Num.gt qty (orZero (c_qty e))) eqn:Hgt.
  { rewrite (proj1 (return_excess uid itemId qty now db e Hq He Hgt)). reflexivity. }
  destruct (items db !! itemId) as [d |] eqn:Hi.
  2: { rewrite (return_item_missing uid itemId qty now db e Hq He Hgt Hi). reflexivity. }
  rewrite (return_success uid itemId qty now db e d Hq He Hgt Hi). reflexivity.
Qed.

Lemma perform_counter (o : operation) (db : store) :
  counterNotNegative db -> counterNotNegative (perform o db).
Proof.
  unfold counterNotNegative, currentCount. intros Hc.
  destruct o as [uid itemId qty now | uid itemId qty now | itemDraft | id patch | id];
    cbn [perform].
  - rewrite checkout_count. exact Hc.
  - rewrite return_count. exact Hc.
  - pose proof (roundInt_nonneg (currentCount db + 1)) as Hr.
    unfold currentCount in Hr.
    destruct (createItem_cases itemDraft db)
      as [(_ & ->) | [(_ & _ & ->) | (_ & _ & ->)]]; cbn [snd]; [exact Hc | |];
      cbn; unfold currentCount; lia.
  - destruct (updateItem_cases id patch db) as [(e & ->) | (d & _ & _ & ->)];
      exact Hc.
  - exact Hc.
Qed.

(** The allocator is the only writer of the counter, so the counter is
    non-negative in every state a history reaches from a database without
    a negative counter, the empty one for instance. *)
Lemma counter_never_negative (ops : list operation) (db : store) :
  counterNotNegative db -> Forall counterNotNegative (committedStates ops db).
Proof.
  revert db. induction ops as [| o rest IH]; intros db Hdb; cbn.
  - constructor; [exact Hdb | constructor].
  - constructor; [exact Hdb |]. apply IH. apply perform_counter. exact Hdb.
Qed.

End Counter.

(** * More of the code *)

(** ** Strings *)

Section StringFacts.

Lemma append_cons (x : ascii) (a b : string) : String x a ++ b = String x (a ++ b).
Proof. reflexivity. Qed.

Lemma append_nil_l (b : string) : "" ++ b = b.
Proof. reflexivity. Qed.

Lemma append_assoc (a b c : string) : (a ++ b) ++ c = a ++ (b ++ c).
Proof.
  induction a as [| x a IH]; [reflexivity |].
  rewrite !append_cons, IH. reflexivity.
Qed.

Lemma append_nil_r (a : string) : a ++ "" = a.
Proof.
  induction a as [| x a IH]; [reflexivity |]. rewrite append_cons, IH. reflexivity.
Qed.

Lemma append_inv_head (a b c : string) : a ++ b = a ++ c -> b = c.
Proof.
  induction a as [| x a IH]; [auto |]. rewrite !append_cons. intros [= H]. auto.
Qed.

Lemma all_app (p : ascii -> bool) (a b : string) :
  Str.all p (a ++ b) = Str.all p a && Str.all p b.
Proof.
  induction a as [| x a IH]; [reflexivity |].
  rewrite append_cons. cbn. rewrite IH, andb_assoc. reflexivity.
Qed.

Lemma span_app (p : ascii -> bool) (a b : string) :
  Str.all p a = true -> stops p b -> Str.span p (a ++ b) = (a, b).
Proof.
  intros Ha Hb. induction a as [| x a IH].
  - rewrite append_nil_l. destruct b as [| c b]; [reflexivity |].
    cbn in *. rewrite Hb. reflexivity.
  - rewrite append_cons. cbn in *.
    apply andb_true_iff in Ha as [Hx Ha]. rewrite Hx, (IH Ha). reflexivity.
Qed.

Lemma span_all (p : ascii -> bool) (a : string) :
  Str.all p a = true -> Str.span p a = (a, EmptyString).
Proof.
  intros Ha. rewrite <- (append_nil_r a) at 1. apply span_app; [exact Ha | exact I].
Qed.

Lemma span_spec (p : ascii -> bool) (s a b : string) :
  Str.span p s = (a, b) -> s = a ++ b /\ Str.all p a = true /\ stops p b.
Proof.
  revert a b. induction s as [| c s IH]; cbn; intros a b.
  - intros [= <- <-]. repeat split.
  - destruct (p c) eqn:Hc.
    + destruct (Str.span p s) as [a' b'] eqn:E. intros [= <- <-].
      destruct (IH a' b' eq_refl) as (-> & Ha & Hb).
      rewrite append_cons. cbn. rewrite Hc, Ha. repeat split. exact Hb.
    + intros [= <- <-]. cbn. repeat split. exact Hc.
Qed.

Lemma digits1_app (ds b : string) :
  Str.all Str.isDigit ds = true -> ds <> EmptyString -> stops Str.isDigit b ->
  digits1 (ds ++ b) = Some (ds, b).
Proof.
  intros Hd Hne Hb. unfold digits1. rewrite span_app by assumption.
  destruct ds; [congruence | reflexivity].
Qed.

Lemma digits1_all (ds : string) :
  Str.all Str.isDigit ds = true -> ds <> EmptyString ->
  digits1 ds = Some (ds, EmptyString).
Proof.
  intros Hd Hne. rewrite <- (append_nil_r ds) at 1. apply digits1_app; auto.
  exact I.
Qed.

Lemma digits1_spec (s ds r : string) :
  digits1 s = Some (ds, r) ->
  s = ds ++ r /\ ds <> EmptyString /\ Str.all Str.isDigit ds = true /\ stops Str.isDigit r.
Proof.
  unfold digits1. destruct (Str.span Str.isDigit s) as [a b] eqn:E.
  destruct a as [| x a]; cbn; [discriminate |]. intros [= <- <-].
  apply span_spec in E as (-> & Ha & Hb). repeat split; auto.
Qed.

Lemma search_spec {A : Type} (m : string -> option A) (s : string) (a : A) :
  search m s = Some a -> exists pre suf, s = pre ++ suf /\ m suf = Some a.
Proof.
  induction s as [| c s IH]; cbn.
  - destruct (m EmptyString) eqn:E; [| discriminate].
    intros [= <-]. exists EmptyString, EmptyString. auto.
  - destruct (m (String c s)) eqn:E.
    + intros [= <-]. exists EmptyString, (String c s). auto.
    + intros H. destruct (IH H) as (pre & suf & -> & Hm).
      exists (String c pre), suf. rewrite append_cons. auto.
Qed.

Lemma search_head {A : Type} (m : string -> option A) (s : string) (a : A) :
  m s = Some a -> search m s = Some a.
Proof. intros H. destruct s; cbn; rewrite H; reflexivity. Qed.

Lemma search_none {A : Type} (m : string -> option A) (s : string) :
  (forall suf, m suf = None) -> search m s = None.
Proof.
  intros H. induction s as [| c s IH]; cbn; rewrite H; [reflexivity | exact IH].
Qed.

End StringFacts.

(** ** Location codec: the legacy text, labels, the picker *)

Section LegacyLocations.

Lemma stripPrefixCI_self (tag rest : string) :
  Str.toLowerCase tag = tag -> Str.stripPrefixCI tag (tag ++ rest) = Some rest.
Proof.
  induction tag as [| a tag IH]; [reflexivity |].
  rewrite append_cons. cbn. intros [= Ha Htag]. rewrite Ha, Ascii.eqb_refl. auto.
Qed.

Lemma tagged_match (tag ds rest : string) :
  Str.toLowerCase tag = tag ->
  Str.all Str.isDigit ds = true -> ds <> EmptyString -> stops Str.isDigit rest ->
  tagged tag (tag ++ ds ++ rest) = Some (ds, rest).
Proof.
  intros Htag Hd Hne Hr. unfold tagged. rewrite stripPrefixCI_self by assumption.
  cbn. apply digits1_app; assumption.
Qed.

Lemma tagged_spec (tag s ds r : string) :
  tagged tag s = Some (ds, r) -> ds <> EmptyString /\ Str.all Str.isDigit ds = true.
Proof.
  unfold tagged. destruct (Str.stripPrefixCI tag s) as [t |]; cbn; [| discriminate].
  intros H. apply digits1_spec in H. tauto.
Qed.

Lemma cabRowCol_match (sep : ascii -> bool) (C R K rest : string) (s1 s2 : ascii) :
  Str.all Str.isDigit C = true -> C <> EmptyString ->
  Str.all Str.isDigit R = true -> R <> EmptyString ->
  Str.all Str.isDigit K = true -> K <> EmptyString ->
  sep s1 = true -> sep s2 = true ->
  Str.isDigit s1 = false -> Str.isDigit s2 = false -> stops Str.isDigit rest ->
  cabRowCol sep ("cab" ++ C ++ String s1 ("row" ++ R ++ String s2 ("col" ++ K ++ rest)))
  = Some (C, R, K).
Proof.
  intros HC HC' HR HR' HK HK' H1 H2 Hd1 Hd2 Hrest. unfold cabRowCol.
  rewrite tagged_match by (auto; reflexivity).
  cbn [mbind option_bind oneOf]. rewrite H1. cbn [mbind option_bind].
  rewrite tagged_match by (auto; reflexivity).
  cbn [mbind option_bind oneOf]. rewrite H2. cbn [mbind option_bind].
  rewrite tagged_match by (auto; reflexivity). reflexivity.
Qed.

Lemma cabRowCol_spec (sep : ascii -> bool) (s C R K : string) :
  cabRowCol sep s = Some (C, R, K) ->
  (C <> EmptyString /\ Str.all Str.isDigit C = true) /\
  (R <> EmptyString /\ Str.all Str.isDigit R = true) /\
  (K <> EmptyString /\ Str.all Str.isDigit K = true).
Proof.
  unfold cabRowCol.
  destruct (tagged "cab" s) as [[c r1] |] eqn:E1; cbn [mbind option_bind]; [| discriminate].
  destruct (oneOf sep r1) as [r2 |]; cbn [mbind option_bind]; [| discriminate].
  destruct (tagged "row" r2) as [[r r3] |] eqn:E2; cbn [mbind option_bind]; [| discriminate].
  destruct (oneOf sep r3) as [r4 |]; cbn [mbind option_bind]; [| discriminate].
  destruct (tagged "col" r4) as [[k r5] |] eqn:E3; cbn [mbind option_bind]; [| discriminate].
  intros [= <- <- <-].
  apply tagged_spec in E1, E2, E3. tauto.
Qed.

Lemma legacy_text (C R K : string) :
  Str.all Str.isDigit C = true -> C <> EmptyString ->
  Str.all Str.isDigit R = true -> R <> EmptyString ->
  Str.all Str.isDigit K = true -> K <> EmptyString ->
  parseLocation (LocString ("cab" ++ C ++ "-row" ++ R ++ "-col" ++ K))
  = Some {| cabinet := C; row := R; col := K |}.
Proof.
  intros HC HC' HR HR' HK HK'.
  pose proof (cabRowCol_match isDash C R K EmptyString "-" "-"
                HC HC' HR HR' HK HK' eq_refl eq_refl eq_refl eq_refl I) as Hm.
  rewrite append_nil_r in Hm.
  change (String "-" ("row" ++ R ++ String "-" ("col" ++ K)))
    with ("-row" ++ R ++ "-col" ++ K) in Hm.
  unfold parseLocation.
  rewrite (search_head _ _ _ Hm).
  change ("cab" ++ C ++ "-row" ++ R ++ "-col" ++ K)
    with (String "c" ("ab" ++ C ++ "-row" ++ R ++ "-col" ++ K)).
  reflexivity.
Qed.

Lemma parse_tagged_array (C R K : string) :
  Str.all Str.isDigit C = true -> C <> EmptyString ->
  Str.all Str.isDigit R = true -> R <> EmptyString ->
  Str.all Str.isDigit K = true -> K <> EmptyString ->
  parseLocation (LocArray ["cab" ++ C; "row" ++ R; "col" ++ K])
  = Some {| cabinet := C; row := R; col := K |}.
Proof.
  intros HC HC' HR HR' HK HK'. unfold parseLocation.
  change ("cab" ++ C) with (String "c" (String "a" (String "b" C))).
  change ("row" ++ R) with (String "r" (String "o" (String "w" R))).
  change ("col" ++ K) with (String "c" (String "o" (String "l" K))).
  rewrite !extract_tagged; auto.
Qed.

End LegacyLocations.

(** X1.  For all runs of digits N, M and P, the legacy text
    [cabN-rowM-colP] and the array [[cabN, rowM, colP]] decode to the same
    triple, (N, M, P). *)
Theorem legacy_string_decodes_like_array (N M P : string) :
  digitString N -> digitString M -> digitString P ->
  parseLocation (LocString ("cab" ++ N ++ "-row" ++ M ++ "-col" ++ P))
  = parseLocation (LocArray ["cab" ++ N; "row" ++ M; "col" ++ P]) /\
  parseLocation (LocArray ["cab" ++ N; "row" ++ M; "col" ++ P])
  = Some {| cabinet := N; row := M; col := P |}.
Proof.
  intros [HN' HN] [HM' HM] [HP' HP].
  rewrite parse_tagged_array by assumption. split; [| reflexivity].
  apply legacy_text; assumption.
Qed.

Lemma legacy_string_decodes_like_array_witness :
  parseLocation (LocString ("cab" ++ "2" ++ "-row" ++ "13" ++ "-col" ++ "4"))
  = parseLocation (LocArray ["cab" ++ "2"; "row" ++ "13"; "col" ++ "4"]) /\
  parseLocation (LocArray ["cab" ++ "2"; "row" ++ "13"; "col" ++ "4"])
  = Some {| cabinet := "2"; row := "13"; col := "4" |}.
Proof.
  apply (legacy_string_decodes_like_array "2" "13" "4");
    (split; [discriminate | reflexivity]).
Defined.

Lemma digits_not_dash (s : string) :
  s <> EmptyString -> Str.all Str.isDigit s = true -> s <> "-".
Proof. intros _ H ->. discriminate. Qed.

(** X2.  Whatever text is decoded, each component of the result is a
    non-empty run of digits or the placeholder ["-"], and the three are
    never all placeholders. *)
Theorem legacy_components (s : string) (p : ParsedLocation) :
  parseLocation (LocString s) = Some p ->
  digitsOrDash (cabinet p) /\ digitsOrDash (row p) /\ digitsOrDash (col p) /\
  ~ (cabinet p = "-" /\ row p = "-" /\ col p = "-").
Proof.
  unfold parseLocation. destruct s as [| ch s]; [discriminate |].
  set (str := String ch s).
  destruct (search (cabRowCol isDash) str) as [[[C R] K] |] eqn:E.
  - intros [= <-]. cbn [cabinet row col].
    apply search_spec in E as (pre & suf & _ & E).
    apply cabRowCol_spec in E as ((HC & HC') & (HR & HR') & (HK & HK')).
    unfold digitsOrDash. repeat split; auto.
    intros (Hd & _). exact (digits_not_dash C HC HC' Hd).
  - assert (Hor : forall tag m, search (tagged tag) str = m -> digitsOrDash (orDash m)).
    { intros tag [[d r] |] Hm; cbn; [| left; reflexivity].
      apply search_spec in Hm as (pre & suf & _ & Hm).
      apply tagged_spec in Hm. right. exact Hm. }
    assert (Hnd : forall tag m, search (tagged tag) str = m -> is_Some m -> orDash m <> "-").
    { intros tag [[d r] |] Hm [x Hx]; [| discriminate]. cbn.
      apply search_spec in Hm as (pre & suf & _ & Hm).
      apply tagged_spec in Hm as [Hne Hd]. exact (digits_not_dash d Hne Hd). }
    destruct (bool_decide (is_Some (search (tagged "cab") str))
              || bool_decide (is_Some (search (tagged "row") str))
              || bool_decide (is_Some (search (tagged "col") str))) eqn:Hany;
      [| discriminate].
    intros [= <-]. cbn [cabinet row col].
    split; [eapply Hor; reflexivity |].
    split; [eapply Hor; reflexivity |].
    split; [eapply Hor; reflexivity |].
    intros (Hc & Hr & Hk).
    apply orb_true_iff in Hany as [Hany | Hany];
      [apply orb_true_iff in Hany as [Hany | Hany] |];
      apply bool_decide_eq_true in Hany.
    + exact (Hnd "cab" _ eq_refl Hany Hc).
    + exact (Hnd "row" _ eq_refl Hany Hr).
    + exact (Hnd "col" _ eq_refl Hany Hk).
Qed.

Lemma legacy_components_witness :
  digitsOrDash "-" /\ digitsOrDash "12" /\ digitsOrDash "-" /\
  ~ ("-" = "-" /\ "12" = "-" /\ "-" = "-").
Proof.
  exact (legacy_components "shelf row12" {| cabinet := "-"; row := "12"; col := "-" |}
           eq_refl).
Defined.

(** X3.  For all runs of digits N, M and P, the label of a location is
    the same whether the location is stored as the array
    [[cabN, rowM, colP]] or as a one-element array with the legacy text
    [cabN-rowM-colP]: ["Cab N . Row M . Col P"], with middle dots. *)
Theorem label_of_location (N M P : string) :
  digitString N -> digitString M -> digitString P ->
  formatLocationLabel ["cab" ++ N; "row" ++ M; "col" ++ P]
  = "Cab " ++ N ++ labelSep ++ "Row " ++ M ++ labelSep ++ "Col " ++ P /\
  formatLocationLabel ["cab" ++ N ++ "-row" ++ M ++ "-col" ++ P]
  = formatLocationLabel ["cab" ++ N; "row" ++ M; "col" ++ P].
Proof.
  intros [HN' HN] [HM' HM] [HP' HP].
  assert (Ha : formatLocationLabel ["cab" ++ N; "row" ++ M; "col" ++ P]
               = "Cab " ++ N ++ labelSep ++ "Row " ++ M ++ labelSep ++ "Col " ++ P).
  { unfold formatLocationLabel. rewrite parse_tagged_array by assumption. reflexivity. }
  split; [exact Ha |]. rewrite Ha. unfold formatLocationLabel.
  change (parseLocation (LocArray ["cab" ++ N ++ "-row" ++ M ++ "-col" ++ P]))
    with (parseLocation (LocString ("cab" ++ N ++ "-row" ++ M ++ "-col" ++ P))).
  rewrite legacy_text by assumption. reflexivity.
Qed.

Lemma label_of_location_witness :
  formatLocationLabel ["cab" ++ "2"; "row" ++ "13"; "col" ++ "4"]
  = "Cab " ++ "2" ++ labelSep ++ "Row " ++ "13" ++ labelSep ++ "Col " ++ "4" /\
  formatLocationLabel ["cab" ++ "2" ++ "-row" ++ "13" ++ "-col" ++ "4"]
  = formatLocationLabel ["cab" ++ "2"; "row" ++ "13"; "col" ++ "4"].
Proof.
  apply (label_of_location "2" "13" "4"); (split; [discriminate | reflexivity]).
Defined.

(** X4.  The location list of an item form never gets a duplicate from the
    picker: if the entries are pairwise distinct (compared as the picker
    compares them, joined with dashes) they still are after Add; a
    location already listed is not added again; and pressing Add twice
    adds once. *)
Theorem picker_adds_no_duplicate (locations : list (list string)) (c r k : Z) :
  NoDup (map (Str.join "-") locations) ->
  NoDup (map (Str.join "-") (addLocation locations c r k)) /\
  NoDup (addLocation locations c r k) /\
  (In (buildLocationArray c r k) locations -> addLocation locations c r k = locations) /\
  addLocation (addLocation locations c r k) c r k = addLocation locations c r k.
Proof.
  intros Hnd.
  assert (Hstep : forall l, NoDup (map (Str.join "-") l) ->
                            NoDup (map (Str.join "-") (addLocation l c r k))).
  { intros l Hl. unfold addLocation.
    destruct (handleAdd l c r k) as [locArr |] eqn:E; [| exact Hl].
    pose proof (handleAdd_Some _ _ _ _ _ E) as ->.
    rewrite map_app. apply NoDup_app. split; [exact Hl |]. split.
    - intros x Hx Hx'. cbn in Hx'. apply list_elem_of_In in Hx, Hx'.
      destruct Hx' as [<- | []].
      apply handleAdd_None in Hx. congruence.
    - cbn. apply NoDup_singleton. }
  assert (Hdup : In (buildLocationArray c r k) locations ->
                 addLocation locations c r k = locations).
  { intros Hin. unfold addLocation.
    assert (Hn : handleAdd locations c r k = None).
    { apply handleAdd_None. apply in_map. exact Hin. }
    rewrite Hn. reflexivity. }
  split; [apply Hstep; exact Hnd |].
  split; [eapply NoDup_fmap_1; apply Hstep; exact Hnd |].
  split; [exact Hdup |].
  unfold addLocation at 2 3.
  destruct (handleAdd locations c r k) as [locArr |] eqn:E.
  - pose proof (handleAdd_Some _ _ _ _ _ E) as ->.
    unfold addLocation.
    assert (Hn : handleAdd (locations ++ [buildLocationArray c r k]) c r k = None).
    { apply handleAdd_None. apply in_map. apply in_or_app. right. left. reflexivity. }
    rewrite Hn. reflexivity.
  - unfold addLocation. rewrite E. reflexivity.
Qed.

Lemma picker_adds_no_duplicate_witness :
  NoDup (map (Str.join "-") (addLocation [["cab1"; "row1"; "col1"]] 1 2 3)) /\
  NoDup (addLocation [["cab1"; "row1"; "col1"]] 1 2 3) /\
  (In (buildLocationArray 1 2 3) [["cab1"; "row1"; "col1"]] ->
   addLocation [["cab1"; "row1"; "col1"]] 1 2 3 = [["cab1"; "row1"; "col1"]]) /\
  addLocation (addLocation [["cab1"; "row1"; "col1"]] 1 2 3) 1 2 3
  = addLocation [["cab1"; "row1"; "col1"]] 1 2 3.
Proof.
  apply (picker_adds_no_duplicate [["cab1"; "row1"; "col1"]] 1 2 3).
  cbn. apply NoDup_singleton.
Defined.

(** ** Locations in a CSV file *)

Section CsvLocations.

Lemma all_impl (p q : ascii -> bool) (s : string) :
  (forall ch, p ch = true -> q ch = true) ->
  Str.all p s = true -> Str.all q s = true.
Proof.
  intros Hpq. induction s as [| ch s IH]; cbn; [reflexivity |].
  rewrite !andb_true_iff. intros [Hc Hs]. auto.
Qed.

Lemma digit_plain (ch : ascii) : Str.isDigit ch = true -> plain ch = true.
Proof. destruct ch as [[] [] [] [] [] [] [] []]; vm_compute; congruence. Qed.

Lemma digit_not_sep (ch : ascii) : Str.isDigit ch = true -> isCommaOrSpace ch = false.
Proof. destruct ch as [[] [] [] [] [] [] [] []]; vm_compute; congruence. Qed.

Lemma digits_stop_seps (ds rest : string) :
  Str.all Str.isDigit ds = true -> ds <> EmptyString ->
  stops isCommaOrSpace (ds ++ rest).
Proof.
  destruct ds as [| d ds]; [congruence |]. rewrite append_cons. cbn.
  rewrite andb_true_iff. intros [Hd _] _. apply digit_not_sep. exact Hd.
Qed.

Lemma search_cab_none (sep : ascii -> bool) (s : string) :
  Str.all plain s = true -> search (cabRowCol sep) s = None.
Proof.
  induction s as [| ch s IH]; [reflexivity |]. cbn [Str.all].
  rewrite andb_true_iff. intros [Hc Hs]. cbn [search].
  assert (Hm : cabRowCol sep (String ch s) = None).
  { unfold cabRowCol, tagged. cbn [Str.stripPrefixCI].
    unfold plain in Hc. apply andb_true_iff in Hc as [_ Hc].
    apply negb_true_iff in Hc. rewrite Hc. reflexivity. }
  rewrite Hm. auto.
Qed.

Lemma trimEnd_plain (s : string) :
  Str.all (fun ch => negb (Str.isSpace ch)) s = true -> Str.trimEnd s = s.
Proof.
  induction s as [| ch s IH]; [reflexivity |]. cbn.
  rewrite andb_true_iff, negb_true_iff. intros [Hc Hs]. rewrite (IH Hs).
  destruct s; [rewrite Hc |]; reflexivity.
Qed.

Lemma trim_plain (s : string) :
  Str.all (fun ch => negb (Str.isSpace ch)) s = true -> Str.trim s = s.
Proof.
  intros H. unfold Str.trim.
  assert (Hs : Str.trimStart s = s).
  { destruct s as [| ch s]; [reflexivity |]. cbn in *.
    apply andb_true_iff in H as [Hc _]. apply negb_true_iff in Hc.
    rewrite Hc. reflexivity. }
  rewrite Hs. apply trimEnd_plain. exact H.
Qed.

Lemma seps1_comma (ds rest : string) :
  Str.all Str.isDigit ds = true -> ds <> EmptyString ->
  seps1 (String "," (ds ++ rest)) = Some (ds ++ rest).
Proof.
  intros Hd Hne. unfold seps1.
  change (String "," (ds ++ rest)) with ("," ++ (ds ++ rest)).
  rewrite span_app; [reflexivity | reflexivity | apply digits_stop_seps; assumption].
Qed.

Lemma threeNumbers_match (C R K : string) :
  Str.all Str.isDigit C = true -> C <> EmptyString ->
  Str.all Str.isDigit R = true -> R <> EmptyString ->
  Str.all Str.isDigit K = true -> K <> EmptyString ->
  threeNumbers (C ++ "," ++ R ++ "," ++ K) = Some (C, R, K).
Proof.
  intros HC HC' HR HR' HK HK'. unfold threeNumbers.
  change ("," ++ R ++ "," ++ K) with (String "," (R ++ String "," K)).
  rewrite digits1_app by (auto; reflexivity). cbn [mbind option_bind].
  rewrite seps1_comma by assumption. cbn [mbind option_bind].
  rewrite digits1_app by (auto; reflexivity). cbn [mbind option_bind].
  rewrite <- (append_nil_r K) at 1.
  rewrite seps1_comma by assumption. cbn [mbind option_bind].
  rewrite append_nil_r, digits1_all by assumption. reflexivity.
Qed.

Lemma threeNumbers_spec (s C R K : string) :
  threeNumbers s = Some (C, R, K) ->
  (C <> EmptyString /\ Str.all Str.isDigit C = true) /\
  (R <> EmptyString /\ Str.all Str.isDigit R = true) /\
  (K <> EmptyString /\ Str.all Str.isDigit K = true).
Proof.
  unfold threeNumbers.
  destruct (digits1 s) as [[a r1] |] eqn:E1; cbn [mbind option_bind]; [| discriminate].
  destruct (seps1 r1) as [r2 |]; cbn [mbind option_bind]; [| discriminate].
  destruct (digits1 r2) as [[b r3] |] eqn:E2; cbn [mbind option_bind]; [| discriminate].
  destruct (seps1 r3) as [r4 |]; cbn [mbind option_bind]; [| discriminate].
  destruct (digits1 r4) as [[c r5] |] eqn:E3; cbn [mbind option_bind]; [| discriminate].
  destruct (Str.isEmpty r5); [| discriminate]. intros [= <- <- <-].
  apply digits1_spec in E1, E2, E3. tauto.
Qed.

Lemma bare_numbers_plain (C R K : string) :
  Str.all Str.isDigit C = true -> Str.all Str.isDigit R = true ->
  Str.all Str.isDigit K = true ->
  Str.all plain (C ++ "," ++ R ++ "," ++ K) = true.
Proof.
  intros HC HR HK.
  assert (Hd : forall s, Str.all Str.isDigit s = true -> Str.all plain s = true).
  { intros s. apply all_impl. exact digit_plain. }
  rewrite !all_app, !andb_true_iff.
  repeat split; try reflexivity; apply Hd; assumption.
Qed.

Lemma plain_not_space (s : string) :
  Str.all plain s = true -> Str.all (fun ch => negb (Str.isSpace ch)) s = true.
Proof.
  apply all_impl. intros ch H. unfold plain in H. apply andb_true_iff in H. tauto.
Qed.

End CsvLocations.

(** X5.  For all runs of digits N, M and P, the importer reads a location
    written as [cabN-rowM-colP], as [cabN,rowM,colP] or as the bare
    numbers [N,M,P], and each time yields the array [[cabN, rowM, colP]];
    that array joined with dashes is read back as itself. *)
Theorem csv_location_forms (N M P : string) :
  digitString N -> digitString M -> digitString P ->
  parseLocationFromCSV ("cab" ++ N ++ "-row" ++ M ++ "-col" ++ P)
  = Some ["cab" ++ N; "row" ++ M; "col" ++ P] /\
  parseLocationFromCSV ("cab" ++ N ++ ",row" ++ M ++ ",col" ++ P)
  = Some ["cab" ++ N; "row" ++ M; "col" ++ P] /\
  parseLocationFromCSV (N ++ "," ++ M ++ "," ++ P)
  = Some ["cab" ++ N; "row" ++ M; "col" ++ P] /\
  parseLocationFromCSV (Str.join "-" ["cab" ++ N; "row" ++ M; "col" ++ P])
  = Some ["cab" ++ N; "row" ++ M; "col" ++ P].
Proof.
  intros [HC' HC] [HR' HR] [HK' HK].
  assert (Hdash :
            parseLocationFromCSV ("cab" ++ N ++ "-row" ++ M ++ "-col" ++ P)
            = Some ["cab" ++ N; "row" ++ M; "col" ++ P]).
  { pose proof (cabRowCol_match isDashOrComma _ _ _ EmptyString "-" "-"
                  HC HC' HR HR' HK HK' eq_refl eq_refl eq_refl eq_refl I) as Hm.
    rewrite append_nil_r in Hm.
    unfold parseLocationFromCSV.
    change ("-row" ++ M ++ "-col" ++ P)
      with (String "-" ("row" ++ M ++ String "-" ("col" ++ P))).
    rewrite (search_head _ _ _ Hm). reflexivity. }
  split; [exact Hdash |]. split; [| split].
  - pose proof (cabRowCol_match isDashOrComma _ _ _ EmptyString "," ","
                  HC HC' HR HR' HK HK' eq_refl eq_refl eq_refl eq_refl I) as Hm.
    rewrite append_nil_r in Hm.
    unfold parseLocationFromCSV.
    change (",row" ++ M ++ ",col" ++ P)
      with (String "," ("row" ++ M ++ String "," ("col" ++ P))).
    rewrite (search_head _ _ _ Hm). reflexivity.
  - unfold parseLocationFromCSV.
    pose proof (bare_numbers_plain _ _ _ HC HR HK) as Hp.
    rewrite search_cab_none by exact Hp.
    rewrite trim_plain by (apply plain_not_space; exact Hp).
    rewrite threeNumbers_match by assumption. reflexivity.
  - assert (Hj : Str.join "-" ["cab" ++ N; "row" ++ M; "col" ++ P]
                 = "cab" ++ N ++ "-row" ++ M ++ "-col" ++ P).
    { cbn [Str.join]. rewrite !append_assoc. reflexivity. }
    rewrite Hj. exact Hdash.
Qed.

Lemma csv_location_forms_witness :
  parseLocationFromCSV ("cab" ++ "1" ++ "-row" ++ "12" ++ "-col" ++ "3")
  = Some ["cab" ++ "1"; "row" ++ "12"; "col" ++ "3"] /\
  parseLocationFromCSV ("cab" ++ "1" ++ ",row" ++ "12" ++ ",col" ++ "3")
  = Some ["cab" ++ "1"; "row" ++ "12"; "col" ++ "3"] /\
  parseLocationFromCSV ("1" ++ "," ++ "12" ++ "," ++ "3")
  = Some ["cab" ++ "1"; "row" ++ "12"; "col" ++ "3"] /\
  parseLocationFromCSV (Str.join "-" ["cab" ++ "1"; "row" ++ "12"; "col" ++ "3"])
  = Some ["cab" ++ "1"; "row" ++ "12"; "col" ++ "3"].
Proof.
  apply (csv_location_forms "1" "12" "3"); (split; [discriminate | reflexivity]).
Defined.

(** X6.  Every location the importer accepts is one the codec decodes:
    the array it yields is [[cab a, row b, col c]] for non-empty runs of
    digits a, b and c, and [parseLocation] maps it back to (a, b, c). *)
Theorem csv_location_decodes (locStr : string) (arr : list string) :
  parseLocationFromCSV locStr = Some arr ->
  exists a b c,
    arr = ["cab" ++ a; "row" ++ b; "col" ++ c] /\
    digitsOrDash a /\ a <> "-" /\ digitsOrDash b /\ b <> "-" /\
    digitsOrDash c /\ c <> "-" /\
    parseLocation (LocArray arr) = Some {| cabinet := a; row := b; col := c |}.
Proof.
  unfold parseLocationFromCSV.
  assert (Hgo : forall a b c,
            (a <> EmptyString /\ Str.all Str.isDigit a = true) /\
            (b <> EmptyString /\ Str.all Str.isDigit b = true) /\
            (c <> EmptyString /\ Str.all Str.isDigit c = true) ->
            Some (tagTriple (a, b, c)) = Some arr ->
            exists a b c,
              arr = ["cab" ++ a; "row" ++ b; "col" ++ c] /\
              digitsOrDash a /\ a <> "-" /\ digitsOrDash b /\ b <> "-" /\
              digitsOrDash c /\ c <> "-" /\
              parseLocation (LocArray arr) = Some {| cabinet := a; row := b; col := c |}).
  { intros a b c ((Ha' & Ha) & (Hb' & Hb) & (Hc' & Hc)) [= <-].
    exists a, b, c. cbn [tagTriple]. unfold digitsOrDash.
    repeat split; auto using digits_not_dash.
    apply parse_tagged_array; assumption. }
  destruct (search (cabRowCol isDashOrComma) locStr) as [[[a b] c] |] eqn:E.
  - apply search_spec in E as (pre & suf & _ & E).
    apply cabRowCol_spec in E. apply Hgo. exact E.
  - destruct (threeNumbers (Str.trim locStr)) as [[[a b] c] |] eqn:E'; [| discriminate].
    apply threeNumbers_spec in E'. apply Hgo. exact E'.
Qed.

Lemma csv_location_decodes_witness :
  exists a b c,
    ["cab7"; "row8"; "col9"] = ["cab" ++ a; "row" ++ b; "col" ++ c] /\
    digitsOrDash a /\ a <> "-" /\ digitsOrDash b /\ b <> "-" /\
    digitsOrDash c /\ c <> "-" /\
    parseLocation (LocArray ["cab7"; "row8"; "col9"])
    = Some {| cabinet := a; row := b; col := c |}.
Proof.
  exact (csv_location_decodes " 7, 8 ,9 " ["cab7"; "row8"; "col9"] eq_refl).
Defined.

(** ** Dates *)

Section Dates.

Lemma digitsN_spec (n : nat) (s ds r : string) :
  digitsN n s = Some (ds, r) ->
  s = ds ++ r /\ String.length ds = n /\ Str.all Str.isDigit ds = true.
Proof.
  revert s ds r. induction n as [| n IH]; intros s ds r; cbn [digitsN].
  - intros [= <- <-]. repeat split.
  - destruct s as [| ch s]; [discriminate |].
    destruct (Str.isDigit ch) eqn:Hc; [| discriminate].
    destruct (digitsN n s) as [[ds' r'] |] eqn:E; cbn [mbind option_bind]; [| discriminate].
    intros [= <- <-]. destruct (IH _ _ _ E) as (-> & Hl & Hd).
    rewrite append_cons. cbn. rewrite Hc, Hl, Hd. repeat split.
Qed.

Lemma digitsN_app (ds r : string) :
  Str.all Str.isDigit ds = true -> digitsN (String.length ds) (ds ++ r) = Some (ds, r).
Proof.
  induction ds as [| ch ds IH]; [reflexivity |]. cbn [Str.all String.length].
  rewrite andb_true_iff. intros [Hc Hd]. rewrite append_cons. cbn [digitsN].
  rewrite Hc, (IH Hd). reflexivity.
Qed.

Lemma dateParts_spec (a b c : nat) (s x y z : string) :
  dateParts a b c s = Some (x, y, z) ->
  s = x ++ "-" ++ y ++ "-" ++ z /\
  (String.length x = a /\ Str.all Str.isDigit x = true) /\
  (String.length y = b /\ Str.all Str.isDigit y = true) /\
  (String.length z = c /\ Str.all Str.isDigit z = true).
Proof.
  unfold dateParts.
  destruct (digitsN a s) as [[x' r1] |] eqn:E1; cbn [mbind option_bind]; [| discriminate].
  destruct r1 as [| d1 r2]; cbn [oneOf mbind option_bind]; [discriminate |].
  destruct (isDash d1) eqn:Hd1; cbn [mbind option_bind]; [| discriminate].
  destruct (digitsN b r2) as [[y' r3] |] eqn:E2; cbn [mbind option_bind]; [| discriminate].
  destruct r3 as [| d2 r4]; cbn [oneOf mbind option_bind]; [discriminate |].
  destruct (isDash d2) eqn:Hd2; cbn [mbind option_bind]; [| discriminate].
  destruct (digitsN c r4) as [[z' r5] |] eqn:E3; cbn [mbind option_bind]; [| discriminate].
  destruct r5; cbn [Str.isEmpty]; [| discriminate]. intros [= <- <- <-].
  apply Ascii.eqb_eq in Hd1, Hd2. subst d1 d2.
  apply digitsN_spec in E1 as (-> & Hx), E2 as (-> & Hy), E3 as (-> & Hz).
  rewrite append_nil_r. repeat split; tauto.
Qed.

Lemma oneOf_dash (r : string) : oneOf isDash (String "-" r) = Some r.
Proof. reflexivity. Qed.

Lemma dateParts_match (x y z : string) :
  Str.all Str.isDigit x = true -> Str.all Str.isDigit y = true ->
  Str.all Str.isDigit z = true ->
  dateParts (String.length x) (String.length y) (String.length z)
    (x ++ "-" ++ y ++ "-" ++ z) = Some (x, y, z).
Proof.
  intros Hx Hy Hz. unfold dateParts.
  rewrite digitsN_app by assumption. cbn [mbind option_bind].
  change ("-" ++ y ++ "-" ++ z) with (String "-" (y ++ "-" ++ z)).
  rewrite oneOf_dash. cbn [mbind option_bind].
  rewrite digitsN_app by assumption. cbn [mbind option_bind].
  change ("-" ++ z) with (String "-" z).
  rewrite oneOf_dash. cbn [mbind option_bind].
  rewrite <- (append_nil_r z) at 2. rewrite digitsN_app by assumption. reflexivity.
Qed.

(** A text whose third character is a dash has no four digits in front. *)
Lemma short_head_not_ymd (x rest : string) :
  String.length x = 2%nat -> dateParts 4 2 2 (x ++ "-" ++ rest) = None.
Proof.
  destruct x as [| c1 [| c2 [| c3 x]]]; try discriminate. intros _.
  unfold dateParts. rewrite !append_cons, append_nil_l. cbn [digitsN].
  destruct (Str.isDigit c1); [| reflexivity].
  destruct (Str.isDigit c2); reflexivity.
Qed.

(** A text that begins with four digits has no dash in third place. *)
Lemma long_head_not_mdy (x rest : string) :
  String.length x = 4%nat -> Str.all Str.isDigit x = true ->
  dateParts 2 2 4 (x ++ rest) = None.
Proof.
  destruct x as [| c1 [| c2 [| c3 [| c4 [| c5 x]]]]]; try discriminate. intros _.
  cbn [Str.all]. rewrite !andb_true_iff. intros (H1 & H2 & H3 & _).
  unfold dateParts. rewrite !append_cons. cbn [digitsN].
  rewrite H1, H2. cbn [mbind option_bind oneOf].
  assert (Hd : isDash c3 = false).
  { unfold isDash. destruct (Ascii.eqb_spec c3 "-") as [-> |]; [discriminate | reflexivity]. }
  rewrite Hd. reflexivity.
Qed.

Lemma toStorageDateFormat_eq (dateStr : string) :
  toStorageDateFormat dateStr
  = match dateParts 4 2 2 dateStr with
    | Some (year, month, day) => month ++ "-" ++ day ++ "-" ++ year
    | None => dateStr
    end.
Proof. reflexivity. Qed.

End Dates.

(** X7.  Converting a date to the storage format twice is converting it
    once: a date that is saved again is not changed again. *)
Theorem toStorageDateFormat_idempotent (dateStr : string) :
  toStorageDateFormat (toStorageDateFormat dateStr) = toStorageDateFormat dateStr.
Proof.
  rewrite (toStorageDateFormat_eq dateStr).
  destruct (dateParts 4 2 2 dateStr) as [[[year month] day] |] eqn:E.
  - apply dateParts_spec in E as (_ & _ & (Hm & _) & _).
    rewrite toStorageDateFormat_eq, short_head_not_ymd by exact Hm. reflexivity.
  - rewrite toStorageDateFormat_eq, E. reflexivity.
Qed.

(** X8.  The two date formats convert into each other without loss: a
    date YYYY-MM-DD survives the way to storage and back, a stored date
    MM-DD-YYYY the way to the input field and back, and a date already
    in the format asked for is returned as it is.  [new Date] is never
    asked on these paths. *)
Theorem date_formats_round_trip (dateFallback : string -> string) (dateStr : string) :
  (is_Some (dateParts 4 2 2 dateStr) ->
   toInputDateFormat dateFallback (toStorageDateFormat dateStr) = dateStr /\
   toInputDateFormat dateFallback dateStr = dateStr) /\
  (is_Some (dateParts 2 2 4 dateStr) ->
   toStorageDateFormat (toInputDateFormat dateFallback dateStr) = dateStr /\
   toStorageDateFormat dateStr = dateStr).
Proof.
  split.
  - intros [[[year month] day] E].
    assert (Hin : toInputDateFormat dateFallback dateStr = dateStr).
    { unfold toInputDateFormat. rewrite E.
      destruct dateStr; [reflexivity |]. cbn [Str.isEmpty].
      rewrite bool_decide_eq_true_2 by eauto. reflexivity. }
    split; [| exact Hin].
    rewrite toStorageDateFormat_eq, E.
    apply dateParts_spec in E as (-> & (Hy & Hy') & (Hm & Hm') & (Hd & Hd')).
    unfold toInputDateFormat.
    rewrite short_head_not_ymd by exact Hm.
    rewrite bool_decide_eq_false_2 by (intros [? ?]; discriminate).
    pose proof (dateParts_match month day year Hm' Hd' Hy') as Hmatch.
    rewrite Hm, Hd, Hy in Hmatch. rewrite Hmatch.
    destruct month as [| c1 month]; [discriminate |]. reflexivity.
  - intros [[[month day] year] E].
    pose proof E as E'.
    apply dateParts_spec in E' as (Hs & (Hm & Hm') & (Hd & Hd') & (Hy & Hy')).
    assert (Hnot : dateParts 4 2 2 dateStr = None).
    { rewrite Hs. apply short_head_not_ymd. exact Hm. }
    split; [| rewrite toStorageDateFormat_eq, Hnot; reflexivity].
    unfold toInputDateFormat. rewrite Hnot, E.
    rewrite bool_decide_eq_false_2 by (intros [? ?]; discriminate).
    assert (Hne : Str.isEmpty dateStr = false).
    { rewrite Hs. destruct month; [discriminate | reflexivity]. }
    rewrite Hne, toStorageDateFormat_eq.
    pose proof (dateParts_match year month day Hy' Hm' Hd') as Hmatch.
    rewrite Hy, Hm, Hd in Hmatch. rewrite Hmatch. symmetry. exact Hs.
Qed.

Lemma date_formats_round_trip_witness :
  (toInputDateFormat (fun _ => "") (toStorageDateFormat "2024-01-31") = "2024-01-31" /\
   toInputDateFormat (fun _ => "") "2024-01-31" = "2024-01-31") /\
  (toStorageDateFormat (toInputDateFormat (fun _ => "") "01-31-2024") = "01-31-2024" /\
   toStorageDateFormat "01-31-2024" = "01-31-2024").
Proof.
  split.
  - apply (proj1 (date_formats_round_trip (fun _ => "") "2024-01-31")). eexists. reflexivity.
  - apply (proj2 (date_formats_round_trip (fun _ => "") "01-31-2024")). eexists. reflexivity.
Defined.

(** ** The cells and the lines of a CSV file *)

Section Cells.

Lemma trimStart_head (s : string) :
  stops Str.isSpace (Str.trimStart s).
Proof.
  induction s as [| ch s IH]; cbn; [exact I |].
  destruct (Str.isSpace ch) eqn:E; [exact IH | cbn; exact E].
Qed.

Lemma trimEnd_cons (ch : ascii) (s : string) :
  Str.trimEnd (String ch s)
  = match Str.trimEnd s with
    | EmptyString => if Str.isSpace ch then EmptyString else String ch EmptyString
    | r => String ch r
    end.
Proof. reflexivity. Qed.

Lemma trimEnd_idem (s : string) : Str.trimEnd (Str.trimEnd s) = Str.trimEnd s.
Proof.
  induction s as [| ch s IH]; [reflexivity |]. rewrite (trimEnd_cons ch s).
  destruct (Str.trimEnd s) as [| c' s'] eqn:E.
  - destruct (Str.isSpace ch) eqn:Hc; [reflexivity |]. cbn. rewrite Hc. reflexivity.
  - rewrite (trimEnd_cons ch (String c' s')), IH. reflexivity.
Qed.

Lemma trimEnd_keeps_head (s : string) :
  stops Str.isSpace s -> stops Str.isSpace (Str.trimEnd s) /\
  Str.trimStart (Str.trimEnd s) = Str.trimEnd s.
Proof.
  destruct s as [| ch s]; [split; [exact I | reflexivity] |].
  cbn [stops]. intros Hc. rewrite trimEnd_cons.
  destruct (Str.trimEnd s) as [| c' s'].
  - rewrite Hc. cbn. rewrite Hc. split; reflexivity.
  - cbn. rewrite Hc. split; reflexivity.
Qed.

Lemma trim_idem (s : string) : Str.trim (Str.trim s) = Str.trim s.
Proof.
  unfold Str.trim.
  rewrite (proj2 (trimEnd_keeps_head _ (trimStart_head s))).
  apply trimEnd_idem.
Qed.

Lemma split_cons (sep : ascii) (s : string) :
  exists x xs, Str.split sep s = x :: xs.
Proof.
  induction s as [| ch s (x & xs & IH)]; cbn; [eauto |].
  destruct (Ascii.eqb ch sep); [eauto |]. rewrite IH. eauto.
Qed.

(** Without quotes, [splitCells] is a split at the commas with the pending
    text in front of the first part, every part trimmed. *)
Lemma splitCells_plain (line current : string) :
  Str.all (fun ch => negb (Ascii.eqb ch dquote)) line = true ->
  splitCells line current false
  = match Str.split "," line with
    | x :: xs => Str.trim (current ++ x) :: map Str.trim xs
    | [] => [Str.trim current]
    end.
Proof.
  revert current. induction line as [| ch line IH]; intros current; cbn [Str.all].
  - intros _. cbn. rewrite append_nil_r. reflexivity.
  - rewrite andb_true_iff, negb_true_iff. intros [Hq Hline].
    cbn [splitCells Str.split]. rewrite Hq.
    destruct (Ascii.eqb ch ",") eqn:Hc; cbn [andb negb].
    + rewrite append_nil_r, (IH EmptyString Hline).
      destruct (split_cons "," line) as (x & xs & ->). reflexivity.
    + rewrite (IH _ Hline).
      destruct (split_cons "," line) as (x & xs & ->).
      rewrite append_assoc. reflexivity.
Qed.

Lemma splitCells_trimmed (line current : string) (inQuotes : bool) :
  Forall (fun cell => Str.trim cell = cell) (splitCells line current inQuotes).
Proof.
  revert current inQuotes. induction line as [| ch line IH]; intros current inQuotes;
    cbn [splitCells].
  - constructor; [apply trim_idem | constructor].
  - destruct (Ascii.eqb ch dquote); [apply IH |].
    destruct (Ascii.eqb ch "," && negb inQuotes); [| apply IH].
    constructor; [apply trim_idem | apply IH].
Qed.

End Cells.

(** X9.  On a line without double quotes the cells are the parts between
    the commas, each trimmed; and on any line, quoted or not, no cell
    keeps white space at either end. *)
Theorem cells_of_a_line (line : string) :
  (Str.all (fun ch => negb (Ascii.eqb ch dquote)) line = true ->
   splitCells line EmptyString false = map Str.trim (Str.split "," line)) /\
  Forall (fun cell => Str.trim cell = cell) (splitCells line EmptyString false).
Proof.
  split; [| apply splitCells_trimmed].
  intros H. rewrite splitCells_plain by exact H.
  destruct (split_cons "," line) as (x & xs & ->). reflexivity.
Qed.

Lemma cells_of_a_line_witness :
  splitCells "Bolt, 7 ,, x " EmptyString false
  = map Str.trim (Str.split "," "Bolt, 7 ,, x ").
Proof.
  apply (proj1 (cells_of_a_line "Bolt, 7 ,, x ")). reflexivity.
Defined.

Section Lines.

Lemma classifyRows_length (i : Z) (rows : list CsvRow) :
  (length (fst (classifyRows i rows)) + length (snd (classifyRows i rows)))%nat
  = length rows.
Proof.
  revert i. induction rows as [| row rest IH]; intros i; cbn [classifyRows];
    [reflexivity |].
  specialize (IH (i + 1)).
  destruct (classifyRows (i + 1) rest) as [validRows errorRows]. cbn [fst snd] in IH.
  destruct (valid (validateRow row (i + 1)));
    [destruct (parsed (validateRow row (i + 1))) |]; cbn [fst snd length]; lia.
Qed.

Lemma parseCSV_eq (csvText : string) :
  parseCSV csvText
  = match nonBlankLines csvText with
    | header :: dataLine :: moreLines =>
        Some (classifyRows 1
                (map (fun line =>
                        buildRow (map (fun h => Str.toLowerCase (Str.trim h))
                                      (Str.split "," header))
                                 (splitCells line EmptyString false) ∅)
                     (dataLine :: moreLines)))
    | _ => None
    end.
Proof. reflexivity. Qed.

End Lines.

Lemma parseCSV_lines (csvText : string) :
  (parseCSV csvText = None <-> (length (nonBlankLines csvText) < 2)%nat) /\
  (forall validRows errorRows,
     parseCSV csvText = Some (validRows, errorRows) ->
     (length validRows + length errorRows)%nat
     = (length (nonBlankLines csvText) - 1)%nat).
Proof.
  rewrite parseCSV_eq.
  destruct (nonBlankLines csvText) as [| header [| dataLine moreLines]]; cbn [length].
  - split; [split; [lia | reflexivity] | discriminate].
  - split; [split; [lia | reflexivity] | discriminate].
  - split; [split; [discriminate | lia] |].
    intros validRows errorRows H.
    match type of H with
    | Some (classifyRows 1 ?r) = _ =>
        pose proof (classifyRows_length 1 r) as Hl;
        assert (Hc : classifyRows 1 r = (validRows, errorRows)) by congruence
    end.
    rewrite Hc in Hl. cbn [fst snd] in Hl. rewrite length_map in Hl. cbn [length] in Hl.
    lia.
Qed.

(** X10.  A file needs a header line and a data line: with fewer than two
    lines that are not blank, nothing is parsed.  Otherwise every data
    line lands in exactly one bucket: the valid and the error rows
    together are as many as the lines after the header. *)
Theorem parseCSV_partitions_lines (csvText : string) :
  (parseCSV csvText = None <-> (length (nonBlankLines csvText) < 2)%nat) /\
  (forall validRows errorRows,
     parseCSV csvText = Some (validRows, errorRows) ->
     (length validRows + length errorRows)%nat
     = (length (nonBlankLines csvText) - 1)%nat).
Proof. apply parseCSV_lines. Qed.

Lemma parseCSV_partitions_lines_witness :
  (length (nonBlankLines "name,on_hand") < 2)%nat.
Proof.
  apply (proj1 (proj1 (parseCSV_partitions_lines "name,on_hand"))).
  reflexivity.
Defined.

(** ** Importing rows *)

Section Imports.

Lemma createItem_blank (itemDraft : ItemDraft) (db : store) :
  isBlank (d_name itemDraft) = true ->
  createItem itemDraft db = (Err (FailedToCreate NameRequired), db).
Proof. intros Hn. unfold createItem. rewrite Hn. reflexivity. Qed.













End Imports.







(** ** The repository *)

Section Repository.

Lemma ofZ_inj (a b : Z) : Str.ofZ a = Str.ofZ b -> a = b.
Proof.
  unfold Str.ofZ. intros H.
  assert (Hn : forall n, NilZero.int_of_string (NilZero.string_of_int (Z.to_int n))
                         = Some (Z.to_int n)).
  { intros n. apply NilZero.isi; destruct n as [| p | p]; cbn; try discriminate;
      intros [= Hp]; exact (DecimalPos.Unsigned.to_uint_nonnil p Hp). }
  apply DecimalZ.to_int_inj.
  pose proof (Hn a) as Ha. rewrite H, Hn in Ha. congruence.
Qed.

Lemma buildItemDocId_inj (name : string) (c1 c2 : Z) :
  buildItemDocId name c1 = buildItemDocId name c2 -> c1 = c2.
Proof.
  unfold buildItemDocId. intros H. apply append_inv_head in H. apply ofZ_inj. exact H.
Qed.

Lemma createItem_Ok (itemDraft : ItemDraft) (db db' : store) (item : Item) :
  createItem itemDraft db = (Ok item, db') ->
  isBlank (d_name itemDraft) = false /\
  id item = buildItemDocId (Str.trim (orEmpty (d_name itemDraft)))
              (Num.roundInt (currentCount db + 1)) /\
  data item = validateDraft itemDraft /\
  db' = withItems (insert (id item) (data item))
          (withCount (Some {| count := Some (Num.roundInt (currentCount db + 1)) |}) db).
Proof.
  destruct (createItem_cases itemDraft db)
    as [(_ & ->) | [(_ & _ & ->) | (Hb & _ & ->)]]; try discriminate.
  intros [= <- <-]. auto.
Qed.

End Repository.

(** X14.  What [createItem] returns is what [getItem] then finds under the
    returned id; creation touches no other item and no ledger; and after
    [deleteItem] the item is not found. *)
Theorem repository_round_trip (itemDraft : ItemDraft) (db db' : store) (item : Item) :
  createItem itemDraft db = (Ok item, db') ->
  getItem (id item) db' = Some item /\
  (forall other, other <> id item -> getItem other db' = getItem other db) /\
  checkedOutItems db' = checkedOutItems db /\
  getItem (id item) (snd (deleteItem (id item) db')) = None /\
  (forall other, other <> id item ->
     getItem other (snd (deleteItem (id item) db')) = getItem other db).
Proof.
  intros H. apply createItem_Ok in H as (_ & _ & _ & ->).
  unfold getItem, deleteItem. cbn [snd]. store_simpl.
  repeat split.
  - rewrite lookup_insert_eq. destruct item. reflexivity.
  - intros other Hne. rewrite lookup_insert_ne by congruence. reflexivity.
  - rewrite lookup_delete_eq. reflexivity.
  - intros other Hne. rewrite lookup_delete_ne, lookup_insert_ne by congruence.
    reflexivity.
Qed.

Lemma repository_round_trip_witness :
  let item := {| id := "redvalve1"; data := validateDraft sampleDraft |} in
  let db' := snd (createItem sampleDraft emptyStore) in
  getItem (id item) db' = Some item /\
  (forall other, other <> id item -> getItem other db' = getItem other emptyStore) /\
  checkedOutItems db' = checkedOutItems emptyStore /\
  getItem (id item) (snd (deleteItem (id item) db')) = None /\
  (forall other, other <> id item ->
     getItem other (snd (deleteItem (id item) db')) = getItem other emptyStore).
Proof.
  apply (repository_round_trip sampleDraft emptyStore
           (snd (createItem sampleDraft emptyStore))
           {| id := "redvalve1"; data := validateDraft sampleDraft |}).
  reflexivity.
Defined.

(** X15.  While the counter stays a safe integer, two items created one
    after the other with the same name never share an id: the suffixes
    differ, and a name followed by different numbers gives different ids.
    Both items are there afterwards. *)
Theorem same_name_gets_distinct_ids
  (draft1 draft2 : ItemDraft) (db db1 db2 : store) (item1 item2 : Item) :
  safeCount (currentCount db) ->
  currentCount db + 2 <= Num.maxSafeInteger ->
  createItem draft1 db = (Ok item1, db1) ->
  createItem draft2 db1 = (Ok item2, db2) ->
  d_name draft1 = d_name draft2 ->
  id item1 <> id item2 /\
  getItem (id item1) db2 = Some item1 /\
  getItem (id item2) db2 = Some item2.
Proof.
  intros Hc Hk H1 H2 Hname.
  apply createItem_Ok in H1 as (_ & Hid1 & _ & ->).
  apply createItem_Ok in H2 as (_ & Hid2 & _ & ->).
  assert (Hne : id item1 <> id item2).
  { rewrite Hid1, Hid2, Hname. intros Heq. apply buildItemDocId_inj in Heq.
    revert Heq. cbn [currentCount metadataCount withItems withCount count default].
    unfold Datatypes.id.
    unfold safeCount, Num.maxSafeInteger in *.
    rewrite (roundInt_small (currentCount db + 1))
      by (change (2 ^ 53) with 9007199254740992; lia).
    rewrite roundInt_small by (change (2 ^ 53) with 9007199254740992; lia).
    lia. }
  split; [exact Hne |]. unfold getItem. store_simpl. split.
  - rewrite lookup_insert_ne by congruence. rewrite lookup_insert_eq.
    destruct item1. reflexivity.
  - rewrite lookup_insert_eq. destruct item2. reflexivity.
Qed.

Lemma same_name_gets_distinct_ids_witness :
  let item1 := {| id := "redvalve1"; data := validateDraft sampleDraft |} in
  let item2 := {| id := "redvalve2"; data := validateDraft sampleDraft |} in
  let db1 := snd (createItem sampleDraft emptyStore) in
  let db2 := snd (createItem sampleDraft db1) in
  id item1 <> id item2 /\
  getItem (id item1) db2 = Some item1 /\
  getItem (id item2) db2 = Some item2.
Proof.
  apply (same_name_gets_distinct_ids sampleDraft sampleDraft emptyStore
           (snd (createItem sampleDraft emptyStore))
           (snd (createItem sampleDraft (snd (createItem sampleDraft emptyStore))))
           {| id := "redvalve1"; data := validateDraft sampleDraft |}
           {| id := "redvalve2"; data := validateDraft sampleDraft |});
    try reflexivity.
  - unfold safeCount, Num.maxSafeInteger. cbn. lia.
  - unfold Num.maxSafeInteger. cbn. lia.
Defined.

Section Updates.

(** The four ways an update ends. *)
Lemma updateItem_outcome (id : string) (patch : ItemPatch) (db : store) :
  ((exists n, p_name patch = Some n /\ blank (Some n)) /\
   updateItem id patch db = (Err (FailedToUpdate NameEmpty), db)) \/
  (~ (exists n, p_name patch = Some n /\ blank (Some n)) /\
   hasNestedArray (default [] (p_location patch)) = true /\
   updateItem id patch db = (Err (FailedToUpdate NestedArrays), db)) \/
  (~ (exists n, p_name patch = Some n /\ blank (Some n)) /\
   hasNestedArray (default [] (p_location patch)) = false /\
   items db !! id = None /\
   updateItem id patch db = (Err (FailedToUpdate (NoDocumentToUpdate (ItemRef id))), db)) \/
  (exists d,
     ~ (exists n, p_name patch = Some n /\ blank (Some n)) /\
     hasNestedArray (default [] (p_location patch)) = false /\
     items db !! id = Some d /\
     updateItem id patch db
     = (Ok tt, withItems (insert id (applyPatch (validatePatch patch) d)) db)).
Proof.
  unfold updateItem, updateDoc. cbn [validatePatch p_location].
  destruct (p_name patch) as [n |] eqn:Hn.
  - destruct (Str.isEmpty (Str.trim n)) eqn:Hb.
    + left. split; [| reflexivity]. exists n. split; [reflexivity |].
      apply isBlank_iff. exact Hb.
    + assert (Hnb : ~ (exists n', Some n = Some n' /\ blank (Some n'))).
      { intros (n' & [= <-] & Hbl). apply isBlank_iff in Hbl. cbn in Hbl. congruence. }
      right. destruct (hasNestedArray (default [] (p_location patch)));
        [left; auto |].
      right. destruct (items db !! id) as [d |]; [right; exists d | left]; auto.
  - assert (Hnb : ~ (exists n', @None string = Some n' /\ blank (Some n'))).
    { intros (n' & Hd & _). discriminate. }
    right. destruct (hasNestedArray (default [] (p_location patch)));
      [left; auto |].
    right. destruct (items db !! id) as [d |]; [right; exists d | left]; auto.
Qed.

Lemma applyPatch_twice (patch : ItemPatch) (d : ItemData) :
  applyPatch patch (applyPatch patch d) = applyPatch patch d.
Proof.
  destruct patch as [n q o cd cp dd l ls s su rp de]. unfold applyPatch. cbn.
  destruct n, q, o, cd, cp, dd, l, ls, s, su, rp, de; reflexivity.
Qed.

End Updates.



(** X17.  Applying the same patch a second time changes nothing more and
    has the same outcome. *)
Theorem updateItem_idempotent (id : string) (patch : ItemPatch) (db : store) :
  updateItem id patch (snd (updateItem id patch db))
  = (fst (updateItem id patch db), snd (updateItem id patch db)).
Proof.
  destruct (updateItem_cases id patch db) as [(e & He) | (d & Hd & Hn & Heq)].
  - rewrite He. cbn [fst snd]. exact He.
  - rewrite Heq. cbn [fst snd].
    destruct (updateItem_outcome id patch
                (withItems (insert id (applyPatch (validatePatch patch) d)) db))
      as [(Hb & He) | [(Hb & Hn' & He) | [(Hb & _ & Hi & He) | (d' & Hb & _ & Hd' & Heq')]]].
    + exfalso. destruct (updateItem_outcome id patch db)
        as [(Hb' & He') | [(Hb' & _) | [(Hb' & _) | (d0 & Hb' & _)]]];
        [congruence | contradiction ..].
    + congruence.
    + exfalso. autorewrite with store in Hi. rewrite lookup_insert_eq in Hi.
      discriminate.
    + rewrite Heq'. autorewrite with store in Hd'. rewrite lookup_insert_eq in Hd'.
      injection Hd' as <-. rewrite applyPatch_twice.
      unfold withItems. cbn. rewrite insert_insert_eq. reflexivity.
Qed.

(** X29.  [createItem] on a draft with a name and a location list that
    holds an array stores nothing and fails with the error of the store,
    and the suffix it drew is used up all the same: the counter has
    advanced.  This is the draft the new-item form and the importer make
    of every picked or parsed location. *)
Theorem createItem_refuses_location_arrays (itemDraft : ItemDraft) (db : store) :
  isBlank (d_name itemDraft) = false ->
  hasNestedArray (default [] (d_location itemDraft)) = true ->
  fst (createItem itemDraft db) = Err (FailedToCreate NestedArrays) /\
  items (snd (createItem itemDraft db)) = items db /\
  checkedOutItems (snd (createItem itemDraft db)) = checkedOutItems db /\
  (safeCount (currentCount db) ->
   currentCount (snd (createItem itemDraft db)) = currentCount db + 1).
Proof.
  intros Hb Hn.
  destruct (createItem_cases itemDraft db)
    as [(Hb' & _) | [(_ & _ & He) | (_ & Hn' & _)]]; try congruence.
  rewrite He. cbn [fst snd]. repeat split.
  intros Hc. cbn. apply roundInt_small.
  unfold safeCount, Num.maxSafeInteger in Hc.
  change (2 ^ 53) with 9007199254740992. lia.
Qed.

Lemma createItem_refuses_location_arrays_witness :
  fst (createItem pickedDraft countedStore) = Err (FailedToCreate NestedArrays) /\
  items (snd (createItem pickedDraft countedStore)) = items countedStore /\
  checkedOutItems (snd (createItem pickedDraft countedStore))
  = checkedOutItems countedStore /\
  (safeCount (currentCount countedStore) ->
   currentCount (snd (createItem pickedDraft countedStore))
   = currentCount countedStore + 1).
Proof.
  apply (createItem_refuses_location_arrays pickedDraft countedStore); reflexivity.
Defined.

(** ** Units on the shelf and in hand *)

Section Units.

Lemma orZero_finite (x y : Q) : orZero (Some (Fin x)) = Fin y -> (y == x)%Q.
Proof.
  unfold orZero. cbn [Num.truthy]. destruct (Qeq_bool x 0) eqn:E; cbn [negb].
  - intros [= <-]. apply Qeq_bool_iff in E. symmetry. exact E.
  - intros [= <-]. reflexivity.
Qed.

Lemma orZero_finite_ex (x : Q) : exists y, orZero (Some (Fin x)) = Fin y.
Proof.
  unfold orZero. destruct (Num.truthy (Fin x)); eauto.
Qed.

Lemma fin_le_zero (q : Q) : (0 < q)%Q -> Num.le (Fin q) Num.zero = false.
Proof. intros H. num_cases. Qed.

Lemma fin_lt (a b : Q) : (b <= a)%Q -> Num.lt (Fin a) (Fin b) = false.
Proof. intros H. num_cases. Qed.

Lemma checkout_outcome (uid itemId : string) (qty : number) (now : Z) (db : store) :
  (exists e, checkoutItem uid itemId qty now db = (Err e, db)) \/
  (exists d,
     Num.le qty Num.zero = false /\ items db !! itemId = Some d /\
     Num.lt (default Num.zero (i_on_hand d)) qty = false /\
     checkoutItem uid itemId qty now db
     = (Ok tt,
        {| items := <[itemId := setOnHand (increment (Num.neg qty) (i_on_hand d)) d]>
                      (items db);
           checkedOutItems := ledgerAfterCheckout uid itemId qty now db;
           metadataCount := metadataCount db |})).
Proof.
  destruct (Num.le qty Num.zero) eqn:Hq.
  { left. eexists. apply checkout_not_positive. exact Hq. }
  destruct (items db !! itemId) as [d |] eqn:Hi.
  2: { left. eexists. apply checkout_not_found; assumption. }
  destruct (Num.lt (default Num.zero (i_on_hand d)) qty) eqn:Hlt.
  { left. eexists. exact (proj1 (checkout_insufficient uid itemId qty now db d Hq Hi Hlt)). }
  right. exists d. repeat split; auto. apply checkout_success; assumption.
Qed.

Lemma return_outcome (uid itemId : string) (qty : number) (now : Z) (db : store) :
  (exists e, returnItem uid itemId qty now db = (Err e, db)) \/
  (exists e d,
     Num.le qty Num.zero = false /\ checkedOutItems db !! (uid, itemId) = Some e /\
     Num.gt qty (orZero (c_qty e)) = false /\ items db !! itemId = Some d /\
     returnItem uid itemId qty now db
     = (Ok tt,
        {| items := <[itemId := setOnHand (increment qty (i_on_hand d)) d]> (items db);
           checkedOutItems := ledgerAfterReturn uid itemId qty now db e;
           metadataCount := metadataCount db |})).
Proof.
  destruct (Num.le qty Num.zero) eqn:Hq.
  { left. eexists. apply return_not_positive. exact Hq. }
  destruct (checkedOutItems db !! (uid, itemId)) as [e |] eqn:He.
  2: { left. eexists. exact (proj1 (return_no_record uid itemId qty now db Hq He)). }
  destruct (Num.gt qty (orZero (c_qty e))) eqn:Hgt.
  { left. eexists. exact (proj1 (return_excess uid itemId qty now db e Hq He Hgt)). }
  destruct (items db !! itemId) as [d |] eqn:Hi.
  2: { left. eexists. exact (return_item_missing uid itemId qty now db e Hq He Hgt Hi). }
  right. exists e, d. repeat split; auto. apply return_success; assumption.
Qed.

End Units.

(** X18.  [checkoutItem] succeeds exactly when the quantity is not 0 or
    less, the item exists and its on-hand quantity (0 when missing) is not
    below the quantity; and whenever it fails, for whatever reason, the
    database is left as it was. *)
Theorem checkout_succeeds_iff (uid itemId : string) (qty : number) (now : Z) (db : store) :
  (fst (checkoutItem uid itemId qty now db) = Ok tt
   <-> Num.le qty Num.zero = false /\
       exists d, items db !! itemId = Some d /\
                 Num.lt (default Num.zero (i_on_hand d)) qty = false) /\
  (isErr (fst (checkoutItem uid itemId qty now db)) = true ->
   snd (checkoutItem uid itemId qty now db) = db) /\
  (Num.le qty Num.zero = false -> items db !! itemId = None ->
   checkoutItem uid itemId qty now db = (Err ItemNotFound, db)).
Proof.
  split; [| split].
  - split.
    + destruct (checkout_outcome uid itemId qty now db)
        as [(e & ->) | (d & Hq & Hi & Hlt & _)]; [discriminate |].
      intros _. eauto.
    + intros (Hq & d & Hi & Hlt).
      rewrite (checkout_success uid itemId qty now db d Hq Hi Hlt). reflexivity.
  - destruct (checkout_outcome uid itemId qty now db)
      as [(e & ->) | (d & _ & _ & _ & ->)]; [reflexivity | discriminate].
  - intros Hq Hi. apply checkout_not_found; assumption.
Qed.

Lemma checkout_succeeds_iff_witness :
  fst (checkoutItem "u1" "bolt1" (Fin 2) 5 checkedOutStore) = Ok tt.
Proof.
  apply (proj1 (checkout_succeeds_iff "u1" "bolt1" (Fin 2) 5 checkedOutStore)).
  split; [reflexivity |]. exists sampleItem. split; reflexivity.
Defined.

(** A checkout moves units from the shelf to the user, in the arithmetic
    of the model: sums of rationals as they are. *)
Lemma checkout_moves_exact
  (uid itemId : string) (q h l : Q) (now : Z) (db : store) :
  onHandOf itemId db = Some (Fin h) ->
  heldBy uid itemId db = Fin l ->
  (forall e, checkedOutItems db !! (uid, itemId) = Some e ->
             exists l0, c_qty e = Some (Fin l0)) ->
  (0 < q)%Q -> (q <= h)%Q ->
  fst (checkoutItem uid itemId (Fin q) now db) = Ok tt /\
  exists h' l',
    onHandOf itemId (snd (checkoutItem uid itemId (Fin q) now db)) = Some (Fin h') /\
    heldBy uid itemId (snd (checkoutItem uid itemId (Fin q) now db)) = Fin l' /\
    (h' == h - q)%Q /\ (l' == l + q)%Q /\ (h' + l' == h + l)%Q.
Proof.
  unfold onHandOf, heldBy. intros Hh Hl Hfin Hq Hle.
  destruct (items db !! itemId) as [d |] eqn:Hi; [| discriminate].
  rewrite (checkout_success uid itemId (Fin q) now db d);
    [| apply fin_le_zero; exact Hq | exact Hi
     | rewrite Hh; cbn [default]; apply fin_lt; exact Hle].
  cbn [fst snd items checkedOutItems]. split; [reflexivity |].
  rewrite lookup_insert_eq. cbn [i_on_hand setOnHand]. rewrite Hh.
  cbn [increment Num.add Num.neg]. unfold ledgerAfterCheckout.
  destruct (checkedOutItems db !! (uid, itemId)) as [e |] eqn:He.
  - destruct (Hfin e eq_refl) as (l0 & Hl0). rewrite Hl0 in Hl.
    apply orZero_finite in Hl.
    rewrite lookup_insert_eq. cbn [c_qty setQty]. rewrite Hl0. cbn [increment Num.add].
    destruct (orZero_finite_ex (l0 + q)) as (l' & Hl'). rewrite Hl'.
    apply orZero_finite in Hl'.
    exists (h + - q)%Q, l'. repeat split; try reflexivity; lra.
  - rewrite lookup_insert_eq. cbn [c_qty].
    destruct (orZero_finite_ex q) as (l' & Hl'). rewrite Hl'.
    apply orZero_finite in Hl'. injection Hl as <-.
    exists (h + - q)%Q, l'. repeat split; try reflexivity; lra.
Qed.

(** X19.  A checkout of [q] units that the shelf can cover moves them from
    the shelf to the user: it succeeds, the on-hand quantity goes down by
    [q] and what the user holds goes up by [q].  The quantities are
    integers in the safe range, where the arithmetic of the program adds
    and subtracts without rounding. *)
Theorem checkout_moves_units
  (uid itemId : string) (q h l now : Z) (db : store) :
  safeInteger h -> safeInteger l -> safeInteger (l + q) ->
  onHandOf itemId db = Some (Num.ofZ h) ->
  heldBy uid itemId db = Num.ofZ l ->
  (forall e, checkedOutItems db !! (uid, itemId) = Some e ->
             exists l0 : Z, c_qty e = Some (Num.ofZ l0)) ->
  0 < q <= h ->
  fst (checkoutItem uid itemId (Num.ofZ q) now db) = Ok tt /\
  exists h' l',
    onHandOf itemId (snd (checkoutItem uid itemId (Num.ofZ q) now db)) = Some (Fin h') /\
    heldBy uid itemId (snd (checkoutItem uid itemId (Num.ofZ q) now db)) = Fin l' /\
    (h' == inject_Z (h - q))%Q /\ (l' == inject_Z (l + q))%Q.
Proof.
  intros _ _ _ Hh Hl Hfin [Hq Hle].
  destruct (checkout_moves_exact uid itemId (inject_Z q) (inject_Z h) (inject_Z l) now db)
    as (Hok & h' & l' & Hh' & Hl' & Eh & El & _); auto.
  - intros e He. destruct (Hfin e He) as (l0 & Hl0). exists (inject_Z l0). exact Hl0.
  - apply inject_Z_pos. exact Hq.
  - apply inject_Z_le. exact Hle.
  - split; [exact Hok |]. exists h', l'. split; [exact Hh' |]. split; [exact Hl' |].
    unfold Z.sub. rewrite !inject_Z_plus, inject_Z_opp. split; [exact Eh | exact El].
Qed.

Lemma checkout_moves_units_witness :
  fst (checkoutItem "u1" "bolt1" (Num.ofZ 2) 5 checkedOutStore) = Ok tt /\
  exists h' l',
    onHandOf "bolt1" (snd (checkoutItem "u1" "bolt1" (Num.ofZ 2) 5 checkedOutStore))
    = Some (Fin h') /\
    heldBy "u1" "bolt1" (snd (checkoutItem "u1" "bolt1" (Num.ofZ 2) 5 checkedOutStore))
    = Fin l' /\
    (h' == inject_Z (5 - 2))%Q /\ (l' == inject_Z (5 + 2))%Q.
Proof.
  apply (checkout_moves_units "u1" "bolt1" 2 5 5 5 checkedOutStore).
  - unfold safeInteger, Num.maxSafeInteger. lia.
  - unfold safeInteger, Num.maxSafeInteger. lia.
  - unfold safeInteger, Num.maxSafeInteger. lia.
  - reflexivity.
  - reflexivity.
  - intros e He. exists 5. vm_compute in He. injection He as <-. reflexivity.
  - lia.
Defined.

(** A return moves units back, in the arithmetic of the model. *)
Lemma return_moves_exact
  (uid itemId : string) (q h l : Q) (now : Z) (db : store) (e : CheckedOutItem) :
  onHandOf itemId db = Some (Fin h) ->
  checkedOutItems db !! (uid, itemId) = Some e ->
  c_qty e = Some (Fin l) ->
  (0 < q)%Q -> (q <= l)%Q ->
  fst (returnItem uid itemId (Fin q) now db) = Ok tt /\
  exists h' l',
    onHandOf itemId (snd (returnItem uid itemId (Fin q) now db)) = Some (Fin h') /\
    heldBy uid itemId (snd (returnItem uid itemId (Fin q) now db)) = Fin l' /\
    (h' == h + q)%Q /\ (l' == l - q)%Q /\ (h' + l' == h + l)%Q.
Proof.
  unfold onHandOf, heldBy. intros Hh He Hl Hq Hle.
  destruct (items db !! itemId) as [d |] eqn:Hi; [| discriminate].
  destruct (orZero_finite_ex l) as (l1 & Hl1).
  pose proof (orZero_finite _ _ Hl1) as Hl1'.
  assert (Hcur : orZero (c_qty e) = Fin l1) by (rewrite Hl; exact Hl1).
  rewrite (return_success uid itemId (Fin q) now db e d);
    [| apply fin_le_zero; exact Hq | exact He
     | rewrite Hcur; unfold Num.gt; apply fin_lt; lra | exact Hi].
  cbn [fst snd items checkedOutItems]. split; [reflexivity |].
  rewrite lookup_insert_eq. cbn [i_on_hand setOnHand]. rewrite Hh.
  cbn [increment Num.add]. unfold ledgerAfterReturn. rewrite Hcur.
  cbn [Num.eq]. destruct (Qeq_bool q l1) eqn:Heq.
  - apply Qeq_bool_iff in Heq. rewrite lookup_delete_eq.
    exists (h + q)%Q, 0%Q. repeat split; try reflexivity; lra.
  - rewrite lookup_insert_eq. cbn [c_qty setQty]. rewrite Hl.
    cbn [increment Num.add Num.neg].
    destruct (orZero_finite_ex (l + - q)) as (l' & Hl'). rewrite Hl'.
    apply orZero_finite in Hl'.
    exists (h + q)%Q, l'. repeat split; try reflexivity; lra.
Qed.

(** X20.  A return of [q] units out of the [l] a user holds moves them
    back: it succeeds, the on-hand quantity goes up by [q] and what the
    user holds goes down by [q], to nothing when [q = l].  The quantities
    are integers in the safe range, where the arithmetic of the program
    adds and subtracts without rounding. *)
Theorem return_moves_units
  (uid itemId : string) (q h l now : Z) (db : store) (e : CheckedOutItem) :
  safeInteger h -> safeInteger l -> safeInteger (h + q) ->
  onHandOf itemId db = Some (Num.ofZ h) ->
  checkedOutItems db !! (uid, itemId) = Some e ->
  c_qty e = Some (Num.ofZ l) ->
  0 < q <= l ->
  fst (returnItem uid itemId (Num.ofZ q) now db) = Ok tt /\
  exists h' l',
    onHandOf itemId (snd (returnItem uid itemId (Num.ofZ q) now db)) = Some (Fin h') /\
    heldBy uid itemId (snd (returnItem uid itemId (Num.ofZ q) now db)) = Fin l' /\
    (h' == inject_Z (h + q))%Q /\ (l' == inject_Z (l - q))%Q /\
    (q = l -> checkedOutItems (snd (returnItem uid itemId (Num.ofZ q) now db))
              !! (uid, itemId) = None).
Proof.
  intros _ _ _ Hh He Hl [Hq Hle].
  destruct (return_moves_exact uid itemId (inject_Z q) (inject_Z h) (inject_Z l) now db e)
    as (Hok & h' & l' & Hh' & Hl' & Eh & El & _); auto.
  - apply inject_Z_pos. exact Hq.
  - apply inject_Z_le. exact Hle.
  - split; [exact Hok |]. exists h', l'. split; [exact Hh' |]. split; [exact Hl' |].
    unfold Z.sub. rewrite !inject_Z_plus, inject_Z_opp.
    split; [exact Eh |]. split; [exact El |].
    intros ->.
    unfold onHandOf in Hh. destruct (items db !! itemId) as [d |] eqn:Hi; [| discriminate].
    destruct (orZero_ofZ l) as (y & Hy & Hyl).
    rewrite (return_success uid itemId (Num.ofZ l) now db e d); auto.
    + cbn [snd checkedOutItems]. unfold ledgerAfterReturn. rewrite Hl, Hy.
      assert (Heq : Num.eq (Num.ofZ l) (Fin y) = true).
      { unfold Num.ofZ. cbn [Num.eq]. apply Qeq_bool_iff. symmetry. exact Hyl. }
      rewrite Heq. apply lookup_delete_eq.
    + apply fin_le_zero. apply inject_Z_pos. exact Hq.
    + rewrite Hl, Hy. unfold Num.gt, Num.ofZ. apply fin_lt. rewrite Hyl. apply Qle_refl.
Qed.

Lemma return_moves_units_witness :
  fst (returnItem "u1" "bolt1" (Num.ofZ 2) 5 checkedOutStore) = Ok tt /\
  exists h' l',
    onHandOf "bolt1" (snd (returnItem "u1" "bolt1" (Num.ofZ 2) 5 checkedOutStore))
    = Some (Fin h') /\
    heldBy "u1" "bolt1" (snd (returnItem "u1" "bolt1" (Num.ofZ 2) 5 checkedOutStore))
    = Fin l' /\
    (h' == inject_Z (5 + 2))%Q /\ (l' == inject_Z (5 - 2))%Q /\
    (2 = 5 -> checkedOutItems (snd (returnItem "u1" "bolt1" (Num.ofZ 2) 5 checkedOutStore))
              !! ("u1", "bolt1") = None).
Proof.
  apply (return_moves_units "u1" "bolt1" 2 5 5 5 checkedOutStore sampleEntry).
  - unfold safeInteger, Num.maxSafeInteger. lia.
  - unfold safeInteger, Num.maxSafeInteger. lia.
  - unfold safeInteger, Num.maxSafeInteger. lia.
  - reflexivity.
  - reflexivity.
  - reflexivity.
  - lia.
Defined.

(** ** What a stock movement leaves alone *)

Lemma touchesOnly_refl (uid itemId : string) (db : store) : touchesOnly uid itemId db db.
Proof. unfold touchesOnly. auto. Qed.

Lemma ledgerAfterCheckout_frame (uid itemId : string) (qty : number) (now : Z) (db : store)
  (key : string * string) :
  key <> (uid, itemId) ->
  ledgerAfterCheckout uid itemId qty now db !! key = checkedOutItems db !! key.
Proof.
  intros Hk. unfold ledgerAfterCheckout.
  destruct (checkedOutItems db !! (uid, itemId)); apply lookup_insert_ne; congruence.
Qed.

Lemma ledgerAfterReturn_frame (uid itemId : string) (qty : number) (now : Z) (db : store)
  (e : CheckedOutItem) (key : string * string) :
  key <> (uid, itemId) ->
  ledgerAfterReturn uid itemId qty now db e !! key = checkedOutItems db !! key.
Proof.
  intros Hk. unfold ledgerAfterReturn.
  destruct (Num.eq qty (orZero (c_qty e)));
    [apply lookup_delete_ne | apply lookup_insert_ne]; congruence.
Qed.

(** X21.  A checkout and a return, successful or not, change nothing but
    the on-hand quantity of the item and the ledger entry of that user
    for that item: every other item, every other field of the item, every
    other ledger entry and the item counter stay as they were, and no item
    document is created or removed. *)
Theorem stock_movement_touches_one_item
  (uid itemId : string) (qty : number) (now : Z) (db : store) :
  touchesOnly uid itemId db (snd (checkoutItem uid itemId qty now db)) /\
  touchesOnly uid itemId db (snd (returnItem uid itemId qty now db)).
Proof.
  split.
  - destruct (checkout_outcome uid itemId qty now db)
      as [(e & ->) | (d & _ & Hi & _ & ->)]; [apply touchesOnly_refl |].
    cbn [snd]. unfold touchesOnly. cbn [items checkedOutItems metadataCount].
    split; [reflexivity | split; [| split]].
    + intros id Hid. apply lookup_insert_ne. congruence.
    + intros key Hk. apply ledgerAfterCheckout_frame. exact Hk.
    + right. exists d, (increment (Num.neg qty) (i_on_hand d)).
      split; [exact Hi | apply lookup_insert_eq].
  - destruct (return_outcome uid itemId qty now db)
      as [(e & ->) | (e & d & _ & _ & _ & Hi & ->)]; [apply touchesOnly_refl |].
    cbn [snd]. unfold touchesOnly. cbn [items checkedOutItems metadataCount].
    split; [reflexivity | split; [| split]].
    + intros id Hid. apply lookup_insert_ne. congruence.
    + intros key Hk. apply ledgerAfterReturn_frame. exact Hk.
    + right. exists d, (increment qty (i_on_hand d)).
      split; [exact Hi | apply lookup_insert_eq].
Qed.

(** A checkout followed by the return of the same quantity, in the
    arithmetic of the model. *)
Lemma checkout_return_exact
  (uid itemId : string) (q h : Q) (now now' : Z) (db : store) (d : ItemData) :
  items db !! itemId = Some d -> i_on_hand d = Some (Fin h) ->
  checkedOutItems db !! (uid, itemId) = None ->
  (0 < q)%Q -> (q <= h)%Q ->
  exists h',
    returnItem uid itemId (Fin q) now'
      (snd (checkoutItem uid itemId (Fin q) now db))
    = (Ok tt,
       {| items := <[itemId := setOnHand (Some (Fin h')) d]> (items db);
          checkedOutItems := checkedOutItems db;
          metadataCount := metadataCount db |}) /\
    (h' == h)%Q.
Proof.
  intros Hi Hh He Hq Hle.
  rewrite (checkout_success uid itemId (Fin q) now db d);
    [| apply fin_le_zero; exact Hq | exact Hi
     | rewrite Hh; cbn [default]; apply fin_lt; exact Hle].
  cbn [snd]. unfold ledgerAfterCheckout. rewrite He.
  set (entry := {| c_itemId := itemId; c_qty := Some (Fin q); c_updatedAt := now |}).
  assert (Hcur : orZero (c_qty entry) = Fin q).
  { unfold entry, orZero. cbn [c_qty Num.truthy].
    destruct (Qeq_bool q 0) eqn:E; [| reflexivity].
    apply Qeq_bool_iff in E. lra. }
  exists (h + - q + q)%Q. split; [| lra].
  rewrite (return_success uid itemId (Fin q) now' _ entry
             (setOnHand (increment (Num.neg (Fin q)) (i_on_hand d)) d)).
  - unfold ledgerAfterReturn. cbn [items checkedOutItems metadataCount].
    rewrite Hcur. cbn [Num.eq]. rewrite (proj2 (Qeq_bool_iff q q) (Qeq_refl q)).
    rewrite delete_insert_id by exact He. rewrite insert_insert_eq.
    rewrite Hh. destruct d. reflexivity.
  - apply fin_le_zero. exact Hq.
  - cbn [checkedOutItems]. apply lookup_insert_eq.
  - rewrite Hcur. unfold Num.gt. apply fin_lt. lra.
  - cbn [items]. apply lookup_insert_eq.
Qed.

(** X22.  A user without a ledger entry for an item who checks out [q]
    units and returns the same [q] leaves the database as it was: the
    return succeeds, the ledger entry is gone again, and the item document
    is the one before with the same on-hand quantity.  The quantities are
    integers in the safe range, where subtracting [q] and adding it again
    gives the quantity back. *)
Theorem checkout_then_return_restores
  (uid itemId : string) (q h now now' : Z) (db : store) (d : ItemData) :
  safeInteger h ->
  items db !! itemId = Some d -> i_on_hand d = Some (Num.ofZ h) ->
  checkedOutItems db !! (uid, itemId) = None ->
  0 < q <= h ->
  exists h',
    returnItem uid itemId (Num.ofZ q) now'
      (snd (checkoutItem uid itemId (Num.ofZ q) now db))
    = (Ok tt,
       {| items := <[itemId := setOnHand (Some (Fin h')) d]> (items db);
          checkedOutItems := checkedOutItems db;
          metadataCount := metadataCount db |}) /\
    (h' == inject_Z h)%Q /\
    Num.eq (Fin h') (Num.ofZ h) = true.
Proof.
  intros _ Hi Hh He [Hq Hle].
  destruct (checkout_return_exact uid itemId (inject_Z q) (inject_Z h) now now' db d)
    as (h' & Hr & Eh); auto.
  - apply inject_Z_pos. exact Hq.
  - apply inject_Z_le. exact Hle.
  - exists h'. split; [exact Hr |]. split; [exact Eh |].
    unfold Num.ofZ. cbn [Num.eq]. apply Qeq_bool_iff. exact Eh.
Qed.

Lemma checkout_then_return_restores_witness :
  exists h',
    returnItem "u1" "bolt1" (Num.ofZ 2) 9
      (snd (checkoutItem "u1" "bolt1" (Num.ofZ 2) 5 (oneItemStore (Some (Num.ofZ 5)))))
    = (Ok tt,
       {| items := <["bolt1" := setOnHand (Some (Fin h')) sampleItem]>
                     (items (oneItemStore (Some (Num.ofZ 5))));
          checkedOutItems := checkedOutItems (oneItemStore (Some (Num.ofZ 5)));
          metadataCount := metadataCount (oneItemStore (Some (Num.ofZ 5))) |}) /\
    (h' == inject_Z 5)%Q /\
    Num.eq (Fin h') (Num.ofZ 5) = true.
Proof.
  apply (checkout_then_return_restores "u1" "bolt1" 2 5 5 9
           (oneItemStore (Some (Num.ofZ 5))) sampleItem).
  - unfold safeInteger, Num.maxSafeInteger. lia.
  - reflexivity.
  - reflexivity.
  - reflexivity.
  - lia.
Defined.

(** ** The ledger across a history *)

Section Ledger.

Lemma add_positive (a b : number) :
  Num.le a Num.zero = false -> Num.le b Num.zero = false ->
  Num.le (Num.add a b) Num.zero = false.
Proof. intros Ha Hb. num_cases. Qed.

Lemma sub_positive (a b : number) :
  Num.le b Num.zero = false -> Num.gt b a = false -> Num.eq b a = false ->
  Num.le (Num.add a (Num.neg b)) Num.zero = false.
Proof. unfold Num.gt. intros Hb Hgt Heq. num_cases. Qed.

Lemma orZero_positive (q : number) :
  Num.le q Num.zero = false -> orZero (Some q) = q \/ q = NaN.
Proof.
  intros Hq. unfold orZero. destruct q as [| s | x]; cbn; auto.
  destruct (Qeq_bool x 0) eqn:E; cbn; auto.
  exfalso. num_cases.
Qed.

Lemma ledger_insert (db : store) (key : string * string) (e : CheckedOutItem) :
  ledgerPositive db ->
  (forall q, c_qty e = Some q -> Num.le q Num.zero = false) ->
  forall key' e' q, <[key := e]> (checkedOutItems db) !! key' = Some e' ->
                    c_qty e' = Some q -> Num.le q Num.zero = false.
Proof.
  intros Hdb He key' e' q Hl Hq.
  destruct (decide (key = key')) as [<- | Hne].
  - rewrite lookup_insert_eq in Hl. injection Hl as <-. eauto.
  - rewrite lookup_insert_ne in Hl by exact Hne. eapply Hdb; eauto.
Qed.

Lemma checkout_keeps_ledger (uid itemId : string) (qty : number) (now : Z) (db : store) :
  ledgerPositive db -> ledgerPositive (snd (checkoutItem uid itemId qty now db)).
Proof.
  intros Hdb.
  destruct (checkout_outcome uid itemId qty now db)
    as [(e & ->) | (d & Hq & _ & _ & ->)]; [exact Hdb |].
  cbn [snd]. unfold ledgerPositive. cbn [checkedOutItems]. unfold ledgerAfterCheckout.
  destruct (checkedOutItems db !! (uid, itemId)) as [e |] eqn:He.
  - apply ledger_insert; [exact Hdb |]. cbn [c_qty setQty]. intros q0 Hq0.
    destruct (c_qty e) as [l |] eqn:Hl; cbn [increment] in Hq0; injection Hq0 as <-.
    + apply add_positive; [eapply Hdb; eauto | exact Hq].
    + exact Hq.
  - apply ledger_insert; [exact Hdb |]. cbn [c_qty]. intros q0 [= <-]. exact Hq.
Qed.

Lemma return_keeps_ledger (uid itemId : string) (qty : number) (now : Z) (db : store) :
  ledgerPositive db -> ledgerPositive (snd (returnItem uid itemId qty now db)).
Proof.
  intros Hdb.
  destruct (return_outcome uid itemId qty now db)
    as [(e & ->) | (e & d & Hq & He & Hgt & _ & ->)]; [exact Hdb |].
  cbn [snd]. unfold ledgerPositive. cbn [checkedOutItems]. unfold ledgerAfterReturn.
  destruct (Num.eq qty (orZero (c_qty e))) eqn:Heq.
  - intros key e' q Hl Hq'. apply lookup_delete_Some in Hl as [_ Hl]. eapply Hdb; eauto.
  - apply ledger_insert; [exact Hdb |]. cbn [c_qty setQty]. intros q0 Hq0.
    destruct (c_qty e) as [l |] eqn:Hl; cbn [increment] in Hq0; injection Hq0 as <-.
    + destruct (orZero_positive l (Hdb _ _ _ He Hl)) as [Hz | ->].
      * rewrite Hz in Hgt, Heq. apply sub_positive; assumption.
      * destruct qty as [| [] |]; reflexivity.
    + unfold orZero in Hgt. cbn in Hgt. clear Heq. num_cases.
Qed.

Lemma perform_keeps_ledger (o : operation) (db : store) :
  ledgerPositive db -> ledgerPositive (perform o db).
Proof.
  intros Hdb. destruct o as [uid itemId qty now | uid itemId qty now | dr | id p | id];
    cbn [perform].
  - apply checkout_keeps_ledger. exact Hdb.
  - apply return_keeps_ledger. exact Hdb.
  - destruct (createItem_cases dr db) as [(_ & He) | [(_ & _ & He) | (_ & _ & He)]];
      rewrite He; exact Hdb.
  - destruct (updateItem_cases id p db) as [(e & He) | (d & _ & _ & He)];
      rewrite He; exact Hdb.
  - exact Hdb.
Qed.

End Ledger.

(** X23.  In a history of checkouts, returns, creations, updates and
    deletions that starts from a ledger without an entry of quantity 0 or
    less, no committed state has such an entry: a return that empties an
    entry removes it, and no operation leaves an entry at 0 or below. *)
Theorem ledger_never_holds_nothing (ops : list operation) (db : store) :
  ledgerPositive db -> Forall ledgerPositive (committedStates ops db).
Proof.
  revert db. induction ops as [| o rest IH]; intros db Hdb; cbn [committedStates].
  - constructor; [exact Hdb | constructor].
  - constructor; [exact Hdb |]. apply IH. apply perform_keeps_ledger. exact Hdb.
Qed.

Lemma ledger_never_holds_nothing_witness :
  Forall ledgerPositive
    (committedStates [Return "u1" "bolt1" (Fin 2) 7; Return "u1" "bolt1" (Fin 3) 8]
       checkedOutStore).
Proof.
  apply (ledger_never_holds_nothing
           [Return "u1" "bolt1" (Fin 2) 7; Return "u1" "bolt1" (Fin 3) 8] checkedOutStore).
  intros key e q Hl Hq. unfold checkedOutStore in Hl. autorewrite with store in Hl.
  destruct (decide (("u1", "bolt1") = key)) as [<- | Hne].
  - rewrite lookup_insert_eq in Hl. injection Hl as <-. injection Hq as <-. reflexivity.
  - rewrite lookup_insert_ne in Hl by exact Hne. discriminate.
Defined.

(** X24.  [deleteItem] removes the item document and nothing else: what
    users have checked out of the item stays in their ledgers.  From then
    on every checkout and every return of that item fails and changes
    nothing, so such an entry can no longer be returned; a return that
    passes the checks on the entry fails on the update of the missing item
    document, and a checkout of a positive quantity with "item not found". *)
Theorem deleted_item_strands_ledger
  (id uid : string) (qty : number) (now : Z) (db : store) :
  checkedOutItems (snd (deleteItem id db)) = checkedOutItems db /\
  getItem id (snd (deleteItem id db)) = None /\
  (exists e, returnItem uid id qty now (snd (deleteItem id db))
             = (Err e, snd (deleteItem id db))) /\
  (exists e, checkoutItem uid id qty now (snd (deleteItem id db))
             = (Err e, snd (deleteItem id db))) /\
  (forall entry,
     Num.le qty Num.zero = false ->
     checkedOutItems db !! (uid, id) = Some entry ->
     Num.gt qty (orZero (c_qty entry)) = false ->
     returnItem uid id qty now (snd (deleteItem id db))
     = (Err (NoDocumentToUpdate (ItemRef id)), snd (deleteItem id db))) /\
  (Num.le qty Num.zero = false ->
   checkoutItem uid id qty now (snd (deleteItem id db))
   = (Err ItemNotFound, snd (deleteItem id db))).
Proof.
  unfold deleteItem. cbn [snd].
  assert (Hgone : items (withItems (delete id) db) !! id = None).
  { autorewrite with store. apply lookup_delete_eq. }
  assert (Hledger : checkedOutItems (withItems (delete id) db) = checkedOutItems db).
  { autorewrite with store. reflexivity. }
  split; [exact Hledger |].
  split; [unfold getItem; rewrite Hgone; reflexivity |].
  split; [| split; [| split]].
  - destruct (return_outcome uid id qty now (withItems (delete id) db))
      as [H | (e & d & _ & _ & _ & Hi & _)]; [exact H | congruence].
  - destruct (checkout_outcome uid id qty now (withItems (delete id) db))
      as [H | (d & _ & Hi & _)]; [exact H | congruence].
  - intros entry Hq He Hgt. apply (return_item_missing _ _ _ _ _ entry); auto.
  - intros Hq. apply checkout_not_found; assumption.
Qed.

Lemma deleted_item_strands_ledger_witness :
  returnItem "u1" "bolt1" (Fin 5) 9 (snd (deleteItem "bolt1" checkedOutStore))
  = (Err (NoDocumentToUpdate (ItemRef "bolt1")), snd (deleteItem "bolt1" checkedOutStore)).
Proof.
  apply (deleted_item_strands_ledger "bolt1" "u1" (Fin 5) 9 checkedOutStore) with sampleEntry.
  - reflexivity.
  - reflexivity.
  - reflexivity.
Defined.

(** ** Fetching many items *)

Section Batch.

Variable db : store.

Lemma batch_results_lookup (batch : list string) (results : gmap string (option Item))
  (id : string) :
  foldl (fun m '(id, r) => <[id := r]> m) results
        (zip batch (map (fun id => getItemDetails id db) batch)) !! id
  = if decide (id ∈ batch) then Some (getItemDetails id db) else results !! id.
Proof.
  revert results. induction batch as [| b batch IH]; intros results; cbn [map zip zip_with foldl].
  - destruct (decide (id ∈ [])) as [H |]; [inversion H | reflexivity].
  - rewrite IH. destruct (decide (id ∈ batch)) as [Hin | Hnin].
    + rewrite decide_True by (right; exact Hin). reflexivity.
    + destruct (decide (id = b)) as [-> | Hne].
      * rewrite decide_True by left. apply lookup_insert_eq.
      * rewrite decide_False by (intros H; inversion H; subst; contradiction).
        apply lookup_insert_ne. congruence.
Qed.

Lemma getItemsBatchLoop_spec (itemIds : list string) (concurrencyLimit : nat) :
  (1 <= concurrencyLimit)%nat ->
  forall (fuel i : nat) (results : gmap string (option Item)),
    (length itemIds <= i + fuel)%nat ->
    exists m,
      getItemsBatchLoop fuel itemIds concurrencyLimit i db results = Some m /\
      forall id, m !! id = if decide (id ∈ drop i itemIds)
                           then Some (getItemDetails id db) else results !! id.
Proof.
  intros Hlimit. induction fuel as [| fuel IH]; intros i results Hfuel.
  - cbn [getItemsBatchLoop]. destruct (i <? length itemIds)%nat eqn:Hi.
    + apply Nat.ltb_lt in Hi. lia.
    + apply Nat.ltb_ge in Hi. exists results. split; [reflexivity |].
      intros id. rewrite drop_ge by exact Hi.
      destruct (decide (id ∈ [])) as [H |]; [inversion H | reflexivity].
  - cbn [getItemsBatchLoop]. destruct (i <? length itemIds)%nat eqn:Hi.
    + destruct (IH (i + concurrencyLimit)%nat
                  (foldl (fun m '(id, r) => <[id := r]> m) results
                     (zip (take concurrencyLimit (drop i itemIds))
                        (map (fun id => getItemDetails id db)
                           (take concurrencyLimit (drop i itemIds))))))
        as (m & Hm & Hlookup); [lia |].
      exists m. split; [exact Hm |]. intros id. rewrite Hlookup, batch_results_lookup.
      assert (Hsplit : forall x, x ∈ drop i itemIds <->
                x ∈ take concurrencyLimit (drop i itemIds) \/
                x ∈ drop (i + concurrencyLimit) itemIds).
      { intros x. rewrite <- (take_drop concurrencyLimit (drop i itemIds)) at 1.
        rewrite drop_drop. apply elem_of_app. }
      destruct (decide (id ∈ drop (i + concurrencyLimit) itemIds)) as [Hin | Hnin].
      * rewrite decide_True by (apply Hsplit; right; exact Hin). reflexivity.
      * destruct (decide (id ∈ take concurrencyLimit (drop i itemIds))) as [Hin' | Hnin'].
        -- rewrite decide_True by (apply Hsplit; left; exact Hin'). reflexivity.
        -- rewrite decide_False; [reflexivity |].
           intros [H | H]%Hsplit; contradiction.
    + apply Nat.ltb_ge in Hi. exists results. split; [reflexivity |].
      intros id. rewrite drop_ge by exact Hi.
      destruct (decide (id ∈ [])) as [H |]; [inversion H | reflexivity].
Qed.

Lemma getItemsBatchLoop_stuck (itemIds : list string) (fuel : nat)
  (results : gmap string (option Item)) :
  itemIds <> [] -> getItemsBatchLoop fuel itemIds 0 0 db results = None.
Proof.
  intros Hne. revert results. induction fuel as [| fuel IH]; intros results;
    cbn [getItemsBatchLoop]; destruct itemIds as [| x rest]; try contradiction.
  - reflexivity.
  - cbn [length Nat.ltb Nat.leb]. rewrite take_0. cbn [map zip zip_with foldl].
    apply IH.
Qed.

End Batch.

(** X25.  With a concurrency limit of at least 1, [getItemsBatch] ends
    after at most one round per id and returns a map whose keys are the
    ids asked for, each mapped to what [getItemDetails] gives for it
    (null for an id without a document), whatever the limit and however
    often an id is listed. *)
Theorem getItemsBatch_fetches_each_id
  (itemIds : list string) (concurrencyLimit fuel : nat) (db : store) :
  (1 <= concurrencyLimit)%nat -> (length itemIds <= fuel)%nat ->
  exists m,
    getItemsBatch fuel itemIds concurrencyLimit db = Some m /\
    forall id, m !! id = if decide (id ∈ itemIds)
                         then Some (getItemDetails id db) else None.
Proof.
  intros Hlimit Hfuel. unfold getItemsBatch.
  destruct (getItemsBatchLoop_spec db itemIds concurrencyLimit Hlimit fuel 0%nat ∅)
    as (m & Hm & Hlookup); [lia |].
  exists m. split; [exact Hm |]. intros id. rewrite Hlookup. rewrite drop_0.
  destruct (decide (id ∈ itemIds)); [reflexivity | apply lookup_empty].
Qed.

Lemma getItemsBatch_fetches_each_id_witness :
  exists m,
    getItemsBatch 3 ["bolt1"; "nut7"; "bolt1"] 2 checkedOutStore = Some m /\
    forall id, m !! id = if decide (id ∈ ["bolt1"; "nut7"; "bolt1"])
                         then Some (getItemDetails id checkedOutStore) else None.
Proof.
  apply (getItemsBatch_fetches_each_id ["bolt1"; "nut7"; "bolt1"] 2 3 checkedOutStore).
  - lia.
  - cbn. lia.
Defined.

(** X26.  With a concurrency limit of 0 and at least one id the loop of
    [getItemsBatch] never advances: no number of rounds ends it, and the
    call returns nothing. *)
Theorem getItemsBatch_zero_limit_never_returns
  (itemIds : list string) (fuel : nat) (db : store) :
  itemIds <> [] -> getItemsBatch fuel itemIds 0 db = None.
Proof.
  intros Hne. unfold getItemsBatch. apply getItemsBatchLoop_stuck. exact Hne.
Qed.

Lemma getItemsBatch_zero_limit_never_returns_witness :
  getItemsBatch 1000 ["bolt1"] 0 checkedOutStore = None.
Proof.
  apply (getItemsBatch_zero_limit_never_returns ["bolt1"] 1000 checkedOutStore).
  discriminate.
Defined.

(** ** Removing a location *)

Section Locations.

Lemma removeLocation_past (locations : list (list string)) (index k : nat) :
  (index < k)%nat ->
  omap (fun '(i, loc) => if Nat.eqb i index then None else Some loc)
       (imap (fun i loc => ((k + i)%nat, loc)) locations)
  = locations.
Proof.
  revert k. induction locations as [| loc rest IH]; intros k Hk; [reflexivity |].
  cbn [imap omap list_omap].
  replace (k + 0 =? index)%nat with false by (symmetry; apply Nat.eqb_neq; lia).
  f_equal. rewrite <- (IH (S k)) at 2 by lia.
  f_equal. apply imap_ext. intros i x _. cbn. f_equal. lia.
Qed.

Lemma removeLocation_shift (locations : list (list string)) (index k : nat) :
  omap (fun '(i, loc) => if Nat.eqb i (k + index) then None else Some loc)
       (imap (fun i loc => ((k + i)%nat, loc)) locations)
  = (take index locations ++ drop (S index) locations)%list.
Proof.
  revert index k. induction locations as [| loc rest IH]; intros index k.
  - destruct index; reflexivity.
  - cbn [imap omap list_omap]. destruct index as [| index].
    + rewrite Nat.eqb_refl. cbn [take drop app]. rewrite drop_0.
      rewrite <- (removeLocation_past rest (k + 0) (S k)) at 2 by lia.
      f_equal. apply imap_ext. intros i x _. cbn. f_equal. lia.
    + replace (k + 0 =? k + S index)%nat with false by (symmetry; apply Nat.eqb_neq; lia).
      cbn [take drop app]. f_equal.
      rewrite <- (IH index (S k)).
      replace (S k + index)%nat with (k + S index)%nat by lia.
      f_equal. apply imap_ext. intros i x _. cbn. f_equal. lia.
Qed.

Lemma removeLocation_eq (locations : list (list string)) (index : nat) :
  removeLocation locations index
  = (take index locations ++ drop (S index) locations)%list.
Proof. unfold removeLocation. apply (removeLocation_shift locations index 0). Qed.

End Locations.

(** X27.  [removeLocation] drops the entry at [index] and keeps the
    others in order: entry [i] of the result is entry [i] of the list
    before [index] and entry [i + 1] from [index] on.  An index past the
    end changes nothing, and removing the last entry right after the
    picker's Add restores the list the picker started from, whether Add
    appended its location or found it listed already. *)
Theorem removeLocation_drops_one (locations : list (list string)) (index : nat) :
  (forall i : nat,
     removeLocation locations index !! i
     = locations !! (if (i <? index)%nat then i else S i)) /\
  ((length locations <= index)%nat -> removeLocation locations index = locations) /\
  (forall cabinet row col : Z,
     removeLocation (addLocation locations cabinet row col) (length locations)
     = locations).
Proof.
  split; [| split].
  - intros i. rewrite removeLocation_eq. destruct (i <? index)%nat eqn:Hi.
    + apply Nat.ltb_lt in Hi. destruct (decide (i < length locations)%nat) as [Hlen | Hlen].
      * rewrite lookup_app_l by (rewrite length_take; lia).
        apply lookup_take_lt. exact Hi.
      * rewrite (lookup_ge_None_2 locations i) by lia.
        apply lookup_ge_None_2. rewrite length_app, length_take, length_drop. lia.
    + apply Nat.ltb_ge in Hi. destruct (decide (index <= length locations)%nat) as [Hlen | Hlen].
      * rewrite lookup_app_r by (rewrite length_take; lia).
        rewrite length_take, lookup_drop. f_equal. lia.
      * rewrite (lookup_ge_None_2 locations (S i)) by lia.
        apply lookup_ge_None_2. rewrite length_app, length_take, length_drop. lia.
  - intros Hlen. rewrite removeLocation_eq.
    rewrite take_ge by exact Hlen. rewrite drop_ge by lia. apply app_nil_r.
  - intros cabinet row col. rewrite removeLocation_eq. unfold addLocation.
    destruct (handleAdd locations cabinet row col) as [locArr |].
    + rewrite take_app_length.
      rewrite drop_app_ge by (rewrite ?length_app; cbn; lia).
      rewrite drop_ge by (cbn; lia). apply app_nil_r.
    + rewrite take_ge by lia. rewrite drop_ge by lia. apply app_nil_r.
Qed.

Lemma removeLocation_drops_one_witness :
  removeLocation [["cab1"; "row1"; "col1"]; ["cab2"; "row3"; "col4"]] 2
  = [["cab1"; "row1"; "col1"]; ["cab2"; "row3"; "col4"]].
Proof.
  apply (removeLocation_drops_one [["cab1"; "row1"; "col1"]; ["cab2"; "row3"; "col4"]] 2).
  cbn. lia.
Defined.
